(** * hfp: the bot-detection server (server.js)

    A shallow embedding of the server's detection engine: the Header
    Evaluator [analyzeHeadersOnly], the Signal Evaluator [analyzeBotSignals],
    the challenge store, the visit tracker with its timers, and the route
    handlers that tie them together.

    Conventions of the embedding.
    - JavaScript values are the values [JSON.parse] produces, plus
      [undefined] (the result of reading an absent property).  Numbers are
      IEEE binary64, as in the language.
    - A string is a sequence of code units below 256 (one [ascii] each):
      exactly what Node hands over for header values; body strings holding
      code units above 255 are outside the model.
    - A call that throws (always a [TypeError] here) is [Throw]; everything
      else is [Normal].
    - [Date.now()] is an argument of the handler that reads it, the values
      drawn from [Math.random()] are arguments of the handler that draws
      them, and a handler reads the clock once. *)

From Stdlib Require Import ZArith Floats Ascii String.
From stdpp Require Import gmap strings list.

Local Open Scope string_scope.
Local Open Scope Z_scope.

(** ** Completions *)

Inductive completion (A : Type) : Type :=
| Normal (a : A)
| Throw.
Arguments Normal {A} a.
Arguments Throw {A}.

Definition cbind {A B} (m : completion A) (k : A -> completion B) : completion B :=
  match m with
  | Normal a => k a
  | Throw => Throw
  end.

Declare Scope comp_scope.
Delimit Scope comp_scope with comp.
Notation "'do' x <- m ; k" := (cbind m (fun x => k))
  (at level 10, x name, m at level 100, k at level 200) : comp_scope.
Local Open Scope comp_scope.

(** ** JavaScript values *)

Module JS.

#[local] Set Warnings "-register-all".

Inductive value : Type :=
| VUndef
| VNull
| VBool (b : bool)
| VNum (x : float)
| VStr (s : string)
| VArr (xs : list value)
| VObj (fields : list (string * value)).

(** The result of a string conversion.  [Number::toString] is left
    uninterpreted: a number inside a converted string is kept as the number. *)
Inductive piece : Type :=
| PStr (s : string)
| PNum (x : float).

Definition text := list piece.

Definition lit (s : string) : text := [PStr s].

(** Primitive values, with strings that may come out of a conversion. *)
Inductive prim : Type :=
| PrUndef
| PrNull
| PrBool (b : bool)
| PrNumber (x : float)
| PrString (t : text).

Definition nan : float := PrimFloat.nan.

(** The Number value of a mathematical integer (round to nearest, ties to
    even; exact below 2^53). *)
Definition of_Z (z : Z) : float := SF2Prim (SpecFloat.binary_normalize 53 1024 z 0 false).

Definition of_nat (n : nat) : float := of_Z (Z.of_nat n).

(** *** Strings *)

Fixpoint includes (s p : string) : bool :=
  String.prefix p s ||
  match s with
  | EmptyString => false
  | String _ s' => includes s' p
  end.

Definition lower_ascii (c : ascii) : ascii :=
  let n := nat_of_ascii c in
  if ((65 <=? n) && (n <=? 90))%nat || ((192 <=? n) && (n <=? 222) && negb (n =? 215))%nat
  then ascii_of_nat (n + 32) else c.

Fixpoint toLowerCase (s : string) : string :=
  match s with
  | EmptyString => EmptyString
  | String c s' => String (lower_ascii c) (toLowerCase s')
  end.

(** [s.split(sep)[0]] for a one-character separator: the part before its
    first occurrence. *)
Fixpoint before (sep : ascii) (s : string) : string :=
  match s with
  | EmptyString => EmptyString
  | String c s' => if Ascii.eqb c sep then EmptyString else String c (before sep s')
  end.

Definition substring (start len : nat) (s : string) : string := String.substring start len s.

(** White space and line terminators among the code units below 256. *)
Definition is_ws (c : ascii) : bool :=
  let n := nat_of_ascii c in
  ((9 <=? n) && (n <=? 13) || (n =? 32) || (n =? 160))%nat.

Fixpoint trimStart (s : string) : string :=
  match s with
  | String c s' => if is_ws c then trimStart s' else s
  | EmptyString => EmptyString
  end.

Definition trim (s : string) : string :=
  String.rev (trimStart (String.rev (trimStart s))).

(** *** Property access *)

Fixpoint own (k : string) (fields : list (string * value)) : option value :=
  match fields with
  | [] => None
  | (k', v) :: rest => if String.eqb k k' then Some v else own k rest
  end.

(** [v?.k] and, on a value that is neither [undefined] nor [null], [v.k].
    Of the property names the server reads only [length] exists on a
    prototype. *)
Definition get (v : value) (k : string) : value :=
  match v with
  | VObj fields => default VUndef (own k fields)
  | VStr s => if String.eqb k "length" then VNum (of_nat (String.length s)) else VUndef
  | VArr xs => if String.eqb k "length" then VNum (of_nat (List.length xs)) else VUndef
  | _ => VUndef
  end.

(** *** Conversions *)

Definition ToBoolean (v : value) : bool :=
  match v with
  | VUndef | VNull => false
  | VBool b => b
  | VNum x => negb (PrimFloat.is_zero x || PrimFloat.is_nan x)
  | VStr s => negb (String.eqb s "")
  | VArr _ | VObj _ => true
  end.

(** [a || b] and [a ?? b], the right operand being a value. *)
Definition or (a b : value) : value := if ToBoolean a then a else b.

Definition nullish (a b : value) : value :=
  match a with
  | VUndef | VNull => b
  | _ => a
  end.

(** An object [JSON.parse] built converts to ["[object Object]"] through the
    inherited [toString]; when it has a property of its own named [toString]
    (not callable, whatever its value) the conversion finds no method and
    throws.  An array converts through [join], which converts its elements. *)
Definition object_converts (fields : list (string * value)) : bool :=
  match own "toString" fields with
  | Some _ => false
  | None => true
  end.

Fixpoint ToString (v : value) : completion text :=
  match v with
  | VUndef => Normal (lit "undefined")
  | VNull => Normal (lit "null")
  | VBool b => Normal (lit (if b then "true" else "false"))
  | VNum x => Normal [PNum x]
  | VStr s => Normal (lit s)
  | VObj fields => if object_converts fields then Normal (lit "[object Object]") else Throw
  | VArr xs =>
      (fix join (first : bool) (xs : list value) : completion text :=
         match xs with
         | [] => Normal []
         | x :: rest =>
             do t <- match x with
                     | VUndef | VNull => Normal []
                     | _ => ToString x
                     end;
             do r <- join false rest;
             Normal ((if first then [] else lit ",") ++ t ++ r)%list
         end) true xs
  end.

Definition ToPrimitive (v : value) : completion prim :=
  match v with
  | VUndef => Normal PrUndef
  | VNull => Normal PrNull
  | VBool b => Normal (PrBool b)
  | VNum x => Normal (PrNumber x)
  | VStr s => Normal (PrString (lit s))
  | VArr _ | VObj _ => do t <- ToString v; Normal (PrString t)
  end.

(** [StringToNumber]: white space is trimmed; the empty string is [+0]; a
    [0x], [0o] or [0b] literal carries no sign; a decimal literal is
    rounded to the nearest Number, ties to even. *)
Definition digit (base : Z) (c : ascii) : option Z :=
  let n := Z.of_nat (nat_of_ascii c) in
  let d := if (48 <=? n) && (n <=? 57) then Some (n - 48)
           else if (97 <=? n) && (n <=? 102) then Some (n - 87)
           else if (65 <=? n) && (n <=? 70) then Some (n - 55)
           else None in
  match d with
  | Some d => if d <? base then Some d else None
  | None => None
  end.

(** The longest run of digits at the head of [s]: its value, its length and
    what follows it. *)
Fixpoint digits (base : Z) (s : string) (acc : Z) (n : nat) : Z * nat * string :=
  match s with
  | String c s' =>
      match digit base c with
      | Some d => digits base s' (acc * base + d) (S n)
      | None => (acc, n, s)
      end
  | EmptyString => (acc, n, s)
  end.

(** The Number nearest to [m * 10^e10] ([m >= 0]), negated when [neg]. *)
Definition of_decimal (neg : bool) (m e10 : Z) : float :=
  if m =? 0 then (if neg then PrimFloat.neg_zero else PrimFloat.zero)
  else if 0 <=? e10 then of_Z ((if neg then - m else m) * 10 ^ e10)
  else
    let d := 10 ^ (- e10) in
    let s := Z.max 0 (Z.log2 d - Z.log2 m + 64) in
    let q := (m * 2 ^ s) / d in
    let sticky := if (m * 2 ^ s) mod d =? 0 then 0 else 1 in
    let q' := 2 * q + sticky in
    SF2Prim (SpecFloat.binary_normalize 53 1024 (if neg then - q' else q') (- s - 1) false).

Definition non_decimal (base : Z) (s : string) : float :=
  match digits base s 0 0%nat with
  | (v, S _, EmptyString) => of_Z v
  | _ => nan
  end.

Definition exponent_part (s : string) : option Z :=
  match s with
  | EmptyString => Some 0
  | String c s' =>
      if Ascii.eqb c "e" || Ascii.eqb c "E" then
        let '(neg, s'') :=
          match s' with
          | String "-" r => (true, r)
          | String "+" r => (false, r)
          | _ => (false, s')
          end in
        match digits 10 s'' 0 0%nat with
        | (v, S _, EmptyString) => Some (if neg then - v else v)
        | _ => None
        end
      else None
  end.

Definition unsigned_decimal (neg : bool) (s : string) : float :=
  if String.eqb s "Infinity" then
    (if neg then PrimFloat.neg_infinity else PrimFloat.infinity)
  else
    let '(ip, n1, r1) := digits 10 s 0 0%nat in
    let '(fp, n2, r2) :=
      match r1 with
      | String "." r => digits 10 r 0 0%nat
      | _ => (0, 0%nat, r1)
      end in
    match (n1 + n2)%nat, exponent_part r2 with
    | S _, Some e => of_decimal neg (ip * 10 ^ Z.of_nat n2 + fp) (e - Z.of_nat n2)
    | _, _ => nan
    end.

Definition StringToNumber (s : string) : float :=
  match trim s with
  | EmptyString => PrimFloat.zero
  | String "0" (String c r) as t =>
      if Ascii.eqb c "x" || Ascii.eqb c "X" then non_decimal 16 r
      else if Ascii.eqb c "o" || Ascii.eqb c "O" then non_decimal 8 r
      else if Ascii.eqb c "b" || Ascii.eqb c "B" then non_decimal 2 r
      else unsigned_decimal false t
  | String "-" r => unsigned_decimal true r
  | String "+" r => unsigned_decimal false r
  | t => unsigned_decimal false t
  end.

(** [ToNumber].  An array goes through its string: the empty array gives
    [+0], an array of two or more elements gives [NaN] (its string holds a
    comma), and a one-element array gives the Number of its element's
    string, which for a number is the number itself ([-0] prints as ["0"]). *)
Fixpoint ToNumber (v : value) : completion float :=
  match v with
  | VUndef => Normal nan
  | VNull => Normal PrimFloat.zero
  | VBool b => Normal (if b then PrimFloat.one else PrimFloat.zero)
  | VNum x => Normal x
  | VStr s => Normal (StringToNumber s)
  | VObj _ => do _ <- ToString v; Normal nan
  | VArr xs =>
      do _ <- ToString v;
      match xs with
      | [] => Normal PrimFloat.zero
      | [x] =>
          match x with
          | VUndef | VNull => Normal PrimFloat.zero
          | VBool _ | VObj _ => Normal nan
          | VNum n => Normal (if PrimFloat.is_zero n then PrimFloat.zero else n)
          | VStr s => Normal (StringToNumber s)
          | VArr _ => ToNumber x
          end
      | _ => Normal nan
      end
  end.

(** *** Operators *)

(** [a === b].  Two objects read from two places are never the same
    object. *)
Definition strict_eq (a b : value) : bool :=
  match a, b with
  | VUndef, VUndef | VNull, VNull => true
  | VBool x, VBool y => Bool.eqb x y
  | VNum x, VNum y => PrimFloat.eqb x y
  | VStr x, VStr y => String.eqb x y
  | _, _ => false
  end.

(** [a < b] and [a > b] where one operand is a number: the other is
    converted with [ToNumber]. *)
Definition lt_num (a : value) (c : float) : completion bool :=
  do x <- ToNumber a; Normal (PrimFloat.ltb x c).

Definition gt_num (a : value) (c : float) : completion bool :=
  do x <- ToNumber a; Normal (PrimFloat.ltb c x).

(** [a - b]. *)
Definition sub (a b : value) : completion float :=
  do x <- ToNumber a; do y <- ToNumber b; Normal (PrimFloat.sub x y).

Definition prim_text (p : prim) : text :=
  match p with
  | PrUndef => lit "undefined"
  | PrNull => lit "null"
  | PrBool b => lit (if b then "true" else "false")
  | PrNumber x => [PNum x]
  | PrString t => t
  end.

(** [a + b] on primitives: concatenation as soon as one side is a string,
    the sum of the two Numbers otherwise. *)
Definition add (a b : prim) : prim :=
  let number p :=
    match p with
    | PrNull => PrimFloat.zero
    | PrBool b => if b then PrimFloat.one else PrimFloat.zero
    | PrNumber x => x
    | PrUndef | PrString _ => nan
    end in
  match a, b with
  | PrString s, _ => PrString (s ++ prim_text b)%list
  | _, PrString t => PrString (prim_text a ++ t)%list
  | _, _ => PrNumber (PrimFloat.add (number a) (number b))
  end.

End JS.

Import JS.

(** [v?.k] *)
Notation "v ?. k" := (get v k) (at level 8, left associativity, format "v ?. k").

(** ** Signals and verdicts *)

Module Signal.
Record t : Type := mk {
  name : string;
  detected : bool;
  weight : Z;
  reason : text;
  category : option string;
}.
End Signal.

Module Summary.
Record t : Type := mk {
  totalChecks : Z;
  flagged : Z;
  passed : Z;
}.
End Summary.

Module Verdict.
Record t : Type := mk {
  verdict : string;
  score : Z;
  maxScore : Z;
  code : option Z;
  confidence : string;
  reason : option text;
  signals : list Signal.t;
  allSignals : list Signal.t;
  signalsByCategory : option (list (string * list Signal.t));
  summary : Summary.t;
}.
End Verdict.

(** The two locals every [addSignal] closure writes: [signals] and [score]. *)
Record acc : Type := mkAcc {
  signals : list Signal.t;
  score : Z;
}.

Definition acc0 : acc := mkAcc [] 0.

(** [signals.length], a count that is a Number in the source. *)
Definition len {A} (l : list A) : Z := Z.of_nat (List.length l).

(** [headers[k] || ''] and [!headers[k]] on Node's header object, whose
    values are strings. *)
Definition header (headers : gmap string string) (k : string) : string :=
  default "" (headers !! k).

Definition missing (headers : gmap string string) (k : string) : bool :=
  String.eqb (header headers k) "".

(** [`... ${p}`] for the result of [botPatterns.find]. *)
Definition found_text (p : option string) : text :=
  match p with
  | Some s => lit s
  | None => lit "undefined"
  end.

(** ** The Header Evaluator *)

Module HeaderEvaluator.

Definition addSignal (name : string) (detected : bool) (weight : Z)
    (passReason failReason : text) (a : acc) : acc :=
  if detected then
    mkAcc (signals a ++ [Signal.mk name true weight failReason None]) (score a + weight)
  else
    mkAcc (signals a ++ [Signal.mk name false weight passReason None]) (score a).

Definition botPatterns : list string := [
  "python"; "curl"; "wget"; "axios"; "node-fetch"; "go-http"; "java/";
  "libwww"; "httpunit"; "nutch"; "phpcrawl"; "msnbot"; "jyxobot";
  "fast-webcrawler"; "biglotron"; "teoma"; "convera"; "gigablast";
  "ia_archiver"; "webmon"; "httrack"; "grub.org"; "netresearchserver";
  "speedy"; "fluffy"; "findlink"; "panscient"; "ips-agent"; "yanga";
  "cyberpatrol"; "postrank"; "page2rss"; "linkdex"; "ezooms"; "heritrix";
  "findthatfile"; "europarchive.org"; "mappydata"; "eright"; "apercite";
  "scrapy"; "mechanize"; "phantom"; "casper"; "selenium"; "webdriver";
  "chrome-lighthouse"; "pingdom"; "phantomjs"; "headlesschrome";
  "httpie"; "postman"; "insomnia"; "rest-client"; "okhttp"; "apache-http"
].

(** The twelve [addSignal] calls, in source order. *)
Definition rules (headers : gmap string string) (a : acc) : acc :=
  let userAgent := header headers "user-agent" in
  let userAgentLower := toLowerCase userAgent in
  let a := addSignal "noUserAgent" (String.eqb userAgent "") 30
    (lit "User-Agent header present")
    (lit "No User-Agent header (very suspicious)") a in
  let a := addSignal "shortUserAgent"
    ((0 <? String.length userAgent)%nat && (String.length userAgent <? 20)%nat) 15
    [PStr "User-Agent length: "; PNum (of_nat (String.length userAgent)); PStr " chars"]
    [PStr "User-Agent too short: "; PNum (of_nat (String.length userAgent)); PStr " chars"] a in
  let matchedBotPattern := List.find (fun p => includes userAgentLower p) botPatterns in
  let a := addSignal "botUserAgent" (bool_decide (is_Some matchedBotPattern)) 30
    (lit "User-Agent appears legitimate")
    (PStr "Bot-like User-Agent pattern: " :: found_text matchedBotPattern) a in
  let a := addSignal "headlessUA" (includes userAgentLower "headless") 25
    (lit "No headless indicator in User-Agent")
    (lit "Headless mentioned in User-Agent") a in
  let a := addSignal "noAcceptHeader" (missing headers "accept") 10
    (lit "Accept header present")
    (lit "Accept header missing") a in
  let accept := header headers "accept" in
  let nonBrowserAccept :=
    negb (String.eqb accept "") && negb (includes accept "text/html")
    && negb (includes accept "*/*") in
  let a := addSignal "nonBrowserAccept" nonBrowserAccept 10
    (lit "Accept header looks like browser")
    [PStr "Non-browser Accept header: "; PStr (substring 0 50 accept)] a in
  let a := addSignal "noAcceptLanguage" (missing headers "accept-language") 15
    (lit "Accept-Language header present")
    (lit "Accept-Language header missing") a in
  let a := addSignal "noAcceptEncoding" (missing headers "accept-encoding") 10
    (lit "Accept-Encoding header present")
    (lit "Accept-Encoding header missing") a in
  let hasSecFetch :=
    negb (missing headers "sec-fetch-dest") || negb (missing headers "sec-fetch-mode")
    || negb (missing headers "sec-fetch-site") in
  let a := addSignal "noSecFetch" (negb hasSecFetch) 15
    (lit "Sec-Fetch headers present")
    (lit "Sec-Fetch headers missing (not a modern browser)") a in
  let a := addSignal "noSecChUa" (missing headers "sec-ch-ua") 8
    (lit "Sec-CH-UA header present")
    (lit "Sec-CH-UA header missing") a in
  let a := addSignal "noConnection" (missing headers "connection") 5
    (lit "Connection header present")
    (lit "Connection header missing") a in
  addSignal "noUpgradeInsecure" (missing headers "upgrade-insecure-requests") 5
    (lit "Upgrade-Insecure-Requests header present")
    (lit "Upgrade-Insecure-Requests header missing") a.

Definition analyzeHeadersOnly (headers : gmap string string) : Verdict.t :=
  let a := rules headers acc0 in
  let maxScore := 100 in
  let normalizedScore := Z.min (score a) maxScore in
  let verdict :=
    if 50 <=? normalizedScore then "bot"
    else if 25 <=? normalizedScore then "suspicious"
    else "human" in
  {| Verdict.verdict := verdict;
     Verdict.score := normalizedScore;
     Verdict.maxScore := maxScore;
     Verdict.code := None;
     Verdict.confidence :=
       if 50 <=? normalizedScore then "high"
       else if 25 <=? normalizedScore then "medium"
       else "low";
     Verdict.reason := None;
     Verdict.signals := filter (fun s => Signal.detected s = true) (signals a);
     Verdict.allSignals := signals a;
     Verdict.signalsByCategory := None;
     Verdict.summary :=
       {| Summary.totalChecks := len (signals a);
          Summary.flagged := len (filter (fun s => Signal.detected s = true) (signals a));
          Summary.passed := len (filter (fun s => Signal.detected s = false) (signals a)) |} |}.

End HeaderEvaluator.

(** ** The Signal Evaluator *)

Module SignalEvaluator.

#[local] Set Warnings "-inexact-float".

(** Expressions that may throw: [a && b] and [a || b] evaluate [b] only
    when [a] does not decide. *)
Definition pure {A} (a : A) : completion A := Normal a.

Definition c_and (a b : completion bool) : completion bool :=
  do x <- a; if x then b else Normal false.

Definition c_or (a b : completion bool) : completion bool :=
  do x <- a; if x then Normal true else b.

Definition c_not (a : completion bool) : completion bool :=
  do x <- a; Normal (negb x).

(** A template literal: its strings and the values it interpolates. *)
Inductive part : Type :=
| S (s : string)
| V (v : value)
| T (t : text).

Fixpoint template (ps : list part) : completion text :=
  match ps with
  | [] => Normal []
  | p :: rest =>
      do t <- match p with
              | S s => Normal (lit s)
              | V v => ToString v
              | T t => Normal t
              end;
      do r <- template rest;
      Normal (t ++ r)%list
  end.

Definition str (s : string) : completion text := Normal (lit s).

(** The receiver of [.toLowerCase()] or [.split()]: a string, or the call
    throws (no other value has these methods). *)
Definition string_receiver (v : value) : completion string :=
  match v with
  | VStr s => Normal s
  | _ => Throw
  end.

(** [v.includes(p)]: [String.prototype.includes] on a string,
    [Array.prototype.includes] on an array, no such method otherwise. *)
Definition includes_method (v : value) (p : string) : completion bool :=
  match v with
  | VStr s => Normal (includes s p)
  | VArr xs => Normal (existsb (fun x => strict_eq x (VStr p)) xs)
  | _ => Throw
  end.

Definition isArray (v : value) : bool :=
  match v with
  | VArr _ => true
  | _ => false
  end.

(** [/mobile|android|iphone|ipad/i.test(s)] *)
Definition mobile_regex (s : string) : bool :=
  let l := toLowerCase s in
  includes l "mobile" || includes l "android" || includes l "iphone" || includes l "ipad".

(** The body runs against the two locals [signals] and [score] and may
    throw. *)
Definition M (A : Type) : Type := acc -> completion (A * acc).

Definition ret {A} (a : A) : M A := fun s => Normal (a, s).

Definition bind {A B} (m : M A) (k : A -> M B) : M B :=
  fun s => do r <- m s; k (fst r) (snd r).

Definition lift {A} (c : completion A) : M A :=
  fun s => do a <- c; Normal (a, s).

Definition addSignal (name : string) (detected : bool) (weight : Z)
    (passReason failReason : text) (category : string) (a : acc) : acc :=
  if detected then
    mkAcc (signals a ++ [Signal.mk name true weight failReason (Some category)])
          (score a + weight)
  else
    mkAcc (signals a ++ [Signal.mk name false weight passReason (Some category)])
          (score a).

(** A call [addSignal(name, detected, weight, passReason, failReason,
    category)]: the arguments are evaluated, then the closure runs. *)
Definition call (name : string) (detected : completion bool) (weight : Z)
    (passReason failReason : completion text) (category : string) : M unit :=
  fun a =>
    do d <- detected;
    do p <- passReason;
    do f <- failReason;
    Normal (tt, addSignal name d weight p f category a).

Definition when (b : bool) (m : M unit) : M unit := if b then m else ret tt.

Definition botPatterns : list string := [
  "python"; "curl"; "wget"; "axios"; "node-fetch"; "go-http"; "java/";
  "libwww"; "httpunit"; "nutch"; "phpcrawl"; "msnbot"; "jyxobot";
  "fast-webcrawler"; "biglotron"; "teoma"; "convera"; "gigablast";
  "ia_archiver"; "webmon"; "httrack"; "grub.org"; "netresearchserver";
  "speedy"; "fluffy"; "findlink"; "panscient"; "ips-agent"; "yanga";
  "cyberpatrol"; "postrank"; "page2rss"; "linkdex"; "ezooms"; "heritrix";
  "findthatfile"; "europarchive.org"; "mappydata"; "eright"; "apercite";
  "scrapy"; "mechanize"; "phantom"; "casper"; "selenium"; "webdriver";
  "chrome-lighthouse"; "pingdom"; "phantomjs"; "headlesschrome"
].

Declare Scope M_scope.
Delimit Scope M_scope with M.
Notation "'let*' x := m 'in' k" := (bind (lift m) (fun x => k))
  (at level 10, x name, m at level 100, k at level 200) : M_scope.
Notation "m ;; k" := (bind m (fun _ => k))
  (at level 100, k at level 200, right associativity) : M_scope.

Local Open Scope M_scope.

Section Body.

Variable browserData : value.
Variable headers : gmap string string.

(** The values every rule shares (lines 458-466).  [userAgent] and
    [platform] are strings by the time a rule runs (see [analyzeBotSignals]
    below); [vendor] is any value. *)
Variable userAgent : string.
Variable platform : string.

Definition headerUA : string := header headers "user-agent".
Definition isChrome : bool := includes userAgent "Chrome".
Definition isFirefox : bool := includes userAgent "Firefox".
Definition isSafari : bool := includes userAgent "Safari" && negb isChrome.
Definition isMobileUA : bool := mobile_regex userAgent.
Definition platformLower : string := toLowerCase platform.
Definition vendor : value := or browserData?."navigator"?."vendor" (VStr "").

(** [!!browserData?.features?.k] and its negation *)
Definition feature (k : string) : bool := ToBoolean browserData?."features"?.k.

(** *** Critical signals (lines 468-514) *)

Definition jsChallenge : value := browserData?."jsChallenge".

Definition critical : M unit :=
  let webdriverDetected :=
    strict_eq browserData?."navigator"?."webdriver" (VBool true)
    || strict_eq browserData?."features"?."webdriver" (VBool true) in
  call "webdriver" (pure webdriverDetected) 30
    (str "navigator.webdriver is false")
    (str "navigator.webdriver is true (automation detected)")
    "automation" ;;
  call "phantom" (pure (feature "phantom")) 30
    (str "PhantomJS not detected")
    (str "PhantomJS detected")
    "automation" ;;
  call "nightmare" (pure (feature "nightmare")) 30
    (str "Nightmare.js not detected")
    (str "Nightmare.js detected")
    "automation" ;;
  call "selenium" (pure (feature "selenium")) 30
    (str "Selenium markers not detected")
    (str "Selenium markers detected")
    "automation" ;;
  call "domAutomation" (pure (feature "domAutomation")) 30
    (str "DOM automation attribute not detected")
    (str "DOM automation attribute detected")
    "automation" ;;
  let jsChallengeValid := strict_eq jsChallenge?."valid" (VBool true) in
  call "jsChallengeFailed" (pure (negb jsChallengeValid)) 35
    (template [S "JS challenge passed (solved in ";
               V (or jsChallenge?."solveTime" (VNum PrimFloat.zero)); S "ms)"])
    (if ToBoolean jsChallenge
     then template [S "JS challenge failed: ";
                    V (or jsChallenge?."reason" (VStr "incorrect answer"))]
     else str "No JS challenge completed (curl/bot)")
    "automation" ;;
  when (ToBoolean jsChallenge?."valid")
    (let suspiciousTiming := gt_num jsChallenge?."solveTime" (of_Z 30000) in
     call "jsChallengeTimingSuspicious" suspiciousTiming 10
       (template [S "Challenge solved in "; V jsChallenge?."solveTime"; S "ms"])
       (template [S "Challenge took too long: "; V jsChallenge?."solveTime";
                  S "ms (possible manual solving)"])
       "timing").

(** *** Essential browser data (lines 516-554) *)

Definition essential : M unit :=
  let* hasScreenData :=
    c_and (gt_num browserData?."screen"?."width" PrimFloat.zero)
          (gt_num browserData?."screen"?."height" PrimFloat.zero) in
  let* hasWindowData :=
    c_or (gt_num browserData?."window"?."innerWidth" PrimFloat.zero)
         (gt_num browserData?."window"?."outerWidth" PrimFloat.zero) in
  let hasNavigatorData :=
    ToBoolean browserData?."navigator"?."userAgent"
    && ToBoolean browserData?."navigator"?."language" in
  let hasTimezoneData :=
    ToBoolean browserData?."timezone"?."timezone"
    || negb (strict_eq browserData?."timezone"?."offset" VUndef) in
  let noBrowserDataAtAll :=
    negb (ToBoolean browserData?."screen") && negb (ToBoolean browserData?."window")
    && negb (ToBoolean browserData?."navigator") in
  call "noBrowserData" (pure noBrowserDataAtAll) 50
    (str "Browser data present")
    (str "No browser data submitted (request without JS execution)")
    "automation" ;;
  call "noScreenData" (pure (negb hasScreenData && negb noBrowserDataAtAll)) 25
    (template [S "Screen data available: "; V browserData?."screen"?."width"; S "x";
               V browserData?."screen"?."height"])
    (str "Screen dimensions missing or zero")
    "browser-features" ;;
  call "noWindowData" (pure (negb hasWindowData && negb noBrowserDataAtAll)) 20
    (str "Window data available")
    (str "Window dimensions missing")
    "browser-features" ;;
  call "noNavigatorData" (pure (negb hasNavigatorData && negb noBrowserDataAtAll)) 25
    (str "Navigator data available")
    (str "Navigator userAgent or language missing")
    "browser-features" ;;
  call "noTimezoneData" (pure (negb hasTimezoneData && negb noBrowserDataAtAll)) 15
    (str "Timezone data available")
    (str "Timezone information missing")
    "browser-features".

(** *** Strong signals (lines 556-584) *)

Definition strong : M unit :=
  let pluginsLength :=
    nullish (nullish browserData?."features"?."pluginsLength" browserData?."plugins"?."length")
      (VNum PrimFloat.zero) in
  call "noPlugins" (pure (strict_eq pluginsLength (VNum PrimFloat.zero))) 15
    (template [V pluginsLength; S " plugins detected"])
    (str "No browser plugins detected")
    "browser-features" ;;
  let* hasLanguages := gt_num browserData?."navigator"?."languages"?."length" PrimFloat.zero in
  call "noLanguages" (pure (negb hasLanguages)) 15
    (template [V (or browserData?."navigator"?."languages"?."length" (VNum PrimFloat.zero));
               S " languages configured"])
    (str "navigator.languages is empty")
    "browser-features" ;;
  when isChrome
    (call "missingChrome" (pure (negb (feature "windowChrome"))) 20
       (str "window.chrome object present")
       (str "Chrome UA but window.chrome missing")
       "consistency") ;;
  call "headlessUA" (pure (includes (toLowerCase userAgent) "headless")) 25
    (str "No headless indicator in User-Agent")
    (str "Headless mentioned in User-Agent")
    "automation".

(** *** Medium signals (lines 586-682) *)

Definition medium : M unit :=
  call "noPermissionsAPI" (pure (negb (feature "permissionsQuery"))) 10
    (str "Permissions API available")
    (str "Permissions API not available")
    "browser-features" ;;
  let* webglRenderer :=
    string_receiver
      (or (or browserData?."webgl"?."unmaskedRenderer" browserData?."webgl"?."renderer")
          (VStr "")) in
  let webglRendererLower := toLowerCase webglRenderer in
  let isSoftwareRenderer :=
    includes webglRendererLower "swiftshader" || includes webglRendererLower "llvmpipe"
    || includes webglRendererLower "mesa" in
  call "softwareRenderer" (pure isSoftwareRenderer) 20
    (template [S "Hardware renderer: "; V (or (VStr webglRenderer) (VStr "detected"))])
    (template [S "Software renderer detected: "; S webglRenderer])
    "webgl" ;;
  let noWebGLRenderer :=
    negb (ToBoolean (VStr webglRenderer)) && ToBoolean browserData?."webgl"
    && negb (ToBoolean browserData?."webgl"?."error") in
  call "noWebGLRenderer" (pure noWebGLRenderer) 10
    (template [S "WebGL renderer: "; V (or (VStr webglRenderer) (VStr "available"))])
    (str "WebGL available but no renderer info")
    "webgl" ;;
  let* webglVendor :=
    string_receiver
      (or (or browserData?."webgl"?."unmaskedVendor" browserData?."webgl"?."vendor")
          (VStr "")) in
  let isSoftwareVendor :=
    includes (toLowerCase webglVendor) "brian paul"
    || includes (toLowerCase webglVendor) "mesa" in
  call "softwareVendor" (pure isSoftwareVendor) 15
    (template [S "WebGL vendor: "; V (or (VStr webglVendor) (VStr "hardware"))])
    (template [S "Software WebGL vendor: "; S webglVendor])
    "webgl" ;;
  let webglExtensions := or browserData?."webgl"?."extensions" (VArr []) in
  let* hasWebGLExtensions :=
    c_and (pure (isArray webglExtensions)) (gt_num webglExtensions?."length" PrimFloat.zero) in
  call "noWebGLExtensions" (pure (negb hasWebGLExtensions)) 8
    (template [V webglExtensions?."length"; S " WebGL extensions available"])
    (str "No WebGL extensions available")
    "webgl" ;;
  let screenWidth := or browserData?."screen"?."width" (VNum PrimFloat.zero) in
  let screenHeight := or browserData?."screen"?."height" (VNum PrimFloat.zero) in
  call "zeroScreenSize"
    (pure (strict_eq screenWidth (VNum PrimFloat.zero)
           || strict_eq screenHeight (VNum PrimFloat.zero))) 15
    (template [S "Screen: "; V screenWidth; S "x"; V screenHeight])
    (str "Screen dimensions are zero")
    "screen" ;;
  call "defaultScreenSize"
    (pure (strict_eq screenWidth (VNum (of_Z 800))
           && strict_eq screenHeight (VNum (of_Z 600)))) 10
    (template [S "Screen: "; V screenWidth; S "x"; V screenHeight])
    (str "Default 800x600 screen (common in bots)")
    "screen" ;;
  let innerWidth := or browserData?."window"?."innerWidth" (VNum PrimFloat.zero) in
  let outerWidth := or browserData?."window"?."outerWidth" (VNum PrimFloat.zero) in
  let innerHeight := or browserData?."window"?."innerHeight" (VNum PrimFloat.zero) in
  let outerHeight := or browserData?."window"?."outerHeight" (VNum PrimFloat.zero) in
  let* noWindowChrome :=
    c_and (gt_num outerWidth PrimFloat.zero)
      (c_and (gt_num innerWidth PrimFloat.zero)
         (pure (strict_eq outerWidth innerWidth && strict_eq outerHeight innerHeight))) in
  call "noWindowChrome" (pure noWindowChrome) 10
    (template [S "Window chrome detected (outer: "; V outerWidth; S "x"; V outerHeight;
               S ", inner: "; V innerWidth; S "x"; V innerHeight; S ")"])
    (str "innerWidth/Height equals outerWidth/Height (no browser chrome)")
    "screen" ;;
  call "noNotifications" (pure (negb (feature "notifications"))) 5
    (str "Notification API available")
    (str "Notification API not available")
    "browser-features" ;;
  call "noWebRTC" (pure (negb (feature "webRTC"))) 8
    (str "WebRTC available")
    (str "WebRTC not available")
    "browser-features" ;;
  call "noIndexedDB" (pure (negb (feature "indexedDB"))) 8
    (str "IndexedDB available")
    (str "IndexedDB not available")
    "browser-features" ;;
  call "noLocalStorage" (pure (negb (feature "localStorage"))) 10
    (str "localStorage available")
    (str "localStorage not available")
    "browser-features" ;;
  call "noSessionStorage" (pure (negb (feature "sessionStorage"))) 10
    (str "sessionStorage available")
    (str "sessionStorage not available")
    "browser-features".

(** *** Weak signals (lines 684-845) *)

(** [x === 0] for the result of [+] *)
Definition prim_is_zero (p : prim) : bool :=
  match p with
  | PrNumber x => PrimFloat.eqb x PrimFloat.zero
  | _ => false
  end.

Definition weak : M unit :=
  let hasBattery :=
    ToBoolean browserData?."battery" && negb (ToBoolean browserData?."battery"?."error") in
  call "noBattery" (pure (negb hasBattery)) 2
    (str "Battery API available")
    (str "Battery API not available")
    "browser-features" ;;
  let hasMediaDevices :=
    ToBoolean browserData?."mediaDevices"
    && negb (ToBoolean browserData?."mediaDevices"?."error") in
  call "noMediaDevices" (pure (negb hasMediaDevices)) 5
    (str "Media devices API available")
    (str "Media devices not available")
    "browser-features" ;;
  when hasMediaDevices
    (let* audioinput :=
       ToPrimitive (or browserData?."mediaDevices"?."audioinput" (VNum PrimFloat.zero)) in
     let* audiooutput :=
       ToPrimitive (or browserData?."mediaDevices"?."audiooutput" (VNum PrimFloat.zero)) in
     let* videoinput :=
       ToPrimitive (or browserData?."mediaDevices"?."videoinput" (VNum PrimFloat.zero)) in
     let totalDevices := add (add audioinput audiooutput) videoinput in
     call "zeroMediaDevices" (pure (prim_is_zero totalDevices)) 8
       (template [T (prim_text totalDevices); S " media devices detected"])
       (str "Zero media devices detected")
       "browser-features") ;;
  when isMobileUA
    (call "mobileNoTouch"
       (pure (strict_eq browserData?."touch"?."maxTouchPoints" (VNum PrimFloat.zero))) 15
       (template [S "Touch support: "; V browserData?."touch"?."maxTouchPoints";
                  S " touch points"])
       (str "Mobile UA but no touch support")
       "consistency") ;;
  when (negb isMobileUA)
    (let* touchMismatch :=
       c_and (gt_num browserData?."touch"?."maxTouchPoints" PrimFloat.zero)
             (pure (negb (ToBoolean browserData?."touch"?."touchEvent"))) in
     call "desktopTouchMismatch" (pure touchMismatch) 5
       (str "Touch configuration consistent")
       (str "Desktop UA with touch points but no touch events")
       "consistency") ;;
  let voiceCount := or browserData?."speechVoices"?."count" (VNum PrimFloat.zero) in
  call "noSpeechVoices" (pure (strict_eq voiceCount (VNum PrimFloat.zero))) 3
    (template [V voiceCount; S " speech voices available"])
    (str "No speech synthesis voices")
    "browser-features" ;;
  when isChrome
    (call "noConnectionAPI" (pure (negb (ToBoolean browserData?."connection"))) 5
       (str "Network Information API available")
       (str "Network Information API not available in Chrome")
       "browser-features") ;;
  let fontsCount := or browserData?."fonts"?."length" (VNum PrimFloat.zero) in
  call "noFonts" (pure (strict_eq fontsCount (VNum PrimFloat.zero))) 10
    (template [V fontsCount; S " fonts detected"])
    (str "No fonts detected")
    "browser-features" ;;
  call "fewFonts"
    (c_and (gt_num fontsCount PrimFloat.zero) (lt_num fontsCount (of_Z 5))) 5
    (template [V fontsCount; S " fonts detected"])
    (template [S "Only "; V fontsCount; S " fonts detected (minimal)"])
    "browser-features" ;;
  let hasCanvas :=
    ToBoolean browserData?."canvas"?."hash"
    && negb (ToBoolean browserData?."canvas"?."error") in
  call "noCanvasHash" (pure (negb hasCanvas)) 8
    (str "Canvas fingerprint available")
    (str "Canvas fingerprint unavailable")
    "browser-features" ;;
  call "audioError" (pure (ToBoolean browserData?."audio"?."error")) 5
    (str "Audio context working")
    (str "Audio context error")
    "browser-features" ;;
  when isChrome
    (call "noPerformanceMemory"
       (pure (negb (ToBoolean browserData?."performance"?."jsHeapSizeLimit"))) 5
       (str "performance.memory available")
       (str "performance.memory not available in Chrome")
       "browser-features") ;;
  call "documentHidden" (pure (strict_eq browserData?."document"?."hidden" (VBool true))) 8
    (str "Document visible during fingerprinting")
    (str "Document was hidden during fingerprinting")
    "browser-features" ;;
  let dpr := browserData?."screen"?."devicePixelRatio" in
  let unusualDPR :=
    c_and (pure (ToBoolean dpr))
          (c_or (lt_num dpr 0.5%float) (gt_num dpr (of_Z 4))) in
  call "unusualDPR" unusualDPR 5
    (template [S "devicePixelRatio: "; V dpr])
    (template [S "Unusual devicePixelRatio: "; V dpr])
    "screen" ;;
  let colorDepth := browserData?."screen"?."colorDepth" in
  call "lowColorDepth" (c_and (pure (ToBoolean colorDepth)) (lt_num colorDepth (of_Z 24))) 5
    (template [S "Color depth: "; V colorDepth])
    (template [S "Low color depth: "; V colorDepth])
    "screen" ;;
  let navInconsistent :=
    strict_eq browserData?."navigator"?."appName" (VStr "Netscape")
    && negb (strict_eq browserData?."navigator"?."product" (VStr "Gecko")) in
  call "navigatorInconsistency" (pure navInconsistent) 5
    (str "Navigator properties consistent")
    (str "Navigator properties inconsistent")
    "consistency" ;;
  call "noGamepadAPI" (pure (negb (ToBoolean browserData?."gamepads"?."supported"))) 2
    (str "Gamepad API supported")
    (str "Gamepad API not supported")
    "browser-features" ;;
  call "keyboardAPIError" (pure (ToBoolean browserData?."keyboard"?."error")) 5
    (str "Keyboard API working")
    (str "Keyboard API error (possible automation)")
    "browser-features" ;;
  call "noServiceWorker" (pure (negb (feature "serviceWorker"))) 3
    (str "Service Worker supported")
    (str "Service Worker not supported")
    "browser-features" ;;
  call "noWebAssembly" (pure (negb (feature "WebAssembly"))) 5
    (str "WebAssembly supported")
    (str "WebAssembly not supported")
    "browser-features" ;;
  call "noBluetooth" (pure (negb (feature "bluetooth"))) 2
    (str "Bluetooth API available")
    (str "Bluetooth API not available")
    "browser-features" ;;
  call "noUSB" (pure (negb (feature "usb"))) 2
    (str "USB API available")
    (str "USB API not available")
    "browser-features" ;;
  call "noCredentials" (pure (negb (feature "credentials"))) 3
    (str "Credentials API available")
    (str "Credentials API not available")
    "browser-features".

(** *** Header-based signals (lines 847-911) *)

Definition header_based : M unit :=
  call "noAcceptLanguage" (pure (missing headers "accept-language")) 10
    (str "Accept-Language header present")
    (str "Accept-Language header missing")
    "headers" ;;
  call "noAcceptHeader" (pure (missing headers "accept")) 5
    (str "Accept header present")
    (str "Accept header missing")
    "headers" ;;
  let headerUALower := toLowerCase headerUA in
  let matchedBotPattern := List.find (fun p => includes headerUALower p) botPatterns in
  call "botUserAgent" (pure (bool_decide (is_Some matchedBotPattern))) 25
    (str "User-Agent appears legitimate")
    (template [S "Bot-like User-Agent pattern: "; T (found_text matchedBotPattern)])
    "headers" ;;
  call "shortUserAgent" (pure (String.length headerUA <? 20)%nat) 15
    (template [S "User-Agent length: "; V (VNum (of_nat (String.length headerUA)));
               S " chars"])
    (template [S "User-Agent too short: "; V (VNum (of_nat (String.length headerUA)));
               S " chars"])
    "headers" ;;
  let hasSecFetch :=
    negb (missing headers "sec-fetch-dest") || negb (missing headers "sec-fetch-mode") in
  call "noSecFetch" (pure (negb hasSecFetch)) 8
    (str "Sec-Fetch headers present")
    (str "Sec-Fetch headers missing")
    "headers" ;;
  when isChrome
    (call "noSecChUa" (pure (missing headers "sec-ch-ua")) 8
       (str "Sec-CH-UA header present")
       (str "Sec-CH-UA header missing in Chrome")
       "headers") ;;
  call "noConnectionHeader" (pure (missing headers "connection")) 3
    (str "Connection header present")
    (str "Connection header missing")
    "headers" ;;
  call "noCacheControl" (pure (missing headers "cache-control")) 2
    (str "Cache-Control header present")
    (str "Cache-Control header missing")
    "headers".

(** *** Consistency checks (lines 913-1004) *)

(** [reason || fallback] on the strings the mismatch branches set *)
Definition reason_or (reason fallback : string) : completion text :=
  str (if String.eqb reason "" then fallback else reason).

Definition consistency : M unit :=
  let uaMismatch :=
    negb (String.eqb headerUA "") && ToBoolean browserData?."navigator"?."userAgent"
    && negb (strict_eq (VStr headerUA) browserData?."navigator"?."userAgent") in
  call "uaMismatch" (pure uaMismatch) 20
    (str "User-Agent header matches navigator.userAgent")
    (str "User-Agent header differs from navigator.userAgent")
    "consistency" ;;
  let acceptLanguage := header headers "accept-language" in
  let navigatorLanguage := or browserData?."navigator"?."language" (VStr "") in
  let* langMismatch :=
    if negb (String.eqb acceptLanguage "") && ToBoolean navigatorLanguage then
      let headerLang := toLowerCase (before "-" (before "," acceptLanguage)) in
      do receiver <- string_receiver navigatorLanguage;
      let navLang := toLowerCase (before "-" receiver) in
      Normal (negb (String.eqb headerLang navLang))
    else Normal false in
  call "languageMismatch" (pure langMismatch) 10
    (str "Accept-Language matches navigator.language")
    (str "Accept-Language differs from navigator.language")
    "consistency" ;;
  let '(platformMismatch, platformMismatchReason) :=
    if includes userAgent "Windows" && negb (includes platformLower "win") then
      (true, "UA says Windows but platform differs")
    else if includes userAgent "Mac" && negb (includes platformLower "mac") then
      (true, "UA says Mac but platform differs")
    else if includes userAgent "Linux" && negb (includes platformLower "linux")
            && negb isMobileUA then
      (true, "UA says Linux but platform differs")
    else (false, "") in
  call "platformMismatch" (pure platformMismatch) 15
    (template [S "Platform consistent: "; S platform])
    (reason_or platformMismatchReason "Platform mismatch detected")
    "consistency" ;;
  let timezone := or browserData?."timezone"?."timezone" (VStr "") in
  let timezoneOffset := browserData?."timezone"?."offset" in
  let* tzInconsistent :=
    if ToBoolean timezone && negb (strict_eq timezoneOffset VUndef) then
      c_or (c_and (includes_method timezone "America/") (lt_num timezoneOffset PrimFloat.zero))
           (c_and (includes_method timezone "Europe/") (gt_num timezoneOffset (of_Z 60)))
    else Normal false in
  call "timezoneInconsistent" (pure tzInconsistent) 10
    (template [S "Timezone consistent: "; V timezone; S " (offset: "; V timezoneOffset; S ")"])
    (str "Timezone name and offset inconsistent")
    "consistency" ;;
  let* clientHintsMismatch :=
    if ToBoolean browserData?."userAgentData"?."platform"
       && ToBoolean browserData?."navigator"?."platform" then
      do receiver <- string_receiver browserData?."userAgentData"?."platform";
      let uadPlatform := toLowerCase receiver in
      Normal (includes platformLower "win" && negb (includes uadPlatform "win"))
    else Normal false in
  call "clientHintsMismatch" (pure clientHintsMismatch) 15
    (str "Client Hints consistent with navigator")
    (str "Client Hints platform differs from navigator.platform")
    "consistency" ;;
  let safari_branch : completion (bool * string) :=
    do apple <- c_and (pure isSafari) (c_not (includes_method vendor "Apple"));
    Normal (if apple then (true, "Safari UA but vendor not Apple") else (false, "")) in
  let* vendorMismatch :=
    do google <- c_and (pure isChrome) (c_not (includes_method vendor "Google"));
    if google then Normal (true, "Chrome UA but vendor not Google") else safari_branch in
  call "vendorMismatch" (pure (fst vendorMismatch)) 10
    (template [S "Vendor consistent: "; V vendor])
    (reason_or (snd vendorMismatch) "Vendor mismatch")
    "consistency" ;;
  let productValue := browserData?."navigator"?."product" in
  call "productInconsistent" (pure (negb (strict_eq productValue (VStr "Gecko")))) 3
    (str "navigator.product is Gecko")
    (template [S "navigator.product is "; V productValue; S ", expected Gecko"])
    "consistency".

(** *** Timing, math fingerprint and WebGL2 signals (lines 1006-1041) *)

Definition expectedAcos : float := 1.0471975511965979%float.

Definition load_time_text (loadTime : option float) : text :=
  match loadTime with
  | None => lit "null"
  | Some d => [PNum d]
  end.

Definition timing : M unit :=
  let perfTiming := browserData?."performance" in
  let* loadTime :=
    if ToBoolean perfTiming?."navigationStart" && ToBoolean perfTiming?."loadEventEnd" then
      do d <- sub perfTiming?."loadEventEnd" perfTiming?."navigationStart"; Normal (Some d)
    else Normal None in
  let negative :=
    match loadTime with
    | Some d => PrimFloat.ltb d PrimFloat.zero
    | None => false
    end in
  call "negativeLoadTime" (pure negative) 20
    (template [S "Page load time: "; T (load_time_text loadTime); S "ms"])
    (str "Negative page load time (timing manipulation)")
    "timing" ;;
  let zero :=
    match loadTime with
    | Some d => PrimFloat.eqb d PrimFloat.zero
    | None => false
    end in
  call "zeroLoadTime" (pure zero) 15
    (template [S "Page load time: "; T (load_time_text loadTime); S "ms"])
    (str "Zero page load time")
    "timing".

Definition fingerprint : M unit :=
  let mathAcos := browserData?."math"?."acos" in
  let mathSuspicious :=
    c_and (pure (ToBoolean mathAcos))
      (do d <- sub mathAcos (VNum expectedAcos);
       Normal (PrimFloat.ltb 0.0000001%float (PrimFloat.abs d))) in
  call "mathInconsistent" mathSuspicious 10
    (str "Math functions consistent")
    (str "Math function results inconsistent (possible spoofing)")
    "fingerprint".

Definition webgl2 : M unit :=
  let hasWebGL2 :=
    ToBoolean browserData?."webgl2" && negb (ToBoolean browserData?."webgl2"?."error") in
  call "noWebGL2" (pure (negb hasWebGL2 && isChrome)) 3
    (str "WebGL2 available")
    (str "WebGL2 not available")
    "webgl".

(** The [addSignal] calls of the whole body, in source order. *)
Definition rules : M unit :=
  critical ;; essential ;; strong ;; medium ;; weak ;; header_based ;; consistency ;;
  timing ;; fingerprint ;; webgl2.

End Body.

(** [signalsByCategory]: an object filled in the order of the signals, a
    category's key appearing when its first signal does. *)
Fixpoint push_category (cat : string) (signal : Signal.t)
    (byCategory : list (string * list Signal.t)) : list (string * list Signal.t) :=
  match byCategory with
  | [] => [(cat, [signal])]
  | (c, l) :: rest =>
      if String.eqb c cat then (c, (l ++ [signal])%list) :: rest
      else (c, l) :: push_category cat signal rest
  end.

Definition category_or_general (signal : Signal.t) : string :=
  match Signal.category signal with
  | Some c => if String.eqb c "" then "general" else c
  | None => "general"
  end.

Definition groupByCategory (signals : list Signal.t) : list (string * list Signal.t) :=
  fold_left (fun byCategory signal => push_category (category_or_general signal) signal byCategory)
    signals [].

(** [userAgent] is [browserData?.navigator?.userAgent || '']; it receives
    [.includes] (line 460), a regular-expression test (line 463) and, on
    every path, [.toLowerCase()] (line 581).  A truthy value that is not a
    string makes one of these throw (an array at [.toLowerCase()], anything
    else at [.includes]) and nothing is returned in between: the rules run
    for a string only.  [platform] receives [.toLowerCase()] at once (line
    465). *)
Definition analyzeBotSignals (browserData : value) (headers : gmap string string)
  : completion Verdict.t :=
  do userAgent <- string_receiver (or browserData?."navigator"?."userAgent" (VStr ""));
  do platform <- string_receiver (or browserData?."navigator"?."platform" (VStr ""));
  do r <- rules browserData headers userAgent platform acc0;
  let a := snd r in
  let maxScore := 100 in
  let normalizedScore := Z.min (score a) maxScore in
  let verdict :=
    if 50 <=? normalizedScore then "bot"
    else if 25 <=? normalizedScore then "suspicious"
    else "human" in
  Normal
    {| Verdict.verdict := verdict;
       Verdict.score := normalizedScore;
       Verdict.maxScore := maxScore;
       Verdict.code := None;
       Verdict.confidence :=
         if 50 <=? normalizedScore then "high"
         else if 25 <=? normalizedScore then "medium"
         else "low";
       Verdict.reason := None;
       Verdict.signals := filter (fun s => Signal.detected s = true) (signals a);
       Verdict.allSignals := signals a;
       Verdict.signalsByCategory := Some (groupByCategory (signals a));
       Verdict.summary :=
         {| Summary.totalChecks := len (signals a);
            Summary.flagged := len (filter (fun s => Signal.detected s = true) (signals a));
            Summary.passed := len (filter (fun s => Signal.detected s = false) (signals a)) |} |}.

End SignalEvaluator.

(** ** Process state: visits, timers, challenges, console *)

Module Visit.
(** An entry of [pageVisits].  [id] is the identity of the object (no
    field of the source): the number of the timer armed when it was
    created, which no other entry shares. *)
Record t : Type := mk {
  id : nat;
  timestamp : Z;
  completed : bool;
  botApiCalled : bool;
  timeoutId : option nat;
  finalVerdict : option Verdict.t;
}.
End Visit.

Module Challenge.
Record t : Type := mk {
  expectedAnswer : Z;
  timestamp : Z;
  ip : string;
}.
End Challenge.

(** What [getVisitVerdict] returns: the frozen verdict, or a short object
    [{verdict, code?, reason}]. *)
Inductive status : Type :=
| Final (v : Verdict.t)
| Short (verdict : string) (code : option Z) (reason : text).

(** The two objects [/api/challenge/verify] answers with. *)
Inductive verification : Type :=
| NotFound (valid : bool) (reason : string)
| Checked (valid : bool) (timingValid : value) (executionTime : value) (solveTime : Z).

(** Lines written with [console.log] (the timestamp field is left out). *)
Inductive line : Type :=
| BotVerdict (ip : string) (reason : string) (botApiCalled challengeCompleted : bool)
| HeaderAnalysis (ip : string) (verdict : string) (score : option Z) (flaggedSignals : list string)
| ChallengeVerify (ip : string) (challengeId : value) (result : verification)
| BotAnalysis (ip : string) (verdict : string) (score : Z) (code : option Z)
    (reason : option string) (flaggedSignals : list string)
| VisitStatus (ip : string) (answer : status)
| VisitMetrics (ip : string) (browserData : value).

Record state : Type := mkState {
  pageVisits : gmap string Visit.t;
  challenges : gmap string Challenge.t;
  (** pending timers: the [ip] each callback closes over *)
  timers : gmap nat string;
  nextTimer : nat;
  console : list line;
}.

Definition initial : state := mkState ∅ ∅ ∅ 0 [].

Record request : Type := mkRequest {
  headers : gmap string string;
  remoteAddress : option string;
  body : value;
}.

Definition getClientIp (req : request) : string :=
  let remote :=
    match remoteAddress req with
    | Some r => if String.eqb r "" then "unknown" else r
    | None => "unknown"
    end in
  match headers req !! "x-forwarded-for" with
  | Some forwardedFor =>
      let first := trim (before "," forwardedFor) in
      if String.eqb first "" then remote else first
  | None => remote
  end.

(** ** The visit tracker *)

Definition VISIT_TTL : Z := 5000.

Definition set_visits (f : gmap string Visit.t -> gmap string Visit.t) (st : state) : state :=
  mkState (f (pageVisits st)) (challenges st) (timers st) (nextTimer st) (console st).

Definition clearTimeout (timeoutId : option nat) (pending : gmap nat string) : gmap nat string :=
  match timeoutId with
  | Some t => delete t pending
  | None => pending
  end.

Definition noJsExecution (reason : string) : Signal.t :=
  Signal.mk "noJsExecution" true 100 (lit reason) (Some "automation").

Definition timeoutVerdict (reason : string) : Verdict.t :=
  {| Verdict.verdict := "bot";
     Verdict.score := 100;
     Verdict.maxScore := 100;
     Verdict.code := Some 1006;
     Verdict.confidence := "high";
     Verdict.reason := Some (lit reason);
     Verdict.signals := [noJsExecution reason];
     Verdict.allSignals := [noJsExecution reason];
     Verdict.signalsByCategory := Some [("automation", [noJsExecution reason])];
     Verdict.summary := Summary.mk 1 1 0 |}.

Definition deliverBotVerdict (ip reason : string) (st : state) : state :=
  match pageVisits st !! ip with
  | None => st
  | Some visit =>
      if Visit.completed visit then st
      else
        let printed :=
          BotVerdict ip reason (Visit.botApiCalled visit) (Visit.completed visit) in
        let visit' :=
          Visit.mk (Visit.id visit) (Visit.timestamp visit) true (Visit.botApiCalled visit)
            (Visit.timeoutId visit) (Some (timeoutVerdict reason)) in
        mkState (<[ip := visit']> (pageVisits st)) (challenges st) (timers st) (nextTimer st)
          (console st ++ [printed])
  end.

(** The callback [trackPageVisit] hands to [setTimeout]. *)
Definition onTimeout (ip : string) (st : state) : state :=
  match pageVisits st !! ip with
  | Some visit =>
      if negb (Visit.botApiCalled visit) then
        deliverBotVerdict ip
          "Fetched page but never called /api/bot within 5 seconds (no JS execution)" st
      else st
  | None => st
  end.

(** [Date.now() - visit.timestamp > 60000] *)
Definition expired (now : Z) (visit : Visit.t) : bool := 60000 <? now - Visit.timestamp visit.

Definition trackPageVisit (ip : string) (now : Z) (st : state) : state :=
  let pending :=
    match pageVisits st !! ip with
    | Some existingVisit => clearTimeout (Visit.timeoutId existingVisit) (timers st)
    | None => timers st
    end in
  let timeoutId := nextTimer st in
  let pending := <[timeoutId := ip]> pending in
  let visits : gmap string Visit.t :=
    <[ip := Visit.mk timeoutId now false false (Some timeoutId) None]> (pageVisits st) in
  let old : gmap string Visit.t :=
    filter (fun entry : string * Visit.t => expired now entry.2 = true) visits in
  let pending := map_fold (fun _ visit p => clearTimeout (Visit.timeoutId visit) p) pending old in
  let visits : gmap string Visit.t :=
    filter (fun entry : string * Visit.t => expired now entry.2 = false) visits in
  mkState visits (challenges st) pending (Datatypes.S timeoutId) (console st).

Definition markBotApiCalled (ip : string) (st : state) : state :=
  match pageVisits st !! ip with
  | Some visit =>
      let visit' :=
        Visit.mk (Visit.id visit) (Visit.timestamp visit) (Visit.completed visit) true
          None (Visit.finalVerdict visit) in
      mkState (<[ip := visit']> (pageVisits st)) (challenges st)
        (clearTimeout (Visit.timeoutId visit) (timers st)) (nextTimer st) (console st)
  | None => st
  end.

Definition markVisitComplete (ip : string) (st : state) : state :=
  match pageVisits st !! ip with
  | Some visit =>
      let visit' :=
        Visit.mk (Visit.id visit) (Visit.timestamp visit) true (Visit.botApiCalled visit)
          (Visit.timeoutId visit) (Visit.finalVerdict visit) in
      set_visits (insert ip visit') st
  | None => st
  end.

(** [Math.round((VISIT_TTL - elapsed) / 1000)]: halves round up. *)
Definition seconds_remaining (elapsed : Z) : Z := (VISIT_TTL - elapsed + 500) / 1000.

Definition getVisitVerdict (ip : string) (now : Z) (st : state) : status :=
  match pageVisits st !! ip with
  | None => Short "unknown" None (lit "No visit tracked for this IP")
  | Some visit =>
      match Visit.finalVerdict visit with
      | Some final => Final final
      | None =>
          let elapsed := now - Visit.timestamp visit in
          if Visit.completed visit && Visit.botApiCalled visit then
            Short "pending-analysis" None (lit "Visit complete, awaiting full analysis")
          else if negb (Visit.botApiCalled visit) then
            if VISIT_TTL <? elapsed then
              Short "bot" (Some 1006) (lit "Never called /api/bot - no JS execution")
            else
              Short "pending" None
                [PStr "Waiting for /api/bot call ("; PNum (of_Z (seconds_remaining elapsed));
                 PStr "s remaining)"]
          else Short "pending" None (lit "Bot API called, awaiting completion")
      end
  end.

(** ** The challenge store *)

Definition CHALLENGE_TTL : Z := 60000.

Inductive operation : Type := Plus | Times | Minus.

Definition operator (op : operation) : string :=
  match op with
  | Plus => "+"
  | Times => "*"
  | Minus => "-"
  end.

Record issued : Type := mkIssued {
  challengeId : string;
  challenge : text;
  timingChallenge : Z;
}.

Definition set_challenges (f : gmap string Challenge.t -> gmap string Challenge.t)
    (st : state) : state :=
  mkState (pageVisits st) (f (challenges st)) (timers st) (nextTimer st) (console st).

Definition print (l : line) (st : state) : state :=
  mkState (pageVisits st) (challenges st) (timers st) (nextTimer st) (console st ++ [l]).

(** [GET /api/challenge].  [id], [a], [b] and [op] are what the four calls
    of [Math.random()] produce. *)
Definition get_challenge (req : request) (now : Z) (id : string) (a b : Z) (op : operation)
    (st : state) : issued * state :=
  let timestamp := now in
  let expectedAnswer :=
    match op with
    | Plus => a + b
    | Times => a * b
    | Minus => a - b
    end in
  let stored : gmap string Challenge.t :=
    <[id := Challenge.mk expectedAnswer timestamp (getClientIp req)]> (challenges st) in
  let kept : gmap string Challenge.t :=
    filter (fun entry : string * Challenge.t =>
              (CHALLENGE_TTL <? now - Challenge.timestamp entry.2) = false) stored in
  (mkIssued id
     [PStr "(function() { return "; PNum (of_Z a); PStr " "; PStr (operator op); PStr " ";
      PNum (of_Z b); PStr "; })()"]
     timestamp,
   set_challenges (fun _ => kept) st).

(** [challenges.get(challengeId)]: the keys are strings, so only a string
    finds an entry. *)
Definition find_challenge (challengeId : value) (st : state) : option Challenge.t :=
  match challengeId with
  | VStr id => challenges st !! id
  | _ => None
  end.

Definition forget_challenge (challengeId : value) (st : state) : state :=
  match challengeId with
  | VStr id => set_challenges (delete id) st
  | _ => st
  end.

(** [POST /api/challenge/verify].  Destructuring a body that is [undefined]
    or [null] throws; so does the arithmetic on a value that has no
    primitive.  Nothing has been written when either happens. *)
Definition post_verify (req : request) (now : Z) (st : state)
  : completion verification * state :=
  match body req with
  | VUndef | VNull => (Throw, st)
  | data =>
      let challengeId := data?."challengeId" in
      let answer := data?."answer" in
      let timingProof := data?."timingProof" in
      let executionTime := data?."executionTime" in
      match find_challenge challengeId st with
      | None => (Normal (NotFound false "Challenge not found or expired"), st)
      | Some challenge =>
          let isCorrect := strict_eq answer (VNum (of_Z (Challenge.expectedAnswer challenge))) in
          let timeDiff := now - Challenge.timestamp challenge in
          let timingValid : completion value :=
            if ToBoolean timingProof then
              do d <- JS.sub timingProof (VNum (of_Z (Challenge.timestamp challenge)));
              if PrimFloat.ltb (PrimFloat.abs d) (of_Z 1000) then
                do positive <- gt_num executionTime PrimFloat.zero;
                if positive then
                  do quick <- lt_num executionTime (of_Z 5000); Normal (VBool quick)
                else Normal (VBool false)
              else Normal (VBool false)
            else Normal timingProof in
          match timingValid with
          | Throw => (Throw, st)
          | Normal timingValid =>
              let st := forget_challenge challengeId st in
              let result := Checked isCorrect timingValid executionTime timeDiff in
              let st := print (ChallengeVerify (getClientIp req) challengeId result) st in
              (Normal result, st)
          end
      end
  end.

(** ** Middleware and the remaining routes *)

(** The middleware on a request it classifies as a document request. *)
Definition document_request (req : request) (now : Z) (st : state) : state :=
  let st := trackPageVisit (getClientIp req) now st in
  print (HeaderAnalysis (getClientIp req) "pending" None []) st.

(** The middleware on any other request that is neither for a static asset
    nor for [/api/bot]: the Header Evaluator runs, for the log only. *)
Definition log_header_analysis (req : request) (st : state) : state :=
  let analysis := HeaderEvaluator.analyzeHeadersOnly (headers req) in
  print (HeaderAnalysis (getClientIp req) (Verdict.verdict analysis)
           (Some (Verdict.score analysis)) (map Signal.name (Verdict.signals analysis))) st.

(** [POST /api/visit], behind the middleware. *)
Definition post_visit (req : request) (st : state) : state :=
  let st := log_header_analysis req st in
  print (VisitMetrics (getClientIp req) (nullish (body req) (VObj []))) st.

(** [GET /api/visit-status], behind the middleware. *)
Definition get_visit_status (req : request) (now : Z) (st : state) : status * state :=
  let st := log_header_analysis req st in
  let ip := getClientIp req in
  let verdict := getVisitVerdict ip now st in
  (verdict, print (VisitStatus ip verdict) st).

Definition jsExecutionFailed (reason : string) : Signal.t :=
  Signal.mk "jsExecutionFailed" true 100 (lit reason) (Some "automation").

(** The object the early rejection answers with. *)
Definition rejection (reason : string) : Verdict.t :=
  {| Verdict.verdict := "bot";
     Verdict.score := 100;
     Verdict.maxScore := 100;
     Verdict.code := Some 1005;
     Verdict.confidence := "high";
     Verdict.reason := Some (lit reason);
     Verdict.signals := [jsExecutionFailed reason];
     Verdict.allSignals := [jsExecutionFailed reason];
     Verdict.signalsByCategory := Some [("automation", [jsExecutionFailed reason])];
     Verdict.summary := Summary.mk 1 1 0 |}.

(** [browserData?.screen?.width > 0 && browserData?.navigator?.userAgent
    && browserData?.window], as a truth value. *)
Definition hasEssentialData (browserData : value) : completion bool :=
  do wide <- gt_num browserData?."screen"?."width" PrimFloat.zero;
  Normal (wide && ToBoolean browserData?."navigator"?."userAgent"
          && ToBoolean browserData?."window").

Definition hasJsChallenge (browserData : value) : bool :=
  strict_eq browserData?."jsChallenge"?."valid" (VBool true).

(** [POST /api/bot].  The handler is written over the evaluator it calls:
    [post_bot] below is the route. *)
Definition bot_handler (analyze : value -> gmap string string -> completion Verdict.t)
    (req : request) (st : state) : completion Verdict.t * state :=
  let browserData := nullish (body req) (VObj []) in
  let ip := getClientIp req in
  let st := markBotApiCalled ip st in
  match hasEssentialData browserData with
  | Throw => (Throw, st)
  | Normal essential =>
      if negb essential || negb (hasJsChallenge browserData) then
        let reason :=
          if negb essential then "Missing essential browser data (no JS execution)"
          else "JS challenge not completed or failed" in
        let st := print (BotAnalysis ip "bot" 100 (Some 1005) (Some reason) []) st in
        (Normal (rejection reason), st)
      else
        match analyze browserData (headers req) with
        | Throw => (Throw, st)
        | Normal analysis =>
            let st := markVisitComplete ip st in
            let st :=
              print (BotAnalysis ip (Verdict.verdict analysis) (Verdict.score analysis) None
                       None (map Signal.name (Verdict.signals analysis))) st in
            (Normal analysis, st)
        end
  end.

Definition post_bot : request -> state -> completion Verdict.t * state :=
  bot_handler SignalEvaluator.analyzeBotSignals.

(** ** The process as a transition system *)

Inductive event : Type :=
| Document (req : request) (now : Z)
| GetChallenge (req : request) (now : Z) (id : string) (a b : Z) (op : operation)
| PostVerify (req : request) (now : Z)
| PostBot (req : request)
| GetVisitStatus (req : request) (now : Z)
| PostVisit (req : request)
| Other (req : request)
| Fire (timeoutId : nat).

(** Node runs the callback of a pending timer once; a timer that was
    cleared, or has run, is not pending. *)
Definition fire (timeoutId : nat) (st : state) : state :=
  match timers st !! timeoutId with
  | Some ip =>
      onTimeout ip
        (mkState (pageVisits st) (challenges st) (delete timeoutId (timers st))
           (nextTimer st) (console st))
  | None => st
  end.

Definition step (st : state) (e : event) : state :=
  match e with
  | Document req now => document_request req now st
  | GetChallenge req now id a b op => (get_challenge req now id a b op st).2
  | PostVerify req now => (post_verify req now st).2
  | PostBot req => (post_bot req st).2
  | GetVisitStatus req now => (get_visit_status req now st).2
  | PostVisit req => post_visit req st
  | Other req => log_header_analysis req st
  | Fire timeoutId => fire timeoutId st
  end.

Definition run (st : state) (trace : list event) : state := fold_left step trace st.

Definition reachable (st : state) : Prop := exists trace, st = run initial trace.

(** ** Vocabulary of the statements *)

(** The sum of the weights of the detected signals of a list. *)
Definition detected_weight (l : list Signal.t) : Z :=
  foldr (fun s total => if Signal.detected s then Signal.weight s + total else total) 0 l.

Definition threshold_verdict (score : Z) : string :=
  if 50 <=? score then "bot" else if 25 <=? score then "suspicious" else "human".

Definition threshold_confidence (score : Z) : string :=
  if 50 <=? score then "high" else if 25 <=? score then "medium" else "low".

(** What the final assembly promises of a verdict. *)
Definition scored (v : Verdict.t) : Prop :=
  Verdict.score v = Z.min 100 (detected_weight (Verdict.allSignals v))
  /\ Verdict.signals v = filter (fun s => Signal.detected s = true) (Verdict.allSignals v)
  /\ Verdict.verdict v = threshold_verdict (Verdict.score v)
  /\ Verdict.confidence v = threshold_confidence (Verdict.score v).

(** The accumulator of an [addSignal] closure agrees with its list. *)
Definition consistent (a : acc) : Prop := score a = detected_weight (signals a).

Definition named (name : string) (l : list Signal.t) : option Signal.t :=
  List.find (fun s => String.eqb (Signal.name s) name) l.

Definition briefly (l : list Signal.t) : list (string * Z) :=
  map (fun s => (Signal.name s, Signal.weight s)) l.

(** A value [ToNumber] converts without calling a method. *)
Definition primitive (v : value) : bool :=
  match v with
  | VArr _ | VObj _ => false
  | _ => true
  end.

(** *** Sample requests and states *)

Definition visitor : string := "203.0.113.7".

Definition noon : Z := 1700000000000.

(** A browser navigating to the page. *)
Definition navigation : request :=
  mkRequest {[ "user-agent" := "Mozilla/5.0 (X11; Linux x86_64) Firefox/121.0";
               "accept" := "text/html" ]} (Some visitor) VUndef.

Definition json (data : value) : request :=
  mkRequest {[ "content-type" := "application/json" ]} (Some visitor) data.

(** The challenge [7 + 13], issued at noon under the id ["k3j9x0q2mzp"]. *)
Definition issued_at_noon : state :=
  (get_challenge navigation noon "k3j9x0q2mzp" 7 13 Plus initial).2.

Definition solution (answer : Z) : request :=
  json (VObj [("challengeId", VStr "k3j9x0q2mzp"); ("answer", VNum (of_Z answer));
              ("timingProof", VNum (of_Z noon)); ("executionTime", VNum (of_Z 15))]).

(** The page was fetched at noon. *)
Definition fetched_at_noon : state := run initial [Document navigation noon].

(** What a Firefox on Linux submits, with the challenge outcome given. *)
Definition firefox (jsChallenge : value) : value :=
  VObj [("screen", VObj [("width", VNum (of_Z 1920)); ("height", VNum (of_Z 1080));
                         ("colorDepth", VNum (of_Z 24));
                         ("devicePixelRatio", VNum (of_Z 1))]);
        ("window", VObj [("innerWidth", VNum (of_Z 1280)); ("innerHeight", VNum (of_Z 900));
                         ("outerWidth", VNum (of_Z 1280)); ("outerHeight", VNum (of_Z 987))]);
        ("navigator",
         VObj [("userAgent", VStr "Mozilla/5.0 (X11; Linux x86_64; rv:121.0) Gecko/20100101 Firefox/121.0");
               ("language", VStr "en-US"); ("languages", VArr [VStr "en-US"; VStr "en"]);
               ("platform", VStr "Linux x86_64"); ("vendor", VStr "");
               ("product", VStr "Gecko"); ("appName", VStr "Netscape");
               ("webdriver", VBool false)]);
        ("timezone", VObj [("timezone", VStr "Europe/Stockholm"); ("offset", VNum (of_Z (-60)))]);
        ("plugins", VArr [VStr "PDF Viewer"]);
        ("jsChallenge", jsChallenge)].

Definition solved : value := VObj [("valid", VBool true); ("solveTime", VNum (of_Z 12))].

(** The same bundle, posted by HTTPie. *)
Definition httpie_headers : gmap string string :=
  {[ "user-agent" := "HTTPie/3.2.1"; "accept" := "application/json, */*;q=0.5";
     "content-type" := "application/json" ]}.

(** The patterns of the Header Evaluator's list that the Signal Evaluator's
    list lacks. *)
Definition client_patterns : list string :=
  ["httpie"; "postman"; "insomnia"; "rest-client"; "okhttp"; "apache-http"].

(** *** Sessions over time *)

(** The verdict the timer callback freezes. *)
Definition frozen : Verdict.t :=
  timeoutVerdict "Fetched page but never called /api/bot within 5 seconds (no JS execution)".

(** What holds of every tracked visit: a frozen verdict is the timeout
    verdict, and a visit is complete only after the analysis endpoint was
    called or the timeout verdict was frozen. *)
Definition settled (visit : Visit.t) : Prop :=
  (Visit.finalVerdict visit = None \/ Visit.finalVerdict visit = Some frozen)
  /\ (Visit.completed visit = true ->
      Visit.botApiCalled visit = true \/ Visit.finalVerdict visit = Some frozen).

(** A visit object after some writes: the same object, its two flags never
    reset. *)
Definition evolves (v v' : Visit.t) : Prop :=
  Visit.id v' = Visit.id v
  /\ (Visit.completed v = true -> Visit.completed v' = true)
  /\ (Visit.botApiCalled v = true -> Visit.botApiCalled v' = true).

(** One transition: every visit tracked afterwards is a visit tracked
    before, under the same address, or an object created by the
    transition. *)
Definition advances (st st' : state) : Prop :=
  (nextTimer st <= nextTimer st')%nat
  /\ forall ip v', pageVisits st' !! ip = Some v' ->
       (exists v, pageVisits st !! ip = Some v /\ evolves v v')
       \/ (nextTimer st <= Visit.id v' < nextTimer st')%nat.

Definition ids_below (st : state) : Prop :=
  forall ip v, pageVisits st !! ip = Some v -> (Visit.id v < nextTimer st)%nat.

Definition unique_ids (st : state) : Prop :=
  forall ip1 ip2 v1 v2,
    pageVisits st !! ip1 = Some v1 -> pageVisits st !! ip2 = Some v2 ->
    Visit.id v1 = Visit.id v2 -> ip1 = ip2.

Definition all_settled (st : state) : Prop :=
  forall ip v, pageVisits st !! ip = Some v -> settled v.

Definition invariant (st : state) : Prop := ids_below st /\ unique_ids st /\ all_settled st.

(** What a trace shows of a visit object: [markBotApiCalled] ran on it, or
    the timeout verdict was delivered to it (a [[bot-verdict]] line was
    printed for the address it is tracked under). *)
Inductive observation : Type :=
| Called (id : nat)
| Delivered (id : nat).

Definition printed (st st' : state) : list line :=
  drop (List.length (console st)) (console st').

Definition delivery (st : state) (l : line) : option observation :=
  match l with
  | BotVerdict ip _ _ _ => (fun v => Delivered (Visit.id v)) <$> pageVisits st !! ip
  | _ => None
  end.

Definition observe (st : state) (e : event) : list observation :=
  match e with
  | PostBot req =>
      match pageVisits st !! getClientIp req with
      | Some visit => [Called (Visit.id visit)]
      | None => []
      end
  | _ => []
  end ++ omap (delivery st) (printed st (step st e)).

Fixpoint history (st : state) (trace : list event) : list observation :=
  match trace with
  | [] => []
  | e :: rest => observe st e ++ history (step st e) rest
  end.

(** No session is open for [id] any more: the object, if still tracked, is
    complete or has seen the analysis endpoint called. *)
Definition closed_for (id : nat) (st : state) : Prop :=
  (id < nextTimer st)%nat
  /\ forall ip v, pageVisits st !! ip = Some v -> Visit.id v = id ->
       Visit.completed v = true \/ Visit.botApiCalled v = true.

(** How a visit tracked after a transition came to be what it is. *)
Inductive written (st : state) (e : event) (ip : string) (v' : Visit.t) : Prop :=
| Kept :
    pageVisits st !! ip = Some v' -> written st e ip v'
| Created (req : request) (now : Z) :
    e = Document req now -> ip = getClientIp req ->
    v' = Visit.mk (nextTimer st) now false false (Some (nextTimer st)) None ->
    written st e ip v'
| Marked (req : request) (v : Visit.t) (complete : bool) :
    e = PostBot req -> ip = getClientIp req -> pageVisits st !! ip = Some v ->
    complete = Visit.completed v \/ complete = true ->
    v' = Visit.mk (Visit.id v) (Visit.timestamp v) complete true None (Visit.finalVerdict v) ->
    written st e ip v'
| TimedOut (timeoutId : nat) (v : Visit.t) :
    e = Fire timeoutId -> timers st !! timeoutId = Some ip -> pageVisits st !! ip = Some v ->
    Visit.botApiCalled v = false -> Visit.completed v = false ->
    v' = Visit.mk (Visit.id v) (Visit.timestamp v) true false (Visit.timeoutId v) (Some frozen) ->
    written st e ip v'.

Definition is_document (e : event) : bool :=
  match e with
  | Document _ _ => true
  | _ => false
  end.

(** *** Runs of the Signal Evaluator's body *)

(** Every run of [m] that returns relates the accumulator it started from
    to the one it ends with. *)
Definition respects (R : acc -> acc -> Prop) {A} (m : SignalEvaluator.M A) : Prop :=
  forall s a s', m s = Normal (a, s') -> R s s'.

(** [m] returns from every accumulator. *)
Definition total {A} (m : SignalEvaluator.M A) : Prop :=
  forall s, exists r, m s = Normal r.

Definition returns {A} (c : completion A) : Prop := exists a, c = Normal a.

(** No object inside [v] has a property of its own named [toString]: every
    conversion of [v], and of what is read from it, finds a method. *)
Fixpoint clean (v : value) : bool :=
  match v with
  | VArr xs => forallb clean xs
  | VObj fields => object_converts fields && forallb (fun field => clean field.2) fields
  | _ => true
  end.

Definition string_or_falsy (v : value) : bool :=
  match v with
  | VStr _ => true
  | _ => negb (ToBoolean v)
  end.

(** The fields on which the body calls a string method hold a string, or
    a falsy value (which [|| ''] replaces), or are absent. *)
Definition well_typed (browserData : value) : bool :=
  forallb string_or_falsy
    [ browserData?."navigator"?."userAgent"; browserData?."navigator"?."platform";
      browserData?."navigator"?."vendor"; browserData?."navigator"?."language";
      browserData?."webgl"?."unmaskedRenderer"; browserData?."webgl"?."renderer";
      browserData?."webgl"?."unmaskedVendor"; browserData?."webgl"?."vendor";
      browserData?."timezone"?."timezone"; browserData?."userAgentData"?."platform" ].

(** The list of [s'] is the list of [s] with signals pushed at its end. *)
Definition extends (s s' : acc) : Prop := exists l, signals s' = (signals s ++ l)%list.

(** What [botPatterns.find] returns in the Signal Evaluator. *)
Definition matched_pattern (headers : gmap string string) : option string :=
  List.find (fun p => includes (toLowerCase (header headers "user-agent")) p)
    SignalEvaluator.botPatterns.

(** The [botUserAgent] signal the Signal Evaluator pushes. *)
Definition botUserAgent_signal (headers : gmap string string) : Signal.t :=
  match matched_pattern headers with
  | Some p =>
      Signal.mk "botUserAgent" true 25 [PStr "Bot-like User-Agent pattern: "; PStr p]
        (Some "headers")
  | None =>
      Signal.mk "botUserAgent" false 25 (lit "User-Agent appears legitimate") (Some "headers")
  end.

(** *** The rule tables *)

(** What identifies a rule in a pushed signal: name, weight, category. *)
Definition rule_of (s : Signal.t) : string * Z * option string :=
  (Signal.name s, Signal.weight s, Signal.category s).

(** The rules of [analyzeHeadersOnly], in source order. *)
Definition header_rule_table : list (string * Z * option string) := [
  ("noUserAgent", 30, None); ("shortUserAgent", 15, None); ("botUserAgent", 30, None);
  ("headlessUA", 25, None); ("noAcceptHeader", 10, None); ("nonBrowserAccept", 10, None);
  ("noAcceptLanguage", 15, None); ("noAcceptEncoding", 10, None); ("noSecFetch", 15, None);
  ("noSecChUa", 8, None); ("noConnection", 5, None); ("noUpgradeInsecure", 5, None)
].

(** The rules of [analyzeBotSignals], in source order. *)
Definition signal_rule_table : list (string * Z * option string) := [
  ("webdriver", 30, Some "automation"); ("phantom", 30, Some "automation");
  ("nightmare", 30, Some "automation"); ("selenium", 30, Some "automation");
  ("domAutomation", 30, Some "automation"); ("jsChallengeFailed", 35, Some "automation");
  ("jsChallengeTimingSuspicious", 10, Some "timing");
  ("noBrowserData", 50, Some "automation"); ("noScreenData", 25, Some "browser-features");
  ("noWindowData", 20, Some "browser-features");
  ("noNavigatorData", 25, Some "browser-features");
  ("noTimezoneData", 15, Some "browser-features");
  ("noPlugins", 15, Some "browser-features"); ("noLanguages", 15, Some "browser-features");
  ("missingChrome", 20, Some "consistency"); ("headlessUA", 25, Some "automation");
  ("noPermissionsAPI", 10, Some "browser-features"); ("softwareRenderer", 20, Some "webgl");
  ("noWebGLRenderer", 10, Some "webgl"); ("softwareVendor", 15, Some "webgl");
  ("noWebGLExtensions", 8, Some "webgl"); ("zeroScreenSize", 15, Some "screen");
  ("defaultScreenSize", 10, Some "screen"); ("noWindowChrome", 10, Some "screen");
  ("noNotifications", 5, Some "browser-features"); ("noWebRTC", 8, Some "browser-features");
  ("noIndexedDB", 8, Some "browser-features"); ("noLocalStorage", 10, Some "browser-features");
  ("noSessionStorage", 10, Some "browser-features"); ("noBattery", 2, Some "browser-features");
  ("noMediaDevices", 5, Some "browser-features");
  ("zeroMediaDevices", 8, Some "browser-features"); ("mobileNoTouch", 15, Some "consistency");
  ("desktopTouchMismatch", 5, Some "consistency");
  ("noSpeechVoices", 3, Some "browser-features");
  ("noConnectionAPI", 5, Some "browser-features"); ("noFonts", 10, Some "browser-features");
  ("fewFonts", 5, Some "browser-features"); ("noCanvasHash", 8, Some "browser-features");
  ("audioError", 5, Some "browser-features");
  ("noPerformanceMemory", 5, Some "browser-features");
  ("documentHidden", 8, Some "browser-features"); ("unusualDPR", 5, Some "screen");
  ("lowColorDepth", 5, Some "screen"); ("navigatorInconsistency", 5, Some "consistency");
  ("noGamepadAPI", 2, Some "browser-features");
  ("keyboardAPIError", 5, Some "browser-features");
  ("noServiceWorker", 3, Some "browser-features");
  ("noWebAssembly", 5, Some "browser-features"); ("noBluetooth", 2, Some "browser-features");
  ("noUSB", 2, Some "browser-features"); ("noCredentials", 3, Some "browser-features");
  ("noAcceptLanguage", 10, Some "headers"); ("noAcceptHeader", 5, Some "headers");
  ("botUserAgent", 25, Some "headers"); ("shortUserAgent", 15, Some "headers");
  ("noSecFetch", 8, Some "headers"); ("noSecChUa", 8, Some "headers");
  ("noConnectionHeader", 3, Some "headers"); ("noCacheControl", 2, Some "headers");
  ("uaMismatch", 20, Some "consistency"); ("languageMismatch", 10, Some "consistency");
  ("platformMismatch", 15, Some "consistency");
  ("timezoneInconsistent", 10, Some "consistency");
  ("clientHintsMismatch", 15, Some "consistency"); ("vendorMismatch", 10, Some "consistency");
  ("productInconsistent", 3, Some "consistency"); ("negativeLoadTime", 20, Some "timing");
  ("zeroLoadTime", 15, Some "timing"); ("mathInconsistent", 10, Some "fingerprint");
  ("noWebGL2", 3, Some "webgl")
].

(** The categories the Signal Evaluator uses. *)
Definition categories : list string :=
  ["automation"; "browser-features"; "screen"; "webgl"; "consistency"; "timing"; "headers";
   "fingerprint"].

(** Every run of [m] that returns has pushed signals whose rules are, in
    order, rules of [table]. *)
Definition pushes (table : list (string * Z * option string)) {A}
    (m : SignalEvaluator.M A) : Prop :=
  forall s a s', m s = Normal (a, s') ->
    exists l, signals s' = (signals s ++ l)%list /\ sublist (map rule_of l) table.

(** Every run of [m] that returns has pushed between [lo] and [hi]
    signals. *)
Definition counts (lo hi : nat) {A} (m : SignalEvaluator.M A) : Prop :=
  forall s a s', m s = Normal (a, s') ->
    exists l, signals s' = (signals s ++ l)%list /\ (lo <= List.length l <= hi)%nat.

(** [g] groups the signals of [l] by category: one key per category, in
    the order of first appearance, each with its signals in order. *)
Definition grouped (l : list Signal.t) (g : list (string * list Signal.t)) : Prop :=
  NoDup (map fst g)
  /\ (forall c group, (c, group) ∈ g ->
        group <> [] /\ group = filter (fun s => SignalEvaluator.category_or_general s = c) l)
  /\ (forall s, s ∈ l -> SignalEvaluator.category_or_general s ∈ map fst g).

(** What the Signal Evaluator's table promises of each rule. *)
Definition weighted_and_filed (r : string * Z * option string) : Prop :=
  0 < r.1.2 /\ exists c, r.2 = Some c /\ c ∈ categories.
(** *** Timers and the sessions they watch *)

(** A session holds the timer that was armed with it, or none any more. *)
Definition own_timer (st : state) : Prop :=
  forall ip v, pageVisits st !! ip = Some v ->
    Visit.timeoutId v = None \/ Visit.timeoutId v = Some (Visit.id v).

(** Every pending timer watches the session of its address, which has
    neither called the analysis endpoint nor been completed. *)
Definition armed (st : state) : Prop :=
  forall t ip, timers st !! t = Some ip ->
    exists v, pageVisits st !! ip = Some v /\ Visit.timeoutId v = Some t
              /\ Visit.botApiCalled v = false /\ Visit.completed v = false
              /\ Visit.finalVerdict v = None.

(** Every session that has not called the analysis endpoint and holds no
    frozen verdict has its timer pending. *)
Definition watched (st : state) : Prop :=
  forall ip v, pageVisits st !! ip = Some v ->
    Visit.botApiCalled v = false -> Visit.finalVerdict v = None ->
    Visit.timeoutId v = Some (Visit.id v) /\ timers st !! Visit.id v = Some ip.

Definition wired (st : state) : Prop := own_timer st /\ armed st /\ watched st.

(** The visit object a timer callback leaves behind. *)
Definition timed_out (v : Visit.t) : Visit.t :=
  Visit.mk (Visit.id v) (Visit.timestamp v) true false (Visit.timeoutId v) (Some frozen).
(** *** Challenges *)

(** [expectedAnswer] as the [switch] of [GET /api/challenge] computes it. *)
Definition answer_of (op : operation) (a b : Z) : Z :=
  match op with
  | Plus => a + b
  | Times => a * b
  | Minus => a - b
  end.

(** The value of the expression [a op b] the challenge text holds, as a
    client computes it on Numbers. *)
Definition evaluate (op : operation) (a b : Z) : float :=
  match op with
  | Plus => PrimFloat.add (of_Z a) (of_Z b)
  | Times => PrimFloat.mul (of_Z a) (of_Z b)
  | Minus => PrimFloat.sub (of_Z a) (of_Z b)
  end.

(** The operands [Math.floor(Math.random() * 100)] can produce. *)
Definition operands : list Z := map Z.of_nat (seq 0 100).
(** *** Decisive rules *)

(** The weight of the critical rules of the Signal Evaluator that a bundle
    triggers (lines 468-501): the five automation flags and the failed
    challenge. *)
Definition critical_weight (browserData : value) : Z :=
  (if strict_eq browserData?."navigator"?."webdriver" (VBool true)
      || strict_eq browserData?."features"?."webdriver" (VBool true) then 30 else 0)
  + ((if SignalEvaluator.feature browserData "phantom" then 30 else 0)
     + ((if SignalEvaluator.feature browserData "nightmare" then 30 else 0)
        + ((if SignalEvaluator.feature browserData "selenium" then 30 else 0)
           + ((if SignalEvaluator.feature browserData "domAutomation" then 30 else 0)
              + (if negb (strict_eq (SignalEvaluator.jsChallenge browserData)?."valid"
                            (VBool true)) then 35 else 0))))).

(** Every run of [m] that returns has raised the score by [w] at least. *)
Definition gains (w : Z) {A} (m : SignalEvaluator.M A) : Prop :=
  forall s a s', m s = Normal (a, s') -> score s + w <= score s'.

(** Every run of [m] that returns has pushed a signal called [name] whose
    [detected] is [d]. *)
Definition emits (name : string) (d : bool) {A} (m : SignalEvaluator.M A) : Prop :=
  forall s a s', m s = Normal (a, s') ->
    exists x, x ∈ signals s' /\ Signal.name x = name /\ Signal.detected x = d.

(** The headers of a request that offers no content negotiation and no
    fetch metadata. *)
Definition bare (headers : gmap string string) : Prop :=
  missing headers "accept" = true /\ missing headers "accept-language" = true
  /\ missing headers "accept-encoding" = true /\ missing headers "sec-fetch-dest" = true
  /\ missing headers "sec-fetch-mode" = true /\ missing headers "sec-fetch-site" = true.

(** The headers a browser sends with a navigation, as far as the Header
    Evaluator looks. *)
Definition browser_like (headers : gmap string string) : Prop :=
  (20 <= String.length (header headers "user-agent"))%nat
  /\ List.find (fun p => includes (toLowerCase (header headers "user-agent")) p)
       HeaderEvaluator.botPatterns = None
  /\ includes (toLowerCase (header headers "user-agent")) "headless" = false
  /\ (includes (header headers "accept") "text/html" = true
      \/ includes (header headers "accept") "*/*" = true)
  /\ missing headers "accept-language" = false /\ missing headers "accept-encoding" = false
  /\ (missing headers "sec-fetch-dest" = false \/ missing headers "sec-fetch-mode" = false
      \/ missing headers "sec-fetch-site" = false)
  /\ missing headers "sec-ch-ua" = false /\ missing headers "connection" = false
  /\ missing headers "upgrade-insecure-requests" = false.

(** What Chrome sends with a navigation. *)
Definition chrome_headers : gmap string string :=
  {[ "user-agent" := "Mozilla/5.0 (X11; Linux x86_64) AppleWebKit/537.36 (KHTML, like Gecko) Chrome/120.0.0.0 Safari/537.36";
     "accept" := "text/html,application/xhtml+xml,application/xml;q=0.9,*/*;q=0.8";
     "accept-language" := "en-US,en;q=0.9"; "accept-encoding" := "gzip, deflate, br";
     "sec-fetch-dest" := "document"; "sec-fetch-mode" := "navigate";
     "sec-fetch-site" := "none";
     "sec-ch-ua" := "Chromium;v=120"; "connection" := "keep-alive";
     "upgrade-insecure-requests" := "1" ]}.
(** *** The middleware (lines 387-428) *)

(** [s.endsWith(suffix)] *)
Definition endsWith (s suffix : string) : bool :=
  (String.length suffix <=? String.length s)%nat
  && String.eqb
       (substring (String.length s - String.length suffix) (String.length suffix) s) suffix.

(** The middleware every request passes that the two challenge routes have
    not answered.  [extname] is Node's [path.extname]; [method] and [path]
    are [req.method] and [req.path]. *)
Definition middleware (extname : string -> string) (method path : string) (req : request)
    (now : Z) (st : state) : state :=
  let isStaticAsset := negb (String.eqb (extname path) "") && negb (endsWith path ".html") in
  let isBotApiCall := String.eqb path "/api/bot" in
  let isApiCall := String.prefix "/api/" path in
  let isDocumentRequest :=
    String.eqb method "GET" && negb isStaticAsset && negb isApiCall
    && (bool_decide (headers req !! "sec-fetch-dest" = Some "document")
        || match headers req !! "accept" with
           | Some accept => includes accept "text/html"
           | None => false
           end) in
  if isDocumentRequest then document_request req now st
  else if negb isStaticAsset && negb isBotApiCall then log_header_analysis req st
  else st.

(** *** Bodies without a primitive value, and the socket address *)

(** A bundle whose [screen.width] has no primitive value, and nothing
    else. *)
Definition width_without_primitive : value :=
  VObj [("screen", VObj [("width", VObj [("toString", VNull)])])].

(** A solution of the challenge of noon whose [timingProof] has no
    primitive value. *)
Definition proof_without_primitive : request :=
  json (VObj [("challengeId", VStr "k3j9x0q2mzp"); ("answer", VNum (of_Z 20));
              ("timingProof", VObj [("toString", VNull)]);
              ("executionTime", VNum (of_Z 15))]).

(** [remoteAddress || 'unknown'] *)
Definition socket_or_unknown (req : request) : string :=
  match remoteAddress req with
  | Some r => if String.eqb r "" then "unknown" else r
  | None => "unknown"
  end.

(** ** The Header Evaluator on a bare curl request *)

(** C9.  On a request whose only header is [User-Agent: curl/8.1.2] the
    Header Evaluator detects exactly nine signals (listed in the order the
    code pushes them): shortUserAgent 15, botUserAgent 30, noAcceptHeader
    10, noAcceptLanguage 15, noAcceptEncoding 10, noSecFetch 15, noSecChUa
    8, noConnection 5, noUpgradeInsecure 5.  The raw score is 113, the
    returned score 100, the verdict bot, the confidence high. *)
Theorem curl_only_user_agent :
  let headers : gmap string string := {[ "user-agent" := "curl/8.1.2" ]} in
  let v := HeaderEvaluator.analyzeHeadersOnly headers in
  briefly (Verdict.signals v) =
    [("shortUserAgent", 15); ("botUserAgent", 30); ("noAcceptHeader", 10);
     ("noAcceptLanguage", 15); ("noAcceptEncoding", 10); ("noSecFetch", 15);
     ("noSecChUa", 8); ("noConnection", 5); ("noUpgradeInsecure", 5)]
  /\ score (HeaderEvaluator.rules headers acc0) = 113
  /\ Verdict.score v = 100
  /\ Verdict.verdict v = "bot"
  /\ Verdict.confidence v = "high".
Proof. vm_compute. repeat split; reflexivity. Qed.

(** ** Status of an address that has no session *)

Lemma pageVisits_log_header_analysis (req : request) (st : state) :
  pageVisits (log_header_analysis req st) = pageVisits st.
Proof. reflexivity. Qed.

(** C10.  [GET /api/visit-status] from an address for which no visit is
    tracked answers [{verdict: 'unknown', reason: 'No visit tracked for this
    IP'}]. *)
Theorem visit_status_without_session (req : request) (now : Z) (st : state) :
  pageVisits st !! getClientIp req = None ->
  (get_visit_status req now st).1 = Short "unknown" None (lit "No visit tracked for this IP").
Proof.
  intros absent. unfold get_visit_status, getVisitVerdict. cbn [fst].
  rewrite pageVisits_log_header_analysis, absent. reflexivity.
Qed.

Lemma visit_status_without_session_witness :
  pageVisits initial !! getClientIp (mkRequest ∅ (Some "10.0.0.1") VUndef) = None
  /\ (get_visit_status (mkRequest ∅ (Some "10.0.0.1") VUndef) 0 initial).1
     = Short "unknown" None (lit "No visit tracked for this IP").
Proof.
  split; [reflexivity|].
  apply (visit_status_without_session (mkRequest ∅ (Some "10.0.0.1") VUndef) 0 initial).
  reflexivity.
Defined.

(** ** The challenge store *)

Lemma find_challenge_string (id : string) (st : state) :
  find_challenge (VStr id) st = challenges st !! id.
Proof. reflexivity. Qed.

Lemma challenges_print (l : line) (st : state) : challenges (print l st) = challenges st.
Proof. reflexivity. Qed.

(** An unknown id is answered without touching the store, whatever else the
    body holds. *)
Lemma verify_unknown (req : request) (now : Z) (st : state) (id : string) :
  (body req)?."challengeId" = VStr id ->
  challenges st !! id = None ->
  post_verify req now st = (Normal (NotFound false "Challenge not found or expired"), st).
Proof.
  intros same absent. unfold post_verify.
  destruct (body req) eqn:shape; try discriminate same;
    rewrite same, find_challenge_string, absent; reflexivity.
Qed.

(** X25.  Once a verify call for an id has been answered (it did not
    throw), the challenge is gone, whether or not the answer was correct,
    and a second verify call with the same id is answered [{valid: false,
    reason: 'Challenge not found or expired'}]. *)
Theorem second_verify_not_found (req1 req2 : request) (now1 now2 : Z) (st : state)
    (id : string) (answer1 : verification) :
  (body req1)?."challengeId" = VStr id ->
  (body req2)?."challengeId" = VStr id ->
  (post_verify req1 now1 st).1 = Normal answer1 ->
  challenges (post_verify req1 now1 st).2 !! id = None
  /\ (post_verify req2 now2 (post_verify req1 now1 st).2).1
     = Normal (NotFound false "Challenge not found or expired").
Proof.
  intros same1 same2 answered.
  assert (gone : challenges (post_verify req1 now1 st).2 !! id = None).
  { revert answered. unfold post_verify.
    destruct (body req1) eqn:shape; try discriminate same1;
      rewrite same1, find_challenge_string;
      (destruct (challenges st !! id) eqn:stored; [|intros _; exact stored]);
      match goal with |- context [if ?c then _ else _] => destruct c end;
      repeat match goal with
             | |- context [cbind ?m _] => destruct m; cbn [cbind]
             | |- context [if ?c then _ else _] => destruct c
             end;
      cbn; intros; try discriminate; apply lookup_delete_eq. }
  split; [exact gone|].
  rewrite (verify_unknown req2 now2 _ id same2 gone). reflexivity.
Qed.

Lemma second_verify_not_found_witness :
  (post_verify (solution 21) (noon + 200) issued_at_noon).1
    = Normal (Checked false (VBool true) (VNum (of_Z 15)) 200)
  /\ challenges (post_verify (solution 21) (noon + 200) issued_at_noon).2 !! "k3j9x0q2mzp" = None
  /\ (post_verify (solution 20) (noon + 400)
        (post_verify (solution 21) (noon + 200) issued_at_noon).2).1
     = Normal (NotFound false "Challenge not found or expired").
Proof.
  split; [vm_compute; reflexivity|].
  apply (second_verify_not_found (solution 21) (solution 20) (noon + 200) (noon + 400)
           issued_at_noon "k3j9x0q2mzp" (Checked false (VBool true) (VNum (of_Z 15)) 200));
    vm_compute; reflexivity.
Defined.

Lemma ToNumber_primitive (v : value) : primitive v = true -> exists x, ToNumber v = Normal x.
Proof. destruct v; cbn; intros; try discriminate; eauto. Qed.

(** A verify call whose [timingProof] and [executionTime] are numbers,
    strings, booleans, [null] or absent is always answered. *)
Lemma verify_answers (req : request) (now : Z) (st : state) (fields : list (string * value)) :
  body req = VObj fields ->
  primitive (body req)?."timingProof" = true ->
  primitive (body req)?."executionTime" = true ->
  exists answer, (post_verify req now st).1 = Normal answer.
Proof.
  intros shape proof_ok time_ok. unfold post_verify. rewrite shape in *.
  destruct (find_challenge _ st); [|eauto].
  destruct (ToNumber_primitive _ proof_ok) as [x1 Hx1].
  destruct (ToNumber_primitive _ time_ok) as [x2 Hx2].
  unfold JS.sub, gt_num, lt_num. rewrite Hx1, Hx2. cbn.
  repeat match goal with |- context [if ?c then _ else _] => destruct c end; cbn; eauto.
Qed.

(** A verify call whose [timingProof] has no primitive value throws, and
    the challenge stays in the store. *)
Lemma verify_throw_keeps_challenge :
  let req := json (VObj [("challengeId", VStr "k3j9x0q2mzp"); ("answer", VNum (of_Z 20));
                         ("timingProof", VObj [("toString", VNull)])]) in
  post_verify req (noon + 200) issued_at_noon = (Throw, issued_at_noon).
Proof. vm_compute. reflexivity. Qed.

(** C3.  A challenge issued more than 60 seconds ago is still found and
    redeemed when no challenge was issued in between: here 61 seconds after
    it was issued, with the right answer and the echoed timestamp. *)
Theorem stale_challenge_redeemed :
  (post_verify (solution 20) (noon + 61000) issued_at_noon).1
  = Normal (Checked true (VBool true) (VNum (of_Z 15)) 61000).
Proof. vm_compute. reflexivity. Qed.

(** The sweep of [GET /api/challenge] is what removes it: after another
    challenge has been issued 61 seconds later, the same call is answered
    "not found". *)
Lemma stale_challenge_swept :
  (post_verify (solution 20) (noon + 61500)
     (get_challenge navigation (noon + 61000) "p0o9i8u7y6t5r" 3 4 Times issued_at_noon).2).1
  = Normal (NotFound false "Challenge not found or expired").
Proof. vm_compute. reflexivity. Qed.

(** ** The early rejection of [POST /api/bot] *)




(** Spec scenario 6: every feature present, the challenge outcome left out. *)
Lemma clean_browser_without_challenge :
  (post_bot (json (firefox VUndef)) fetched_at_noon).1
  = Normal (rejection "JS challenge not completed or failed").
Proof. vm_compute. reflexivity. Qed.

(** A width that has no primitive value makes the comparison, and so the
    handler, throw, after the session was marked. *)
Lemma early_rejection_throw :
  (post_bot (json (VObj [("screen", VObj [("width", VObj [("toString", VNull)])])]))
     fetched_at_noon).1 = Throw.
Proof. vm_compute. reflexivity. Qed.

(** C2.  A bundle whose [screen.width] has no primitive value (an object
    with a property of its own named [toString]) is not answered at all,
    whatever else it holds or lacks: the comparison [screen.width > 0]
    throws, after the session was marked and before anything is logged or
    sent, whatever evaluator the handler is given.  So a request that lacks
    [navigator.userAgent], [window] and a valid challenge gets no code-1005
    verdict. *)
Theorem malformed_width_not_rejected (req : request) (st : state)
    (fields : list (string * value)) :
  (nullish (body req) (VObj []))?."screen"?."width" = VObj fields ->
  object_converts fields = false ->
  forall analyze,
    bot_handler analyze req st = (Throw, markBotApiCalled (getClientIp req) st).
Proof.
  intros width unconvertible analyze. unfold bot_handler, hasEssentialData, gt_num.
  rewrite width. cbn [ToNumber ToString]. rewrite unconvertible. reflexivity.
Qed.

Lemma malformed_width_not_rejected_witness :
  width_without_primitive?."navigator"?."userAgent" = VUndef
  /\ width_without_primitive?."window" = VUndef
  /\ width_without_primitive?."jsChallenge"?."valid" = VUndef
  /\ post_bot (json width_without_primitive) fetched_at_noon
     = (Throw, markBotApiCalled visitor fetched_at_noon).
Proof.
  split; [reflexivity|]. split; [reflexivity|]. split; [reflexivity|].
  exact (malformed_width_not_rejected (json width_without_primitive) fetched_at_noon
           [("toString", VNull)] eq_refl eq_refl SignalEvaluator.analyzeBotSignals).
Defined.

(** ** What the early rejection does to the session *)




(** The status of such a session stays "pending". *)
Lemma rejected_session_status :
  getVisitVerdict visitor (noon + 90000) (post_bot (json (VObj [])) fetched_at_noon).2
  = Short "pending" None (lit "Bot API called, awaiting completion").
Proof. vm_compute. reflexivity. Qed.

(** ** The two lists of bot patterns *)

(** C6.  [HTTPie/3.2.1] contains the pattern [httpie]; the Header
    Evaluator flags it; the Signal Evaluator, given the same headers and a
    complete bundle, returns [botUserAgent] not detected. *)
Theorem httpie_not_flagged :
  includes (toLowerCase (header httpie_headers "user-agent")) "httpie" = true
  /\ named "botUserAgent" (Verdict.allSignals (HeaderEvaluator.analyzeHeadersOnly httpie_headers))
     = Some (Signal.mk "botUserAgent" true 30
               [PStr "Bot-like User-Agent pattern: "; PStr "httpie"] None)
  /\ (named "botUserAgent" <$>
        match SignalEvaluator.analyzeBotSignals (firefox solved) httpie_headers with
        | Normal v => Some (Verdict.allSignals v)
        | Throw => None
        end)
     = Some (Some (Signal.mk "botUserAgent" false 25 (lit "User-Agent appears legitimate")
                     (Some "headers"))).
Proof. vm_compute. repeat split; reflexivity. Qed.

(** The six client patterns are in the Header Evaluator's list and not in
    the Signal Evaluator's; the fifty other patterns are common to both, in
    the same order. *)
Lemma pattern_lists :
  HeaderEvaluator.botPatterns = (SignalEvaluator.botPatterns ++ client_patterns)%list.
Proof. reflexivity. Qed.

(** ** The visit tracker: what each transition does to a visit *)

Lemma trackPageVisit_lookup (ip : string) (now : Z) (st : state) (ip' : string) (v' : Visit.t) :
  pageVisits (trackPageVisit ip now st) !! ip' = Some v' ->
  (ip' = ip /\ v' = Visit.mk (nextTimer st) now false false (Some (nextTimer st)) None)
  \/ (ip' <> ip /\ pageVisits st !! ip' = Some v').
Proof.
  unfold trackPageVisit. cbn [pageVisits]. intros found.
  apply map_lookup_filter_Some in found as [found _].
  destruct (decide (ip' = ip)) as [->|other].
  - rewrite lookup_insert_eq in found. left. split; congruence.
  - rewrite lookup_insert_ne in found by congruence. right. split; assumption.
Qed.

Lemma markBotApiCalled_lookup (ip : string) (st : state) (ip' : string) (v' : Visit.t) :
  pageVisits (markBotApiCalled ip st) !! ip' = Some v' ->
  pageVisits st !! ip' = Some v'
  \/ (ip' = ip /\ exists v, pageVisits st !! ip = Some v
        /\ v' = Visit.mk (Visit.id v) (Visit.timestamp v) (Visit.completed v) true None
                  (Visit.finalVerdict v)).
Proof.
  unfold markBotApiCalled. destruct (pageVisits st !! ip) as [v|] eqn:tracked; [|tauto].
  cbn [pageVisits]. intros found. destruct (decide (ip' = ip)) as [->|other].
  - rewrite lookup_insert_eq in found. right. split; [reflexivity|]. exists v. split; congruence.
  - rewrite lookup_insert_ne in found by congruence. tauto.
Qed.

Lemma markVisitComplete_lookup (ip : string) (st : state) (ip' : string) (v' : Visit.t) :
  pageVisits (markVisitComplete ip st) !! ip' = Some v' ->
  pageVisits st !! ip' = Some v'
  \/ (ip' = ip /\ exists v, pageVisits st !! ip = Some v
        /\ v' = Visit.mk (Visit.id v) (Visit.timestamp v) true (Visit.botApiCalled v)
                  (Visit.timeoutId v) (Visit.finalVerdict v)).
Proof.
  unfold markVisitComplete. destruct (pageVisits st !! ip) as [v|] eqn:tracked; [|tauto].
  cbn [pageVisits set_visits]. intros found. destruct (decide (ip' = ip)) as [->|other].
  - rewrite lookup_insert_eq in found. right. split; [reflexivity|]. exists v. split; congruence.
  - rewrite lookup_insert_ne in found by congruence. tauto.
Qed.

Lemma onTimeout_lookup (ip : string) (st : state) (ip' : string) (v' : Visit.t) :
  pageVisits (onTimeout ip st) !! ip' = Some v' ->
  pageVisits st !! ip' = Some v'
  \/ (ip' = ip /\ exists v, pageVisits st !! ip = Some v
        /\ Visit.botApiCalled v = false /\ Visit.completed v = false
        /\ v' = Visit.mk (Visit.id v) (Visit.timestamp v) true false (Visit.timeoutId v)
                  (Some frozen)).
Proof.
  unfold onTimeout, deliverBotVerdict.
  destruct (pageVisits st !! ip) as [v|] eqn:tracked; [|tauto].
  destruct (Visit.botApiCalled v) eqn:called; cbn [negb]; [tauto|].
  destruct (Visit.completed v) eqn:complete; [tauto|].
  cbn [pageVisits]. intros found. destruct (decide (ip' = ip)) as [->|other].
  - rewrite lookup_insert_eq in found. right. split; [reflexivity|]. exists v.
    repeat split; try assumption. injection found as <-. reflexivity.
  - rewrite lookup_insert_ne in found by congruence. tauto.
Qed.

(** The visits after [POST /api/bot]: those after [markBotApiCalled],
    with [markVisitComplete] on top when the evaluator has returned. *)
Lemma bot_handler_visits (analyze : value -> gmap string string -> completion Verdict.t)
    (req : request) (st : state) :
  pageVisits (bot_handler analyze req st).2 = pageVisits (markBotApiCalled (getClientIp req) st)
  \/ pageVisits (bot_handler analyze req st).2
     = pageVisits (markVisitComplete (getClientIp req) (markBotApiCalled (getClientIp req) st)).
Proof.
  unfold bot_handler.
  destruct (hasEssentialData _) as [essential|]; [|left; reflexivity].
  destruct (negb essential || negb _); [left; reflexivity|].
  destruct (analyze _ _); [right|left]; reflexivity.
Qed.

Lemma post_verify_visits (req : request) (now : Z) (st : state) :
  pageVisits (post_verify req now st).2 = pageVisits st.
Proof.
  unfold post_verify.
  destruct (body req); try reflexivity;
    (destruct (find_challenge _ st); [|reflexivity]);
    match goal with |- context [match ?c with Normal _ => _ | Throw => _ end] => destruct c end;
    try reflexivity; unfold forget_challenge;
    match goal with |- context [match ?c with VStr _ => _ | _ => _ end] => destruct c end;
    reflexivity.
Qed.

Lemma step_written (st : state) (e : event) (ip : string) (v' : Visit.t) :
  pageVisits (step st e) !! ip = Some v' -> written st e ip v'.
Proof.
  destruct e as [req now|req now id a b op|req now|req|req now|req|req|t]; cbn [step].
  - unfold document_request. cbn [print pageVisits]. intros found.
    apply trackPageVisit_lookup in found as [[-> ->]|[_ found]].
    + eapply Created; reflexivity.
    + apply Kept, found.
  - intros found. apply Kept. exact found.
  - rewrite post_verify_visits. intros found. apply Kept. exact found.
  - intros found. unfold post_bot in found.
    destruct (bot_handler_visits SignalEvaluator.analyzeBotSignals req st) as [same|same];
      rewrite same in found; clear same.
    + apply markBotApiCalled_lookup in found as [found|[-> (v & tracked & ->)]].
      * apply Kept, found.
      * apply (Marked _ _ _ _ req v (Visit.completed v)); auto.
    + apply markVisitComplete_lookup in found as [found|[-> (v1 & tracked1 & ->)]].
      * apply markBotApiCalled_lookup in found as [found|[-> (v & tracked & ->)]].
        -- apply Kept, found.
        -- apply (Marked _ _ _ _ req v (Visit.completed v)); auto.
      * revert tracked1. unfold markBotApiCalled.
        destruct (pageVisits st !! getClientIp req) as [v|] eqn:tracked.
        -- cbn [pageVisits]. rewrite lookup_insert_eq. intros [= <-].
           apply (Marked _ _ _ _ req v true); auto.
        -- rewrite tracked. discriminate.
  - intros found. apply Kept. exact found.
  - intros found. apply Kept. exact found.
  - intros found. apply Kept. exact found.
  - unfold fire. destruct (timers st !! t) as [ip'|] eqn:pending; [|apply Kept].
    intros found. apply onTimeout_lookup in found as [found|[-> (v & tracked & ? & ? & ->)]].
    + apply Kept, found.
    + apply (TimedOut _ _ _ _ t v); auto.
Qed.

Lemma bot_handler_nextTimer (analyze : value -> gmap string string -> completion Verdict.t)
    (req : request) (st : state) :
  nextTimer (bot_handler analyze req st).2 = nextTimer st.
Proof.
  unfold bot_handler, markBotApiCalled, markVisitComplete.
  destruct (pageVisits st !! getClientIp req); cbn;
    repeat match goal with
           | |- context [match ?c with Normal _ => _ | Throw => _ end] => destruct c; cbn
           | |- context [if ?c then _ else _] => destruct c; cbn
           | |- context [match ?c with Some _ => _ | None => _ end] => destruct c; cbn
           end; reflexivity.
Qed.

Lemma post_verify_nextTimer (req : request) (now : Z) (st : state) :
  nextTimer (post_verify req now st).2 = nextTimer st.
Proof.
  unfold post_verify.
  destruct (body req); try reflexivity;
    (destruct (find_challenge _ st); [|reflexivity]);
    match goal with |- context [match ?c with Normal _ => _ | Throw => _ end] => destruct c end;
    try reflexivity; unfold forget_challenge;
    match goal with |- context [match ?c with VStr _ => _ | _ => _ end] => destruct c end;
    reflexivity.
Qed.

Lemma onTimeout_nextTimer (ip : string) (st : state) : nextTimer (onTimeout ip st) = nextTimer st.
Proof.
  unfold onTimeout, deliverBotVerdict.
  destruct (pageVisits st !! ip) as [v|]; [|reflexivity].
  destruct (Visit.botApiCalled v), (Visit.completed v); reflexivity.
Qed.

Lemma step_nextTimer (st : state) (e : event) :
  nextTimer (step st e)
  = match e with
    | Document _ _ => Datatypes.S (nextTimer st)
    | _ => nextTimer st
    end.
Proof.
  destruct e; cbn [step]; try reflexivity.
  - apply post_verify_nextTimer.
  - apply bot_handler_nextTimer.
  - unfold fire. destruct (timers st !! timeoutId); [|reflexivity].
    rewrite onTimeout_nextTimer. reflexivity.
Qed.

Lemma step_nextTimer_le (st : state) (e : event) : (nextTimer st <= nextTimer (step st e))%nat.
Proof. rewrite step_nextTimer. destruct e; lia. Qed.

(** One transition, as [advances] reads it. *)
Lemma step_advances (st : state) (e : event) : advances st (step st e).
Proof.
  split; [apply step_nextTimer_le|]. intros ip v' found.
  destruct (step_written st e ip v' found)
    as [kept|req now -> -> ->|req v c -> -> tracked [->| ->] ->|t v -> _ tracked called _ ->].
  - left. exists v'. unfold evolves. tauto.
  - right. rewrite step_nextTimer. cbn. lia.
  - left. exists v. unfold evolves. cbn. tauto.
  - left. exists v. unfold evolves. cbn. tauto.
  - left. exists v. unfold evolves. cbn. split; [assumption|]. repeat split; congruence.
Qed.

(** ** Invariants of the reachable states *)

Lemma written_origin (st : state) (e : event) (ip : string) (v' : Visit.t) :
  written st e ip v' ->
  (exists v, pageVisits st !! ip = Some v /\ evolves v v')
  \/ (exists req now, e = Document req now /\ ip = getClientIp req
        /\ Visit.id v' = nextTimer st).
Proof.
  intros [kept|req now -> -> ->|req v c -> -> tracked [->| ->] ->|t v -> _ tracked called _ ->];
    unfold evolves; cbn; eauto 10.
Qed.

Lemma written_settled (st : state) (e : event) (ip : string) (v' : Visit.t) :
  all_settled st -> written st e ip v' -> settled v'.
Proof.
  intros good [kept|req now -> -> ->|req v c -> -> tracked _ ->|t v -> _ tracked called _ ->].
  - eapply good, kept.
  - split; cbn; [tauto|discriminate].
  - destruct (good _ _ tracked) as [final _]. split; cbn; tauto.
  - split; cbn; tauto.
Qed.

Lemma invariant_initial : invariant initial.
Proof.
  unfold invariant, ids_below, unique_ids, all_settled. cbn [initial pageVisits].
  split; [|split]; intros *; rewrite lookup_empty; discriminate.
Qed.

Lemma invariant_step (st : state) (e : event) : invariant st -> invariant (step st e).
Proof.
  intros (below & unique & good). split; [|split].
  - intros ip v' found.
    apply step_written, written_origin in found as [(v & tracked & same & _)|(req & now & -> & _ & ->)].
    + rewrite same. pose proof (below _ _ tracked). pose proof (step_nextTimer_le st e). lia.
    + rewrite step_nextTimer. lia.
  - intros ip1 ip2 v1 v2 found1 found2 same.
    apply step_written, written_origin in found1
      as [(w1 & tracked1 & same1 & _)|(req1 & now1 & -> & -> & fresh1)];
    apply step_written, written_origin in found2
      as [(w2 & tracked2 & same2 & _)|(req2 & now2 & created & -> & fresh2)].
    + eapply unique; eauto. congruence.
    + pose proof (below _ _ tracked1). lia.
    + pose proof (below _ _ tracked2). lia.
    + congruence.
  - intros ip v' found. eapply written_settled; eauto using step_written.
Qed.

Lemma run_snoc (st : state) (trace : list event) (e : event) :
  run st (trace ++ [e]) = step (run st trace) e.
Proof. unfold run. rewrite fold_left_app. reflexivity. Qed.

Lemma invariant_run (st : state) (trace : list event) : invariant st -> invariant (run st trace).
Proof.
  intros good. induction trace as [|e trace IH] using rev_ind; [exact good|].
  rewrite run_snoc. apply invariant_step, IH.
Qed.

Lemma invariant_reachable (st : state) : reachable st -> invariant st.
Proof. intros [trace ->]. apply invariant_run, invariant_initial. Qed.

(** ** The status after the deadline has fired *)







(** ** The timeout verdict is delivered at most once, and never after the
    analysis endpoint was called *)

Lemma printed_nothing (st st' : state) : console st' = console st -> printed st st' = [].
Proof. intros same. unfold printed. rewrite same. apply drop_all. Qed.

Lemma printed_lines (st st' : state) (ls : list line) :
  console st' = (console st ++ ls)%list -> printed st st' = ls.
Proof. intros same. unfold printed. rewrite same. apply drop_app_length. Qed.

Lemma markBotApiCalled_console (ip : string) (st : state) :
  console (markBotApiCalled ip st) = console st.
Proof. unfold markBotApiCalled. destruct (pageVisits st !! ip); reflexivity. Qed.

Lemma markVisitComplete_console (ip : string) (st : state) :
  console (markVisitComplete ip st) = console st.
Proof. unfold markVisitComplete. destruct (pageVisits st !! ip); reflexivity. Qed.

(** Only a timer callback prints a [[bot-verdict]] line, and only for a
    visit that is neither complete nor marked; the visit is complete
    afterwards. *)
Lemma step_deliveries (st : state) (e : event) :
  omap (delivery st) (printed st (step st e)) = []
  \/ exists timeoutId ip v,
       e = Fire timeoutId /\ timers st !! timeoutId = Some ip
       /\ pageVisits st !! ip = Some v
       /\ Visit.botApiCalled v = false /\ Visit.completed v = false
       /\ omap (delivery st) (printed st (step st e)) = [Delivered (Visit.id v)]
       /\ forall v', pageVisits (step st e) !! ip = Some v' -> Visit.completed v' = true.
Proof.
  destruct e as [req now|req now id a b op|req now|req|req now|req|req|t]; cbn [step].
  - left. erewrite printed_lines; [|reflexivity]. reflexivity.
  - left. rewrite printed_nothing; reflexivity.
  - left. unfold post_verify.
    destruct (body req); try (rewrite printed_nothing; reflexivity);
      (destruct (find_challenge _ st); [|rewrite printed_nothing; reflexivity]);
      match goal with |- context [match ?c with Normal _ => _ | Throw => _ end] => destruct c end;
      try (rewrite printed_nothing; reflexivity);
      unfold forget_challenge;
      match goal with |- context [match ?c with VStr _ => _ | _ => _ end] => destruct c end;
      (erewrite printed_lines; [|reflexivity]); reflexivity.
  - left. unfold post_bot, bot_handler.
    destruct (hasEssentialData _) as [essential|];
      [|rewrite printed_nothing; [reflexivity|apply markBotApiCalled_console]].
    destruct (negb essential || negb _).
    { erewrite printed_lines;
        [|cbn [snd print console]; rewrite markBotApiCalled_console; reflexivity].
      reflexivity. }
    destruct (SignalEvaluator.analyzeBotSignals _ _);
      [|rewrite printed_nothing; [reflexivity|apply markBotApiCalled_console]].
    erewrite printed_lines;
      [|cbn [snd print console];
        rewrite markVisitComplete_console, markBotApiCalled_console; reflexivity].
    reflexivity.
  - left. erewrite printed_lines; [|cbn; rewrite <- app_assoc; reflexivity]. reflexivity.
  - left. erewrite printed_lines; [|cbn; rewrite <- app_assoc; reflexivity]. reflexivity.
  - left. erewrite printed_lines; [|reflexivity]. reflexivity.
  - unfold fire. destruct (timers st !! t) as [ip|] eqn:pending;
      [|left; rewrite printed_nothing; reflexivity].
    unfold onTimeout, deliverBotVerdict. cbn [pageVisits].
    destruct (pageVisits st !! ip) as [v|] eqn:tracked;
      [|left; rewrite printed_nothing; reflexivity].
    destruct (Visit.botApiCalled v) eqn:called; cbn [negb];
      [left; rewrite printed_nothing; reflexivity|].
    destruct (Visit.completed v) eqn:complete;
      [left; rewrite printed_nothing; reflexivity|].
    right. exists t, ip, v. repeat split; try assumption.
    + erewrite printed_lines; [|reflexivity]. cbn. rewrite tracked. reflexivity.
    + cbn [pageVisits]. rewrite lookup_insert_eq. intros v' [= <-]. reflexivity.
Qed.

Lemma bot_handler_called (analyze : value -> gmap string string -> completion Verdict.t)
    (req : request) (st : state) (v' : Visit.t) :
  pageVisits (bot_handler analyze req st).2 !! getClientIp req = Some v' ->
  Visit.botApiCalled v' = true.
Proof.
  destruct (bot_handler_visits analyze req st) as [-> | ->];
    unfold markVisitComplete, markBotApiCalled;
    destruct (pageVisits st !! getClientIp req) as [v|] eqn:tracked;
    cbn [pageVisits set_visits]; rewrite ?lookup_insert_eq, ?tracked;
    cbn [pageVisits set_visits]; rewrite ?lookup_insert_eq; try discriminate;
    intros [= <-]; reflexivity.
Qed.

(** What one transition shows: at most one observation, and the session it
    names is closed afterwards. *)
Lemma observe_cases (st : state) (e : event) :
  observe st e = []
  \/ exists id ip v, (observe st e = [Called id] \/ observe st e = [Delivered id])
       /\ pageVisits st !! ip = Some v /\ Visit.id v = id
       /\ forall v', pageVisits (step st e) !! ip = Some v' ->
            Visit.completed v' = true \/ Visit.botApiCalled v' = true.
Proof.
  unfold observe.
  destruct (step_deliveries st e)
    as [-> |(t & ip & v & -> & pending & tracked & called & complete & -> & after)].
  - rewrite app_nil_r. destruct e; auto.
    destruct (pageVisits st !! getClientIp req) as [v|] eqn:tracked; auto.
    right. exists (Visit.id v), (getClientIp req), v. repeat split; auto.
    intros v' found. right. eapply bot_handler_called, found.
  - right. exists (Visit.id v), ip, v. repeat split; auto.
Qed.

Lemma closed_after (st : state) (e : event) (ip : string) (v : Visit.t) :
  invariant st ->
  pageVisits st !! ip = Some v ->
  (forall v', pageVisits (step st e) !! ip = Some v' ->
     Visit.completed v' = true \/ Visit.botApiCalled v' = true) ->
  closed_for (Visit.id v) (step st e).
Proof.
  intros (below & unique & _) tracked after. split.
  - pose proof (below _ _ tracked). pose proof (step_nextTimer_le st e). lia.
  - intros ip' v' found same.
    pose proof found as origin.
    apply step_written, written_origin in origin
      as [(w & tracked' & same' & _)|(req & now & _ & _ & fresh)].
    + assert (ip' = ip) as -> by (eapply unique; eauto; congruence).
      apply after, found.
    + pose proof (below _ _ tracked). lia.
Qed.

Lemma closed_step (id : nat) (st : state) (e : event) :
  closed_for id st -> closed_for id (step st e) /\ Delivered id ∉ observe st e.
Proof.
  intros [below closed]. split; [split|].
  - pose proof (step_nextTimer_le st e). lia.
  - intros ip v' found same.
    destruct (step_written st e ip v' found)
      as [kept|req now -> -> ->|req v c -> -> tracked _ ->|t v -> _ tracked _ _ ->];
      cbn in *; auto.
    all: try (eapply closed; eauto; fail).
    all: try lia.
  - unfold observe. rewrite elem_of_app. intros [call|delivered].
    + destruct e; cbn in call; try (apply elem_of_nil in call; exact call).
      destruct (pageVisits st !! getClientIp req);
        [apply list_elem_of_singleton in call; discriminate|apply elem_of_nil in call; exact call].
    + destruct (step_deliveries st e)
        as [nothing|(t & ip & v & _ & _ & tracked & called & complete & one & _)].
      * rewrite nothing in delivered. apply elem_of_nil in delivered. exact delivered.
      * rewrite one in delivered. apply list_elem_of_singleton in delivered.
        injection delivered as ->.
        destruct (closed _ _ tracked eq_refl); congruence.
Qed.

Lemma no_delivery_when_closed (trace : list event) (st : state) (id : nat) :
  closed_for id st -> Delivered id ∉ history st trace.
Proof.
  revert st. induction trace as [|e trace IH]; intros st closed; cbn [history].
  - apply not_elem_of_nil.
  - destruct (closed_step id st e closed) as [closed' none].
    rewrite elem_of_app. intros [here|later]; [exact (none here)|exact (IH _ closed' later)].
Qed.

Lemma history_closed (trace : list event) (st : state) (id : nat)
    (before after : list observation) (o : observation) :
  invariant st ->
  history st trace = (before ++ o :: after)%list ->
  o = Called id \/ o = Delivered id ->
  Delivered id ∉ after.
Proof.
  revert st before. induction trace as [|e trace IH]; intros st before good split_at which;
    cbn [history] in split_at.
  - destruct before; discriminate split_at.
  - destruct (observe_cases st e) as [nothing|(id' & ip & v & one & tracked & same & after_e)].
    + rewrite nothing in split_at. cbn in split_at.
      exact (IH _ _ (invariant_step _ _ good) split_at which).
    + assert (exists o', observe st e = [o'] /\ (o' = Called id' \/ o' = Delivered id'))
        as (o' & single & which') by (destruct one; eauto).
      rewrite single in split_at. destruct before as [|b before]; cbn in split_at.
      * injection split_at as <- <-.
        assert (id' = id) as -> by (destruct which as [->| ->], which' as [[=]|[=]]; auto).
        apply no_delivery_when_closed. subst id. eapply closed_after; eauto.
      * injection split_at as _ split_at.
        exact (IH _ _ (invariant_step _ _ good) split_at which).
Qed.

(** C7.  In every run of the server, for every visit object: once the
    timeout verdict has been delivered to it, or [markBotApiCalled] has run
    on it, no later transition (timer callback or other) delivers the timeout
    verdict to it.  So the verdict is delivered to a session at most once,
    and never after the analysis endpoint was called for it. *)
Theorem timeout_verdict_once (trace : list event) (id : nat)
    (before after : list observation) (o : observation) :
  history initial trace = (before ++ o :: after)%list ->
  o = Called id \/ o = Delivered id ->
  Delivered id ∉ after.
Proof. apply history_closed, invariant_initial. Qed.

(** The page is fetched, the timer fires (and its identifier is fired
    again), then the analysis endpoint is called: one delivery, then the
    call. *)
Lemma timeout_verdict_once_witness :
  history initial [Document navigation noon; Fire 0%nat; Fire 0%nat; PostBot (json (VObj []))]
    = [Delivered 0; Called 0]
  /\ Delivered 0 ∉ [Called 0].
Proof.
  split; [vm_compute; reflexivity|].
  apply (timeout_verdict_once
           [Document navigation noon; Fire 0%nat; Fire 0%nat; PostBot (json (VObj []))]
           0%nat [] [Called 0] (Delivered 0)).
  - vm_compute. reflexivity.
  - right. reflexivity.
Defined.

(** The analysis endpoint is called first: the timer was cleared, and a
    callback that ran all the same would deliver nothing. *)
Lemma no_delivery_after_call :
  history initial [Document navigation noon; PostBot (json (VObj [])); Fire 0%nat] = [Called 0]
  /\ console (onTimeout visitor (run initial [Document navigation noon; PostBot (json (VObj []))]))
     = console (run initial [Document navigation noon; PostBot (json (VObj []))]).
Proof. vm_compute. split; reflexivity. Qed.

(** ** The score of a verdict *)

Lemma detected_weight_snoc (l : list Signal.t) (s : Signal.t) :
  detected_weight (l ++ [s])
  = detected_weight l + (if Signal.detected s then Signal.weight s else 0).
Proof.
  induction l as [|x l IH]; cbn.
  - destruct (Signal.detected s); lia.
  - fold (detected_weight (l ++ [s])). fold (detected_weight l). rewrite IH.
    destruct (Signal.detected x); lia.
Qed.

Lemma consistent_acc0 : consistent acc0.
Proof. reflexivity. Qed.

Lemma thresholds (a : acc) (v : Verdict.t) :
  consistent a ->
  Verdict.score v = Z.min (score a) 100 ->
  Verdict.allSignals v = signals a ->
  Verdict.signals v = filter (fun s => Signal.detected s = true) (signals a) ->
  Verdict.verdict v = threshold_verdict (Z.min (score a) 100) ->
  Verdict.confidence v = threshold_confidence (Z.min (score a) 100) ->
  scored v.
Proof.
  intros agree score_v all_v detected_v verdict_v confidence_v. unfold scored.
  rewrite all_v, score_v, detected_v, verdict_v, confidence_v, agree.
  repeat split. apply Z.min_comm.
Qed.

Lemma header_addSignal_consistent (name : string) (detected : bool) (weight : Z)
    (passReason failReason : text) (a : acc) :
  consistent a -> consistent (HeaderEvaluator.addSignal name detected weight passReason failReason a).
Proof.
  unfold consistent, HeaderEvaluator.addSignal. intros agree.
  destruct detected; cbn [signals score]; rewrite detected_weight_snoc; cbn; lia.
Qed.

Lemma header_rules_consistent (headers : gmap string string) :
  consistent (HeaderEvaluator.rules headers acc0).
Proof.
  unfold HeaderEvaluator.rules. cbv zeta.
  repeat apply header_addSignal_consistent. apply consistent_acc0.
Qed.

Lemma header_evaluator_scored (headers : gmap string string) :
  scored (HeaderEvaluator.analyzeHeadersOnly headers).
Proof.
  apply (thresholds (HeaderEvaluator.rules headers acc0));
    [apply header_rules_consistent|reflexivity..].
Qed.

(** *** The body of the Signal Evaluator, call by call *)

Section Respects.

Import SignalEvaluator.

Variable R : acc -> acc -> Prop.
Hypothesis R_refl : forall a, R a a.
Hypothesis R_trans : forall a b c, R a b -> R b c -> R a c.
Hypothesis R_addSignal :
  forall name detected weight passReason failReason category a,
    R a (addSignal name detected weight passReason failReason category a).

Lemma respects_ret {A} (a : A) : respects R (ret a).
Proof. intros s a' s' [= _ <-]. apply R_refl. Qed.

Lemma respects_lift {A} (c : completion A) : respects R (lift c).
Proof. intros s a s'. unfold lift. destruct c; cbn; [intros [= _ <-]; apply R_refl|discriminate]. Qed.

Lemma respects_bind {A B} (m : M A) (k : A -> M B) :
  respects R m -> (forall a, respects R (k a)) -> respects R (bind m k).
Proof.
  intros Hm Hk s b s'. unfold bind. destruct (m s) as [[a s1]|] eqn:first; cbn; [|discriminate].
  intros second. eapply R_trans; [eapply Hm, first|eapply Hk, second].
Qed.

Lemma respects_call (name : string) (detected : completion bool) (weight : Z)
    (passReason failReason : completion text) (category : string) :
  respects R (call name detected weight passReason failReason category).
Proof.
  intros s a s'. unfold call.
  destruct detected, passReason, failReason; cbn; try discriminate.
  intros [= _ <-]. apply R_addSignal.
Qed.

Lemma respects_when (b : bool) (m : M unit) : respects R m -> respects R (when b m).
Proof. intros Hm. destruct b; [exact Hm|apply respects_ret]. Qed.

Ltac respect :=
  cbv zeta;
  repeat first
    [ apply respects_call
    | apply respects_ret
    | apply respects_lift
    | apply respects_when
    | apply respects_bind; [|intros ?]
    | match goal with |- respects _ (let '(_, _) := ?p in _) => destruct p end ].

Lemma respects_rules (browserData : value) (headers : gmap string string)
    (userAgent platform : string) :
  respects R (rules browserData headers userAgent platform).
Proof.
  unfold rules, critical, essential, strong, medium, weak, header_based, consistency, timing,
    fingerprint, webgl2.
  respect.
Qed.

(** What follows the header-based signals. *)
Lemma respects_after_headers (browserData : value) (headers : gmap string string)
    (userAgent platform : string) :
  respects R
    (consistency browserData headers userAgent platform ;; timing browserData ;;
     fingerprint browserData ;; webgl2 browserData userAgent)%M.
Proof. unfold consistency, timing, fingerprint, webgl2. respect. Qed.

End Respects.

Lemma signal_addSignal_consistent (name : string) (detected : bool) (weight : Z)
    (passReason failReason : text) (category : string) (a : acc) :
  consistent a ->
  consistent (SignalEvaluator.addSignal name detected weight passReason failReason category a).
Proof.
  unfold consistent, SignalEvaluator.addSignal. intros agree.
  destruct detected; cbn [signals score]; rewrite detected_weight_snoc; cbn; lia.
Qed.

Lemma signal_evaluator_scored (browserData : value) (headers : gmap string string)
    (v : Verdict.t) :
  SignalEvaluator.analyzeBotSignals browserData headers = Normal v -> scored v.
Proof.
  unfold SignalEvaluator.analyzeBotSignals.
  destruct (SignalEvaluator.string_receiver _) as [userAgent|]; cbn [cbind]; [|discriminate].
  destruct (SignalEvaluator.string_receiver _) as [platform|]; cbn [cbind]; [|discriminate].
  destruct (SignalEvaluator.rules _ _ _ _ acc0) as [[[] a]|] eqn:ran; cbn [cbind]; [|discriminate].
  intros [= <-].
  apply (thresholds a); try reflexivity.
  apply (respects_rules (fun s s' => consistent s -> consistent s')) in ran;
    [apply ran, consistent_acc0|auto|auto|].
  intros. apply signal_addSignal_consistent. assumption.
Qed.

(** ** Conversions that find their method *)

Lemma value_induction (P : value -> Prop) :
  P VUndef -> P VNull -> (forall b, P (VBool b)) -> (forall x, P (VNum x)) ->
  (forall s, P (VStr s)) ->
  (forall xs, Forall P xs -> P (VArr xs)) ->
  (forall fields, Forall (fun field => P field.2) fields -> P (VObj fields)) ->
  forall v, P v.
Proof.
  intros HU HN HB HX HS HA HO. fix IH 1.
  intros [ | |b|x|s|xs|fields];
    [exact HU|exact HN|apply HB|apply HX|apply HS| | ].
  - apply HA. induction xs as [|y ys IHys]; constructor; [apply IH|exact IHys].
  - apply HO. induction fields as [|[k y] ys IHys]; constructor; [apply IH|exact IHys].
Qed.

Lemma returns_normal {A} (a : A) : returns (Normal a).
Proof. exists a. reflexivity. Qed.

Lemma returns_cbind {A B} (c : completion A) (k : A -> completion B) :
  returns c -> (forall a, returns (k a)) -> returns (cbind c k).
Proof. intros [a ->] Hk. apply Hk. Qed.

Lemma clean_ToString (v : value) : clean v = true -> returns (ToString v).
Proof.
  induction v as [ | |b|x|s|xs IH|fields IH] using value_induction; intros ok;
    try apply returns_normal.
  - cbn [ToString].
    match goal with
    | |- returns (?join true xs) =>
        cut (forall first, returns (join first xs)); [intros every; apply every|]
    end.
    cbn [clean] in ok.
    induction IH as [|y ys Hy _ IHys]; intros first; [apply returns_normal|].
    cbn [forallb] in ok. apply andb_true_iff in ok as [ok_y ok_ys].
    apply returns_cbind.
    + destruct y; try apply returns_normal; apply Hy, ok_y.
    + intros t. apply returns_cbind; [apply IHys, ok_ys|intros r; apply returns_normal].
  - cbn [ToString]. cbn [clean] in ok. apply andb_true_iff in ok as [-> _].
    apply returns_normal.
Qed.

Lemma clean_ToNumber (v : value) : clean v = true -> returns (ToNumber v).
Proof.
  induction v as [ | |b|x|s|xs IH|fields IH] using value_induction; intros ok;
    try apply returns_normal.
  - cbn [ToNumber]. apply returns_cbind; [apply clean_ToString, ok|intros _].
    destruct IH as [|y ys Hy _]; [apply returns_normal|].
    destruct ys; [|apply returns_normal].
    cbn [clean forallb] in ok. apply andb_true_iff in ok as [ok_y _].
    destruct y; try apply returns_normal. apply Hy, ok_y.
  - cbn [ToNumber]. apply returns_cbind; [apply clean_ToString, ok|intros _].
    apply returns_normal.
Qed.

Lemma clean_ToPrimitive (v : value) : clean v = true -> returns (ToPrimitive v).
Proof.
  intros ok. destruct v; try apply returns_normal;
    (apply returns_cbind; [apply clean_ToString, ok|intros t; apply returns_normal]).
Qed.

Lemma clean_own (k : string) (fields : list (string * value)) (v : value) :
  forallb (fun field => clean field.2) fields = true -> own k fields = Some v -> clean v = true.
Proof.
  induction fields as [|[k' v'] rest IH]; cbn [own forallb]; [discriminate|].
  intros ok. apply andb_true_iff in ok as [ok_v ok_rest].
  destruct (String.eqb k k'); [intros [= <-]; exact ok_v|apply IH, ok_rest].
Qed.

Lemma clean_get (v : value) (k : string) : clean v = true -> clean v?.k = true.
Proof.
  destruct v; cbn [get clean]; try reflexivity.
  - destruct (String.eqb k "length"); reflexivity.
  - destruct (String.eqb k "length"); reflexivity.
  - intros ok. apply andb_true_iff in ok as [_ ok].
    destruct (own k fields) as [v|] eqn:found; [|reflexivity].
    cbn. eapply clean_own; eauto.
Qed.

Lemma clean_or (a b : value) : clean a = true -> clean b = true -> clean (or a b) = true.
Proof. intros. unfold or. destruct (ToBoolean a); assumption. Qed.

Lemma clean_nullish (a b : value) :
  clean a = true -> clean b = true -> clean (nullish a b) = true.
Proof. intros. destruct a; assumption. Qed.

Lemma string_or_falsy_cases (v : value) :
  string_or_falsy v = true -> (exists s, v = VStr s) \/ ToBoolean v = false.
Proof. destruct v; cbn; intros typed; eauto; right; apply negb_true_iff, typed. Qed.

Lemma or_string (v : value) :
  string_or_falsy v = true -> exists s, or v (VStr "") = VStr s.
Proof.
  intros typed. unfold or.
  destruct (string_or_falsy_cases v typed) as [[s ->]|falsy].
  - destruct (ToBoolean (VStr s)); eauto.
  - rewrite falsy. eauto.
Qed.

Lemma or_or_string (a b : value) :
  string_or_falsy a = true -> string_or_falsy b = true ->
  exists s, or (or a b) (VStr "") = VStr s.
Proof.
  intros typed_a typed_b. unfold or at 2. destruct (ToBoolean a); apply or_string; assumption.
Qed.

(** ** The Signal Evaluator returns on a clean, well-typed bundle *)

Section Totality.

Import SignalEvaluator.

Lemma returns_gt_num (v : value) (c : float) : clean v = true -> returns (gt_num v c).
Proof. intros ok. apply returns_cbind; [apply clean_ToNumber, ok|intros; apply returns_normal]. Qed.

Lemma returns_lt_num (v : value) (c : float) : clean v = true -> returns (lt_num v c).
Proof. intros ok. apply returns_cbind; [apply clean_ToNumber, ok|intros; apply returns_normal]. Qed.

Lemma returns_sub (a b : value) : clean a = true -> clean b = true -> returns (JS.sub a b).
Proof.
  intros ok_a ok_b. apply returns_cbind; [apply clean_ToNumber, ok_a|intros x].
  apply returns_cbind; [apply clean_ToNumber, ok_b|intros; apply returns_normal].
Qed.

Lemma returns_template (ps : list part) :
  Forall (fun p => match p with V v => clean v = true | _ => True end) ps ->
  returns (template ps).
Proof.
  induction 1 as [|p ps ok _ IH]; [apply returns_normal|].
  cbn [template]. apply returns_cbind.
  - destruct p; try apply returns_normal. apply clean_ToString, ok.
  - intros t. apply returns_cbind; [exact IH|intros; apply returns_normal].
Qed.

Lemma returns_c_and (a b : completion bool) : returns a -> returns b -> returns (c_and a b).
Proof. intros [x ->] Hb. cbn. destruct x; [exact Hb|apply returns_normal]. Qed.

Lemma returns_c_or (a b : completion bool) : returns a -> returns b -> returns (c_or a b).
Proof. intros [x ->] Hb. cbn. destruct x; [apply returns_normal|exact Hb]. Qed.

Lemma returns_c_not (a : completion bool) : returns a -> returns (c_not a).
Proof. intros [x ->]. apply returns_normal. Qed.

Lemma total_ret {A} (a : A) : total (ret a).
Proof. intros s. eexists. reflexivity. Qed.

Lemma total_bind {A B} (m : M A) (k : A -> M B) :
  total m -> (forall a, total (k a)) -> total (bind m k).
Proof.
  intros Hm Hk s. unfold bind. destruct (Hm s) as [[a s1] ->]. cbn. apply Hk.
Qed.

Lemma total_bind_lift {A B} (c : completion A) (k : A -> M B) :
  returns c -> (forall a, total (k a)) -> total (bind (lift c) k).
Proof. intros [a ->] Hk s. unfold bind, lift. cbn. apply Hk. Qed.

Lemma total_call (name : string) (detected : completion bool) (weight : Z)
    (passReason failReason : completion text) (category : string) :
  returns detected -> returns passReason -> returns failReason ->
  total (call name detected weight passReason failReason category).
Proof. intros [d ->] [p ->] [f ->] s. eexists. reflexivity. Qed.

Lemma total_when (b : bool) (m : M unit) : total m -> total (when b m).
Proof. intros Hm. destruct b; [exact Hm|apply total_ret]. Qed.

Ltac cleaning :=
  repeat first
    [ assumption | reflexivity | apply clean_get | apply clean_or | apply clean_nullish ].

Ltac returning :=
  repeat first
    [ apply returns_normal
    | apply returns_gt_num; cleaning
    | apply returns_lt_num; cleaning
    | apply returns_sub; cleaning
    | apply clean_ToPrimitive; cleaning
    | apply returns_template; repeat constructor; cleaning
    | apply returns_c_and
    | apply returns_c_or
    | apply returns_c_not
    | apply returns_cbind; [|intros ?]
    | match goal with |- returns (if ?c then _ else _) => destruct c end ].

Ltac totality :=
  cbv zeta;
  repeat first
    [ apply total_call; returning
    | apply total_ret
    | apply total_when
    | apply total_bind_lift; [returning|intros ?]
    | apply total_bind; [|intros ?]
    | match goal with |- total (let '(_, _) := ?p in _) => destruct p end ].

Variable browserData : value.
Variable headers : gmap string string.
Variables userAgent platform : string.
Hypothesis ok : clean browserData = true.
Hypothesis typed : well_typed browserData = true.

Lemma total_critical : total (critical browserData).
Proof. unfold critical. totality. Qed.

Lemma total_essential : total (essential browserData).
Proof. unfold essential. totality. Qed.

Lemma total_strong : total (strong browserData userAgent).
Proof. unfold strong. totality. Qed.

Lemma total_weak : total (weak browserData userAgent).
Proof. unfold weak. totality. Qed.

Lemma total_header_based : total (header_based headers userAgent).
Proof. unfold header_based. totality. Qed.

Lemma total_timing : total (timing browserData).
Proof. unfold timing. totality. Qed.

Lemma total_fingerprint : total (fingerprint browserData).
Proof. unfold fingerprint. totality. Qed.

Lemma total_webgl2 : total (webgl2 browserData userAgent).
Proof. unfold webgl2. totality. Qed.

Lemma total_medium : total (medium browserData).
Proof.
  unfold well_typed in typed. cbn [forallb] in typed. rewrite !andb_true_iff in typed.
  destruct typed as (_ & _ & _ & _ & renderer1 & renderer2 & vendor1 & vendor2 & _).
  unfold medium. cbv zeta.
  destruct (or_or_string _ _ renderer1 renderer2) as [renderer ->].
  destruct (or_or_string _ _ vendor1 vendor2) as [vendor ->].
  totality.
Qed.

Lemma total_consistency : total (consistency browserData headers userAgent platform).
Proof.
  unfold well_typed in typed. cbn [forallb] in typed. rewrite !andb_true_iff in typed.
  destruct typed as (_ & _ & vendor_ok & language_ok & _ & _ & _ & _ & timezone_ok & hints_ok & _).
  unfold consistency, SignalEvaluator.vendor. cbv zeta.
  destruct (or_string _ vendor_ok) as [vendor ->].
  destruct (or_string _ language_ok) as [language ->].
  destruct (or_string _ timezone_ok) as [timezone ->].
  destruct (string_or_falsy_cases _ hints_ok) as [[hints ->]| ->]; cbn [andb]; totality.
Qed.

Lemma total_rules : total (rules browserData headers userAgent platform).
Proof.
  unfold rules.
  repeat first
    [ apply total_webgl2
    | apply total_bind;
      [first [ apply total_critical | apply total_essential | apply total_strong
             | apply total_medium | apply total_weak | apply total_header_based
             | apply total_consistency | apply total_timing | apply total_fingerprint ]
      |intros _] ].
Qed.

End Totality.

Lemma signal_evaluator_returns (browserData : value) (headers : gmap string string) :
  clean browserData = true -> well_typed browserData = true ->
  returns (SignalEvaluator.analyzeBotSignals browserData headers).
Proof.
  intros ok typed. pose proof typed as fields.
  unfold well_typed in fields. cbn [forallb] in fields. rewrite !andb_true_iff in fields.
  destruct fields as (userAgent_ok & platform_ok & _).
  unfold SignalEvaluator.analyzeBotSignals.
  destruct (or_string _ userAgent_ok) as [userAgent ->].
  destruct (or_string _ platform_ok) as [platform ->].
  cbn [SignalEvaluator.string_receiver cbind].
  destruct (total_rules browserData headers userAgent platform ok typed acc0) as [r ->].
  apply returns_normal.
Qed.

(** C1.  Whatever the headers, the Header Evaluator returns a verdict
    whose score is [min(100, sum of the weights of the detected signals)],
    whose [signals] are the detected ones of [allSignals], and whose verdict
    and confidence follow the thresholds 50 and 25.  So does every verdict
    the Signal Evaluator returns; and it returns one for every bundle that is
    clean and well typed (on others a string method or a conversion may
    throw). *)
Theorem evaluators_scored :
  (forall headers, scored (HeaderEvaluator.analyzeHeadersOnly headers))
  /\ (forall browserData headers v,
        SignalEvaluator.analyzeBotSignals browserData headers = Normal v -> scored v)
  /\ (forall browserData headers,
        clean browserData = true -> well_typed browserData = true ->
        returns (SignalEvaluator.analyzeBotSignals browserData headers)).
Proof.
  split; [exact header_evaluator_scored|].
  split; [exact signal_evaluator_scored|exact signal_evaluator_returns].
Qed.

Lemma evaluators_scored_witness :
  clean (firefox solved) = true /\ well_typed (firefox solved) = true
  /\ exists v, SignalEvaluator.analyzeBotSignals (firefox solved) httpie_headers = Normal v
               /\ scored v.
Proof.
  split; [reflexivity|]. split; [reflexivity|].
  destruct evaluators_scored as (_ & sound & complete).
  destruct (complete (firefox solved) httpie_headers eq_refl eq_refl) as [v ran].
  exists v. split; [exact ran|exact (sound _ _ _ ran)].
Defined.

(** A [userAgent] that is a number: [.includes] is not a function. *)
Lemma number_as_userAgent_throws :
  SignalEvaluator.analyzeBotSignals
    (VObj [("navigator", VObj [("userAgent", VNum (of_Z 5))])]) httpie_headers = Throw.
Proof. reflexivity. Qed.

(** ** The [botUserAgent] rule of the Signal Evaluator *)

Lemma bind_returns {A B} (m : SignalEvaluator.M A) (k : A -> SignalEvaluator.M B)
    (s : acc) (r : B * acc) :
  SignalEvaluator.bind m k s = Normal r ->
  exists a s1, m s = Normal (a, s1) /\ k a s1 = Normal r.
Proof.
  unfold SignalEvaluator.bind. destruct (m s) as [[a s1]|]; cbn; [eauto|discriminate].
Qed.

Lemma extends_refl (a : acc) : extends a a.
Proof. exists []. symmetry. apply app_nil_r. Qed.

Lemma extends_trans (a b c : acc) : extends a b -> extends b c -> extends a c.
Proof.
  intros [l Hl] [k Hk]. exists (l ++ k)%list. rewrite Hk, Hl. symmetry. apply app_assoc.
Qed.

Lemma extends_addSignal (name : string) (detected : bool) (weight : Z)
    (passReason failReason : text) (category : string) (a : acc) :
  extends a (SignalEvaluator.addSignal name detected weight passReason failReason category a).
Proof. unfold SignalEvaluator.addSignal. destruct detected; eexists; reflexivity. Qed.

Lemma elem_of_extends (a b : acc) (x : Signal.t) :
  extends a b -> x ∈ signals a -> x ∈ signals b.
Proof. intros [l ->] found. apply elem_of_app. left. exact found. Qed.

Lemma header_based_pushes (headers : gmap string string) (userAgent : string)
    (s s' : acc) :
  SignalEvaluator.header_based headers userAgent s = Normal (tt, s') ->
  botUserAgent_signal headers ∈ signals s'.
Proof.
  unfold SignalEvaluator.header_based, botUserAgent_signal, matched_pattern,
    SignalEvaluator.headerUA.
  cbv zeta. destruct (List.find _ SignalEvaluator.botPatterns) as [p|];
    destruct (SignalEvaluator.isChrome userAgent); cbn; intros [= <-];
    repeat (eapply elem_of_extends; [apply extends_addSignal|]);
    cbn [signals]; apply elem_of_app; right; apply list_elem_of_singleton; reflexivity.
Qed.

(** Whenever the Signal Evaluator returns, [allSignals] holds the
    [botUserAgent] signal of weight 25: detected, with the first pattern of
    its own list that the lower-cased header contains in the reason, or not
    detected when the header contains none of them. *)
Lemma botUserAgent_pushed (browserData : value) (headers : gmap string string)
    (v : Verdict.t) :
  SignalEvaluator.analyzeBotSignals browserData headers = Normal v ->
  botUserAgent_signal headers ∈ Verdict.allSignals v.
Proof.
  unfold SignalEvaluator.analyzeBotSignals.
  destruct (SignalEvaluator.string_receiver _) as [userAgent|]; cbn [cbind]; [|discriminate].
  destruct (SignalEvaluator.string_receiver _) as [platform|]; cbn [cbind]; [|discriminate].
  destruct (SignalEvaluator.rules _ _ _ _ acc0) as [[[] a]|] eqn:ran; cbn [cbind]; [|discriminate].
  intros [= <-]. cbn [Verdict.allSignals snd].
  unfold SignalEvaluator.rules in ran.
  do 5 (apply bind_returns in ran as (_ & ? & _ & ran)).
  apply bind_returns in ran as ([] & s6 & pushed & ran).
  apply (respects_after_headers extends extends_refl extends_trans extends_addSignal) in ran
    as [l ->].
  apply elem_of_app. left. eapply header_based_pushes, pushed.
Qed.

(** A header that contains one of the six client patterns and none of the
    fifty listed ones is never flagged. *)
Lemma client_pattern_not_flagged (browserData : value) (headers : gmap string string)
    (v : Verdict.t) :
  SignalEvaluator.analyzeBotSignals browserData headers = Normal v ->
  matched_pattern headers = None ->
  Signal.mk "botUserAgent" false 25 (lit "User-Agent appears legitimate") (Some "headers")
    ∈ Verdict.allSignals v.
Proof.
  intros ran none. apply botUserAgent_pushed in ran.
  unfold botUserAgent_signal in ran. rewrite none in ran. exact ran.
Qed.

(** ** The verify handler and the age of a challenge *)

(** A stored challenge is found whatever its age: the answer of a verify
    call with primitive timing fields is never "not found". *)
Lemma verify_ignores_age (req : request) (now : Z) (st : state) (id : string)
    (fields : list (string * value)) (stored : Challenge.t) :
  body req = VObj fields ->
  (body req)?."challengeId" = VStr id ->
  challenges st !! id = Some stored ->
  primitive (body req)?."timingProof" = true ->
  primitive (body req)?."executionTime" = true ->
  exists timingValid,
    (post_verify req now st).1
    = Normal (Checked (strict_eq (body req)?."answer"
                         (VNum (of_Z (Challenge.expectedAnswer stored))))
                timingValid (body req)?."executionTime" (now - Challenge.timestamp stored)).
Proof.
  intros shape same found proof_ok time_ok. unfold post_verify. rewrite shape in *.
  rewrite same, find_challenge_string, found.
  destruct (ToNumber_primitive _ proof_ok) as [x1 Hx1].
  destruct (ToNumber_primitive _ time_ok) as [x2 Hx2].
  unfold JS.sub, gt_num, lt_num. rewrite Hx1, Hx2. cbn.
  repeat match goal with |- context [if ?c then _ else _] => destruct c end; cbn; eauto.
Qed.

(** C8.  A first verify call whose [timingProof] has no primitive value
    (an object with a property of its own named [toString]) throws before
    the challenge is deleted: nothing is written, the challenge stays in the
    store, and a second verify call with the same id is not answered "not
    found" but checked against the stored answer. *)
Theorem unanswered_verify_can_be_replayed (req1 : request) (now1 : Z) (st : state)
    (id : string) (stored : Challenge.t) (fields : list (string * value)) :
  (body req1)?."challengeId" = VStr id ->
  challenges st !! id = Some stored ->
  (body req1)?."timingProof" = VObj fields ->
  object_converts fields = false ->
  post_verify req1 now1 st = (Throw, st)
  /\ forall req2 now2 fields2,
       body req2 = VObj fields2 ->
       (body req2)?."challengeId" = VStr id ->
       primitive (body req2)?."timingProof" = true ->
       primitive (body req2)?."executionTime" = true ->
       exists timingValid,
         (post_verify req2 now2 (post_verify req1 now1 st).2).1
         = Normal (Checked (strict_eq (body req2)?."answer"
                              (VNum (of_Z (Challenge.expectedAnswer stored))))
                     timingValid (body req2)?."executionTime"
                     (now2 - Challenge.timestamp stored)).
Proof.
  intros same found proof unconvertible.
  assert (post_verify req1 now1 st = (Throw, st)) as threw.
  { unfold post_verify.
    destruct (body req1) eqn:shape; try discriminate same.
    rewrite same, find_challenge_string, found, proof. cbn [ToBoolean].
    unfold JS.sub. cbn [ToNumber ToString]. rewrite unconvertible. reflexivity. }
  split; [exact threw|].
  intros req2 now2 fields2 shape2 same2 proof_ok time_ok. rewrite threw. cbn [snd].
  exact (verify_ignores_age req2 now2 st id fields2 stored shape2 same2 found proof_ok time_ok).
Qed.

Lemma unanswered_verify_can_be_replayed_witness :
  post_verify proof_without_primitive (noon + 200) issued_at_noon = (Throw, issued_at_noon)
  /\ (post_verify (solution 20) (noon + 400)
        (post_verify proof_without_primitive (noon + 200) issued_at_noon).2).1
     = Normal (Checked true (VBool true) (VNum (of_Z 15)) 400).
Proof.
  destruct (unanswered_verify_can_be_replayed proof_without_primitive (noon + 200)
              issued_at_noon "k3j9x0q2mzp"
              (Challenge.mk 20 noon (getClientIp navigation)) [("toString", VNull)]
              eq_refl eq_refl eq_refl eq_refl) as [threw _].
  split; [exact threw|]. rewrite threw. vm_compute. reflexivity.
Defined.

(** ** What counts as essential data *)

(** The handler tests [window] for truthiness only: with a number in its
    place (and the other three tests passed) the request is not rejected
    early and the evaluator runs. *)
Lemma truthy_window_is_enough :
  let browserData :=
    VObj [("screen", VObj [("width", VNum (of_Z 1920))]);
          ("navigator", VObj [("userAgent", VStr "Mozilla/5.0")]);
          ("window", VNum (of_Z 1)); ("jsChallenge", solved)] in
  hasEssentialData browserData = Normal true
  /\ Verdict.code <$>
       match (post_bot (json browserData) fetched_at_noon).1 with
       | Normal v => Some v
       | Throw => None
       end = Some None.
Proof. vm_compute. split; reflexivity. Qed.


(** ** The rule tables of the two evaluators *)

Lemma header_addSignal_rule (name : string) (detected : bool) (weight : Z)
    (passReason failReason : text) (a : acc) :
  map rule_of (signals (HeaderEvaluator.addSignal name detected weight passReason failReason a))
  = (map rule_of (signals a) ++ [(name, weight, None)])%list.
Proof. destruct detected; cbn [HeaderEvaluator.addSignal signals]; rewrite map_app; reflexivity. Qed.

Lemma header_rules_table (headers : gmap string string) :
  map rule_of (signals (HeaderEvaluator.rules headers acc0)) = header_rule_table.
Proof.
  unfold HeaderEvaluator.rules. cbv zeta. rewrite !header_addSignal_rule. reflexivity.
Qed.

Lemma detected_or_not (l : list Signal.t) :
  len (filter (fun s => Signal.detected s = true) l)
  + len (filter (fun s => Signal.detected s = false) l) = len l.
Proof.
  unfold len. induction l as [|s l IH]; [reflexivity|].
  rewrite !filter_cons. destruct (Signal.detected s) eqn:d.
  - rewrite decide_True, decide_False by (try reflexivity; discriminate). cbn [List.length]. lia.
  - rewrite decide_False, decide_True by (try reflexivity; discriminate). cbn [List.length]. lia.
Qed.

(** X1.  Whatever the headers, the Header Evaluator runs its twelve rules,
    each once and in source order, with the weights of the table and no
    category: [totalChecks] is 12, and every rule is counted as flagged or
    as passed. *)
Theorem header_evaluator_table (headers : gmap string string) :
  map rule_of (Verdict.allSignals (HeaderEvaluator.analyzeHeadersOnly headers))
  = header_rule_table
  /\ Summary.totalChecks (Verdict.summary (HeaderEvaluator.analyzeHeadersOnly headers)) = 12
  /\ Summary.flagged (Verdict.summary (HeaderEvaluator.analyzeHeadersOnly headers))
     + Summary.passed (Verdict.summary (HeaderEvaluator.analyzeHeadersOnly headers)) = 12.
Proof.
  pose proof (header_rules_table headers) as table.
  assert (len (signals (HeaderEvaluator.rules headers acc0)) = 12) as twelve.
  { unfold len. rewrite <- (length_map rule_of), table. reflexivity. }
  split; [exact table|]. split; [exact twelve|].
  cbn [HeaderEvaluator.analyzeHeadersOnly Verdict.summary Summary.flagged Summary.passed].
  rewrite detected_or_not. exact twelve.
Qed.

Section Tables.

Import SignalEvaluator.

Lemma pushes_ret {A} (a : A) : pushes [] (ret a).
Proof. intros s a' s' [= _ <-]. exists []. rewrite app_nil_r. split; [reflexivity|constructor]. Qed.

Lemma pushes_lift {A} (c : completion A) : pushes [] (lift c).
Proof.
  intros s a s'. unfold lift. destruct c; cbn; [|discriminate].
  intros [= _ <-]. exists []. rewrite app_nil_r. split; [reflexivity|constructor].
Qed.

Lemma pushes_bind {A B} (t1 t2 : list (string * Z * option string)) (m : M A) (k : A -> M B) :
  pushes t1 m -> (forall a, pushes t2 (k a)) -> pushes (t1 ++ t2) (bind m k).
Proof.
  intros Hm Hk s b s'. unfold bind. destruct (m s) as [[a s1]|] eqn:first; cbn; [|discriminate].
  intros second.
  destruct (Hm _ _ _ first) as (l1 & eq1 & sub1).
  destruct (Hk _ _ _ _ second) as (l2 & eq2 & sub2).
  exists (l1 ++ l2)%list. split.
  - rewrite eq2, eq1, app_assoc. reflexivity.
  - rewrite map_app. apply sublist_app; assumption.
Qed.

Lemma pushes_call (name : string) (detected : completion bool) (weight : Z)
    (passReason failReason : completion text) (category : string) :
  pushes [(name, weight, Some category)] (call name detected weight passReason failReason category).
Proof.
  intros s a s'. unfold call.
  destruct detected as [d|], passReason, failReason; cbn; try discriminate.
  intros [= _ <-]. destruct d; eexists [_]; (split; [reflexivity|]); cbn; reflexivity.
Qed.

Lemma pushes_when (t : list (string * Z * option string)) (b : bool) (m : M unit) :
  pushes t m -> pushes t (when b m).
Proof.
  intros Hm. destruct b; [exact Hm|].
  intros s a s' ran. destruct (pushes_ret tt _ _ _ ran) as (l & eq & sub).
  exists l. split; [exact eq|]. etrans; [exact sub|apply sublist_nil_l].
Qed.

Ltac pushing :=
  cbv zeta;
  repeat lazymatch goal with
    | |- pushes _ (call _ _ _ _ _ _) => apply pushes_call
    | |- pushes _ (ret _) => apply pushes_ret
    | |- pushes _ (lift _) => apply pushes_lift
    | |- pushes _ (when _ _) => apply pushes_when
    | |- pushes _ (bind _ _) => eapply pushes_bind; [|intro]
    | |- pushes _ (let '(_, _) := ?p in _) => destruct p
    end.

Lemma pushes_rules (browserData : value) (headers : gmap string string)
    (userAgent platform : string) :
  pushes signal_rule_table (rules browserData headers userAgent platform).
Proof.
  cut (exists t, t = signal_rule_table /\ pushes t (rules browserData headers userAgent platform)).
  { intros (t & -> & H). exact H. }
  eexists. split; cycle 1.
  - unfold rules, critical, essential, strong, medium, weak, header_based, consistency, timing,
      fingerprint, webgl2.
    pushing.
  - reflexivity.
Qed.

Lemma counts_ret {A} (a : A) : counts 0 0 (ret a).
Proof. intros s a' s' [= _ <-]. exists []. rewrite app_nil_r. cbn. split; [reflexivity|lia]. Qed.

Lemma counts_lift {A} (c : completion A) : counts 0 0 (lift c).
Proof.
  intros s a s'. unfold lift. destruct c; cbn; [|discriminate].
  intros [= _ <-]. exists []. rewrite app_nil_r. cbn. split; [reflexivity|lia].
Qed.

Lemma counts_bind {A B} (lo1 hi1 lo2 hi2 : nat) (m : M A) (k : A -> M B) :
  counts lo1 hi1 m -> (forall a, counts lo2 hi2 (k a)) ->
  counts (lo1 + lo2) (hi1 + hi2) (bind m k).
Proof.
  intros Hm Hk s b s'. unfold bind. destruct (m s) as [[a s1]|] eqn:first; cbn; [|discriminate].
  intros second.
  destruct (Hm _ _ _ first) as (l1 & eq1 & bound1).
  destruct (Hk _ _ _ _ second) as (l2 & eq2 & bound2).
  exists (l1 ++ l2)%list. split.
  - rewrite eq2, eq1, app_assoc. reflexivity.
  - rewrite length_app. lia.
Qed.

Lemma counts_call (name : string) (detected : completion bool) (weight : Z)
    (passReason failReason : completion text) (category : string) :
  counts 1 1 (call name detected weight passReason failReason category).
Proof.
  intros s a s'. unfold call.
  destruct detected as [d|], passReason, failReason; cbn; try discriminate.
  intros [= _ <-]. destruct d; eexists [_]; (split; [reflexivity|]); cbn; lia.
Qed.

Lemma counts_when_true (lo hi : nat) (m : M unit) : counts lo hi m -> counts lo hi (when true m).
Proof. intros Hm. exact Hm. Qed.

Lemma counts_when_false (m : M unit) : counts 0 0 (when false m).
Proof. apply counts_ret. Qed.

Lemma counts_when (lo hi : nat) (b : bool) (m : M unit) :
  counts lo hi m -> counts 0 hi (when b m).
Proof.
  intros Hm. destruct b.
  - intros s a s' ran. destruct (Hm _ _ _ ran) as (l & eq & bound).
    exists l. split; [exact eq|lia].
  - intros s a s' ran. destruct (counts_ret tt _ _ _ ran) as (l & eq & bound).
    exists l. split; [exact eq|lia].
Qed.

Lemma counts_weaken {A} (lo hi lo' hi' : nat) (m : M A) :
  counts lo hi m -> (lo' <= lo)%nat -> (hi <= hi')%nat -> counts lo' hi' m.
Proof.
  intros Hm low high s a s' ran. destruct (Hm _ _ _ ran) as (l & eq & bound).
  exists l. split; [exact eq|lia].
Qed.

Ltac counting :=
  cbv zeta;
  repeat lazymatch goal with
    | |- counts _ _ (call _ _ _ _ _ _) => apply counts_call
    | |- counts _ _ (ret _) => apply counts_ret
    | |- counts _ _ (lift _) => apply counts_lift
    | |- counts _ _ (when true _) => apply counts_when_true
    | |- counts _ _ (when false _) => apply counts_when_false
    | |- counts _ _ (when _ _) => eapply counts_when
    | |- counts _ _ (bind _ _) => eapply counts_bind; [|intro]
    | |- counts _ _ (let '(_, _) := ?p in _) => destruct p
    end.

Lemma counts_rules (browserData : value) (headers : gmap string string)
    (userAgent platform : string) :
  counts 64 70 (rules browserData headers userAgent platform).
Proof.
  unfold rules, critical, essential, strong, medium, weak, header_based, consistency, timing,
    fingerprint, webgl2.
  destruct (isMobileUA userAgent); cbn [negb];
    (eapply counts_weaken; [counting|vm_compute; lia..]).
Qed.

End Tables.


Lemma analyzed (browserData : value) (headers : gmap string string) (v : Verdict.t) :
  SignalEvaluator.analyzeBotSignals browserData headers = Normal v ->
  exists userAgent platform a,
    SignalEvaluator.rules browserData headers userAgent platform acc0 = Normal (tt, a)
    /\ Verdict.allSignals v = signals a
    /\ Verdict.signals v = filter (fun s => Signal.detected s = true) (signals a)
    /\ Verdict.signalsByCategory v = Some (SignalEvaluator.groupByCategory (signals a))
    /\ Verdict.summary v
       = {| Summary.totalChecks := len (signals a);
            Summary.flagged := len (filter (fun s => Signal.detected s = true) (signals a));
            Summary.passed := len (filter (fun s => Signal.detected s = false) (signals a)) |}.
Proof.
  unfold SignalEvaluator.analyzeBotSignals.
  destruct (SignalEvaluator.string_receiver _) as [userAgent|]; cbn [cbind]; [|discriminate].
  destruct (SignalEvaluator.string_receiver _) as [platform|]; cbn [cbind]; [|discriminate].
  destruct (SignalEvaluator.rules _ _ _ _ acc0) as [[[] a]|] eqn:ran; cbn [cbind]; [|discriminate].
  intros [= <-]. exists userAgent, platform, a. repeat split. exact ran.
Qed.

Lemma signal_table_names : NoDup (map (fun r : string * Z * option string => r.1.1) signal_rule_table).
Proof. apply (bool_decide_unpack _). vm_compute. exact I. Qed.

Lemma signal_table_rules : Forall weighted_and_filed signal_rule_table.
Proof.
  unfold signal_rule_table, weighted_and_filed, categories.
  repeat (apply Forall_cons; split;
          [split; [reflexivity|eexists; split; [reflexivity|set_solver]]|]).
  apply Forall_nil. exact I.
Qed.

Lemma sublist_Forall_of {A} (P : A -> Prop) (l k : list A) :
  sublist l k -> Forall P k -> Forall P l.
Proof.
  intros sub all. rewrite Forall_forall in *. intros x elem. apply all.
  eapply elem_of_sublist; eassumption.
Qed.

Lemma pushed_from_table (browserData : value) (headers : gmap string string) (v : Verdict.t) :
  SignalEvaluator.analyzeBotSignals browserData headers = Normal v ->
  sublist (map rule_of (Verdict.allSignals v)) signal_rule_table.
Proof.
  intros ran. destruct (analyzed _ _ _ ran) as (userAgent & platform & a & body & -> & _).
  destruct (pushes_rules _ _ _ _ _ _ _ body) as (l & eq & sub).
  cbn [signals acc0 app] in eq. rewrite eq. exact sub.
Qed.

Lemma pushed_distinct (browserData : value) (headers : gmap string string) (v : Verdict.t) :
  SignalEvaluator.analyzeBotSignals browserData headers = Normal v ->
  NoDup (map Signal.name (Verdict.allSignals v)).
Proof.
  intros ran. pose proof (pushed_from_table _ _ _ ran) as sub.
  apply (sublist_NoDup _ (map (fun r : string * Z * option string => r.1.1) signal_rule_table));
    [exact signal_table_names|].
  replace (map Signal.name (Verdict.allSignals v))
    with (map (fun r : string * Z * option string => r.1.1)
            (map rule_of (Verdict.allSignals v)))
    by (rewrite map_map; reflexivity).
  apply (fmap_sublist (fun r : string * Z * option string => r.1.1)). exact sub.
Qed.

Lemma pushed_filed (browserData : value) (headers : gmap string string) (v : Verdict.t) :
  SignalEvaluator.analyzeBotSignals browserData headers = Normal v ->
  Forall (fun s => 0 < Signal.weight s
                   /\ exists c, Signal.category s = Some c /\ c ∈ categories)
    (Verdict.allSignals v).
Proof.
  intros ran. pose proof (pushed_from_table _ _ _ ran) as sub.
  pose proof (sublist_Forall_of _ _ _ sub signal_table_rules) as every.
  rewrite Forall_map in every. exact every.
Qed.

(** X2.  The signals of a verdict the Signal Evaluator returns follow its
    rule table: their names, weights and categories are, in order, those of
    rules of the table, each rule at most once.  So no two signals of a
    verdict share a name, every weight is positive, and every category is
    one of the eight the source uses (never the default [general]). *)
Theorem signal_evaluator_table (browserData : value) (headers : gmap string string)
    (v : Verdict.t) :
  SignalEvaluator.analyzeBotSignals browserData headers = Normal v ->
  sublist (map rule_of (Verdict.allSignals v)) signal_rule_table
  /\ NoDup (map Signal.name (Verdict.allSignals v))
  /\ Forall (fun s => 0 < Signal.weight s
                      /\ exists c, Signal.category s = Some c /\ c ∈ categories)
       (Verdict.allSignals v).
Proof.
  intros ran. split; [|split].
  - exact (pushed_from_table _ _ _ ran).
  - exact (pushed_distinct _ _ _ ran).
  - exact (pushed_filed _ _ _ ran).
Qed.

Lemma signal_evaluator_table_witness :
  exists v, SignalEvaluator.analyzeBotSignals (firefox solved) httpie_headers = Normal v
            /\ NoDup (map Signal.name (Verdict.allSignals v)).
Proof.
  destruct (signal_evaluator_returns (firefox solved) httpie_headers eq_refl eq_refl) as [v ran].
  exists v. split; [exact ran|].
  exact (proj1 (proj2 (signal_evaluator_table _ _ _ ran))).
Defined.

(** X3.  A verdict the Signal Evaluator returns reports between 64 and 70
    checks (63 rules always run, exactly one of the two touch rules, and up
    to six that depend on the browser and the challenge); [totalChecks]
    counts [allSignals], [flagged] counts [signals], and [flagged] and
    [passed] add up to [totalChecks]. *)
Theorem signal_evaluator_counts (browserData : value) (headers : gmap string string)
    (v : Verdict.t) :
  SignalEvaluator.analyzeBotSignals browserData headers = Normal v ->
  64 <= Summary.totalChecks (Verdict.summary v) <= 70
  /\ Summary.totalChecks (Verdict.summary v) = len (Verdict.allSignals v)
  /\ Summary.flagged (Verdict.summary v) = len (Verdict.signals v)
  /\ Summary.flagged (Verdict.summary v) + Summary.passed (Verdict.summary v)
     = Summary.totalChecks (Verdict.summary v).
Proof.
  intros ran.
  destruct (analyzed _ _ _ ran) as (userAgent & platform & a & body & -> & -> & _ & ->).
  cbn [Summary.totalChecks Summary.flagged Summary.passed].
  destruct (counts_rules _ _ _ _ _ _ _ body) as (l & eq & bound).
  cbn [signals acc0 app] in eq. split; [|split; [reflexivity|split; [reflexivity|]]].
  - rewrite eq. unfold len. lia.
  - apply detected_or_not.
Qed.

Lemma signal_evaluator_counts_witness :
  exists v, SignalEvaluator.analyzeBotSignals (firefox solved) httpie_headers = Normal v
            /\ 64 <= Summary.totalChecks (Verdict.summary v) <= 70.
Proof.
  destruct (signal_evaluator_returns (firefox solved) httpie_headers eq_refl eq_refl) as [v ran].
  exists v. split; [exact ran|].
  exact (proj1 (signal_evaluator_counts _ _ _ ran)).
Defined.

Lemma detected_weight_nonneg (l : list Signal.t) :
  Forall (fun s => 0 < Signal.weight s) l -> 0 <= detected_weight l.
Proof.
  induction 1 as [|s l positive _ IH]; cbn; [lia|].
  fold (detected_weight l). destruct (Signal.detected s); lia.
Qed.

(** X4.  The score of a verdict of either evaluator lies between 0 and
    100, and [maxScore] is 100. *)
Theorem scores_bounded :
  (forall headers,
     0 <= Verdict.score (HeaderEvaluator.analyzeHeadersOnly headers) <= 100
     /\ Verdict.maxScore (HeaderEvaluator.analyzeHeadersOnly headers) = 100)
  /\ (forall browserData headers v,
        SignalEvaluator.analyzeBotSignals browserData headers = Normal v ->
        0 <= Verdict.score v <= 100 /\ Verdict.maxScore v = 100).
Proof.
  split.
  - intros headers. split; [|reflexivity].
    destruct (header_evaluator_scored headers) as (-> & _).
    cbn [HeaderEvaluator.analyzeHeadersOnly Verdict.allSignals].
    assert (Forall (fun s => 0 < Signal.weight s) (signals (HeaderEvaluator.rules headers acc0)))
      as positive.
    { apply (Forall_map rule_of (fun r : string * Z * option string => 0 < r.1.2)).
      rewrite header_rules_table. unfold header_rule_table.
      repeat (apply Forall_cons; split; [reflexivity|]). apply Forall_nil. exact I. }
    apply detected_weight_nonneg in positive. lia.
  - intros browserData headers v ran.
    destruct (signal_evaluator_scored _ _ _ ran) as (-> & _).
    pose proof (pushed_filed _ _ _ ran) as every.
    assert (0 <= detected_weight (Verdict.allSignals v)) as nonneg.
    { apply detected_weight_nonneg. eapply Forall_impl; [exact every|]. intros s [positive _].
      exact positive. }
    split; [lia|].
    revert ran. unfold SignalEvaluator.analyzeBotSignals.
    destruct (SignalEvaluator.string_receiver _); cbn [cbind]; [|discriminate].
    destruct (SignalEvaluator.string_receiver _); cbn [cbind]; [|discriminate].
    destruct (SignalEvaluator.rules _ _ _ _ acc0); cbn [cbind]; [|discriminate].
    intros [= <-]. reflexivity.
Qed.

Lemma scores_bounded_witness :
  exists v, SignalEvaluator.analyzeBotSignals (firefox solved) httpie_headers = Normal v
            /\ 0 <= Verdict.score v <= 100.
Proof.
  destruct (signal_evaluator_returns (firefox solved) httpie_headers eq_refl eq_refl) as [v ran].
  exists v. split; [exact ran|].
  exact (proj1 (proj2 scores_bounded _ _ _ ran)).
Defined.

(** *** Grouping by category *)

Lemma push_category_known (c : string) (s : Signal.t) (g : list (string * list Signal.t)) :
  c ∈ map fst g -> map fst (SignalEvaluator.push_category c s g) = map fst g.
Proof.
  induction g as [|[c0 l0] g IH]; cbn [SignalEvaluator.push_category map fst].
  - intros elem. inversion elem.
  - intros elem. destruct (String.eqb_spec c0 c) as [->|other]; [reflexivity|].
    cbn [map fst]. f_equal. apply IH.
    apply elem_of_cons in elem as [->|elem]; [congruence|exact elem].
Qed.

Lemma push_category_new (c : string) (s : Signal.t) (g : list (string * list Signal.t)) :
  c ∉ map fst g -> map fst (SignalEvaluator.push_category c s g) = (map fst g ++ [c])%list.
Proof.
  induction g as [|[c0 l0] g IH]; cbn [SignalEvaluator.push_category map fst]; [reflexivity|].
  intros fresh. rewrite not_elem_of_cons in fresh. destruct fresh as [other fresh].
  destruct (String.eqb_spec c0 c) as [->|_]; [congruence|].
  cbn [map fst app]. f_equal. apply IH, fresh.
Qed.

Lemma push_category_elem (c : string) (s : Signal.t) (g : list (string * list Signal.t))
    (c' : string) (group : list Signal.t) :
  NoDup (map fst g) ->
  (c', group) ∈ SignalEvaluator.push_category c s g ->
  (c' <> c /\ (c', group) ∈ g)
  \/ (c' = c /\ exists l, (c, l) ∈ g /\ group = (l ++ [s])%list)
  \/ (c' = c /\ (c ∉ map fst g) /\ group = [s]).
Proof.
  induction g as [|[c0 l0] g IH]; cbn [SignalEvaluator.push_category map fst].
  - intros _ elem. apply list_elem_of_singleton in elem. injection elem as -> ->.
    right. right. split; [reflexivity|]. split; [exact (not_elem_of_nil c)|reflexivity].
  - intros distinct elem. apply NoDup_cons in distinct as [fresh distinct].
    destruct (String.eqb_spec c0 c) as [->|other].
    + apply elem_of_cons in elem as [[= -> ->]|elem].
      * right. left. split; [reflexivity|]. exists l0. split; [left|reflexivity].
      * left. split; [|right; exact elem].
        intros ->. apply fresh. apply (list_elem_of_fmap_2 fst) in elem. exact elem.
    + apply elem_of_cons in elem as [[= -> ->]|elem].
      * left. split; [exact other|left].
      * destruct (IH distinct elem) as [[differs kept]|[[-> (l & kept & ->)]|[-> [unseen ->]]]].
        -- left. split; [exact differs|right; exact kept].
        -- right. left. split; [reflexivity|]. exists l. split; [right; exact kept|reflexivity].
        -- right. right. split; [reflexivity|]. split; [|reflexivity].
           rewrite not_elem_of_cons. split; [congruence|exact unseen].
Qed.

Lemma filter_snoc_category (c : string) (l : list Signal.t) (s : Signal.t) :
  filter (fun s => SignalEvaluator.category_or_general s = c) (l ++ [s])%list
  = (filter (fun s => SignalEvaluator.category_or_general s = c) l
     ++ (if decide (SignalEvaluator.category_or_general s = c) then [s] else []))%list.
Proof. rewrite filter_app. f_equal. Qed.

Lemma filter_none {A} (P : A -> Prop) `{forall x, Decision (P x)} (l : list A) :
  Forall (fun x => ~ P x) l -> filter P l = [].
Proof.
  induction 1 as [|x l no _ IH]; [reflexivity|].
  rewrite filter_cons, decide_False by exact no. exact IH.
Qed.

Lemma grouped_push (l : list Signal.t) (g : list (string * list Signal.t)) (s : Signal.t) :
  grouped l g ->
  grouped (l ++ [s])%list
    (SignalEvaluator.push_category (SignalEvaluator.category_or_general s) s g).
Proof.
  intros (distinct & groups & keys). unfold grouped. split; [|split].
  - destruct (decide (SignalEvaluator.category_or_general s ∈ map fst g)) as [known|fresh].
    + rewrite push_category_known by exact known. exact distinct.
    + rewrite push_category_new by exact fresh. apply NoDup_app. split; [exact distinct|].
      split; [|apply NoDup_singleton].
      intros c elem here. apply list_elem_of_singleton in here. subst c. exact (fresh elem).
  - intros c group elem. rewrite filter_snoc_category.
    destruct (push_category_elem _ _ _ _ _ distinct elem)
      as [[differs kept]|[[-> (l0 & kept & ->)]|[-> [unseen ->]]]].
    + rewrite decide_False by congruence. rewrite app_nil_r. apply groups, kept.
    + rewrite decide_True by reflexivity. destruct (groups _ _ kept) as [_ <-].
      split; [|reflexivity]. destruct l0; discriminate.
    + rewrite decide_True by reflexivity. split; [discriminate|].
      replace (filter _ l) with (@nil Signal.t); [reflexivity|].
      symmetry. apply filter_none. rewrite Forall_forall. intros s0 elem0 same.
      apply unseen. rewrite <- same. apply keys, elem0.
  - intros s0 elem. apply elem_of_app in elem as [elem|here].
    + destruct (decide (SignalEvaluator.category_or_general s ∈ map fst g)) as [known|fresh].
      * rewrite push_category_known by exact known. apply keys, elem.
      * rewrite push_category_new by exact fresh. apply elem_of_app. left. apply keys, elem.
    + apply list_elem_of_singleton in here. subst s0.
      destruct (decide (SignalEvaluator.category_or_general s ∈ map fst g)) as [known|fresh].
      * rewrite push_category_known by exact known. exact known.
      * rewrite push_category_new by exact fresh. apply elem_of_app. right. left.
Qed.

Lemma grouped_groupByCategory (l : list Signal.t) :
  grouped l (SignalEvaluator.groupByCategory l).
Proof.
  induction l as [|s l IH] using rev_ind.
  - split; [constructor|]. split; [intros c group elem; inversion elem|intros s elem; inversion elem].
  - unfold SignalEvaluator.groupByCategory. rewrite fold_left_app. cbn [fold_left].
    apply grouped_push. exact IH.
Qed.

Lemma category_filed (s : Signal.t) (c : string) :
  Signal.category s = Some c -> c ∈ categories -> SignalEvaluator.category_or_general s = c.
Proof.
  intros filed known. unfold SignalEvaluator.category_or_general. rewrite filed.
  destruct (String.eqb_spec c "") as [->|_]; [|reflexivity].
  exfalso. apply list_elem_of_In in known. cbn in known. intuition discriminate.
Qed.

Lemma filter_filed (c : string) (l : list Signal.t) :
  Forall (fun s => exists c0, Signal.category s = Some c0 /\ c0 ∈ categories) l ->
  filter (fun s => SignalEvaluator.category_or_general s = c) l
  = filter (fun s => Signal.category s = Some c) l.
Proof.
  induction 1 as [|s l (c0 & filed & known) _ IH]; [reflexivity|].
  rewrite !filter_cons, IH. rewrite (category_filed _ _ filed known), filed.
  destruct (decide (c0 = c)) as [->|other].
  - rewrite decide_True by reflexivity. reflexivity.
  - rewrite decide_False by congruence. reflexivity.
Qed.

(** X5.  [signalsByCategory] of a verdict the Signal Evaluator returns
    partitions [allSignals]: its keys are distinct and among the eight
    categories, the group of a key is never empty and holds exactly the
    signals of that category, in the order of [allSignals], and every signal
    is in a group. *)
Theorem signals_by_category (browserData : value) (headers : gmap string string)
    (v : Verdict.t) :
  SignalEvaluator.analyzeBotSignals browserData headers = Normal v ->
  exists g,
    Verdict.signalsByCategory v = Some g
    /\ NoDup (map fst g)
    /\ (forall c group, (c, group) ∈ g ->
          c ∈ categories /\ group <> []
          /\ group = filter (fun s => Signal.category s = Some c) (Verdict.allSignals v))
    /\ (forall s, s ∈ Verdict.allSignals v -> exists c group, (c, group) ∈ g /\ s ∈ group).
Proof.
  intros ran. pose proof (pushed_filed _ _ _ ran) as every.
  assert (Forall (fun s => exists c0, Signal.category s = Some c0 /\ c0 ∈ categories)
            (Verdict.allSignals v)) as filed.
  { eapply Forall_impl; [exact every|]. intros s [_ known]. exact known. }
  destruct (analyzed _ _ _ ran) as (userAgent & platform & a & _ & all & _ & by_category & _).
  rewrite all in *. exists (SignalEvaluator.groupByCategory (signals a)).
  destruct (grouped_groupByCategory (signals a)) as (distinct & groups & keys).
  split; [exact by_category|]. split; [exact distinct|]. split.
  - intros c group elem. destruct (groups _ _ elem) as [inhabited members].
    rewrite <- (filter_filed c _ filed). split; [|split; assumption].
    destruct group as [|s group]; [congruence|].
    assert (s ∈ filter (fun s => SignalEvaluator.category_or_general s = c) (signals a))
      as member by (rewrite <- members; left).
    apply list_elem_of_filter in member as [same elem_s].
    rewrite Forall_forall in filed. destruct (filed _ elem_s) as (c0 & is_filed & known).
    rewrite (category_filed _ _ is_filed known) in same. subst c0. exact known.
  - intros s elem. pose proof (keys _ elem) as key.
    apply list_elem_of_fmap in key as ([c group] & same & member). cbn [fst] in same.
    exists c, group. split; [exact member|].
    destruct (groups _ _ member) as [_ ->]. apply list_elem_of_filter. split; [|exact elem].
    exact same.
Qed.

Lemma signals_by_category_witness :
  exists v g, SignalEvaluator.analyzeBotSignals (firefox solved) httpie_headers = Normal v
              /\ Verdict.signalsByCategory v = Some g /\ NoDup (map fst g).
Proof.
  destruct (signal_evaluator_returns (firefox solved) httpie_headers eq_refl eq_refl) as [v ran].
  destruct (signals_by_category _ _ _ ran) as (g & stored & distinct & _).
  exists v, g. split; [exact ran|]. split; [exact stored|exact distinct].
Defined.


(** ** Timers and the sessions they watch *)

Lemma sweep_kept (old : gmap string Visit.t) (pending : gmap nat string) (t : nat) (ip : string) :
  map_fold (fun _ visit p => clearTimeout (Visit.timeoutId visit) p) pending old !! t = Some ip
  <-> pending !! t = Some ip /\ forall k v, old !! k = Some v -> Visit.timeoutId v <> Some t.
Proof.
  apply (map_fold_weak_ind
           (fun (r : gmap nat string) (m : gmap string Visit.t) =>
              r !! t = Some ip
              <-> pending !! t = Some ip
                  /\ forall k v, m !! k = Some v -> Visit.timeoutId v <> Some t)).
  - split; [|tauto]. intros found. split; [exact found|].
    intros k v. rewrite lookup_empty. discriminate.
  - intros i x m r fresh IH. unfold clearTimeout.
    destruct (Visit.timeoutId x) as [t'|] eqn:tid.
    + rewrite lookup_delete_Some, IH. split.
      * intros (other & found & none). split; [exact found|]. intros k v tracked.
        destruct (decide (k = i)) as [->|neq].
        -- rewrite lookup_insert_eq in tracked. injection tracked as <-. congruence.
        -- rewrite lookup_insert_ne in tracked by congruence. exact (none _ _ tracked).
      * intros (found & none). split; [|split; [exact found|]].
        -- intros ->. apply (none i x); [apply lookup_insert_eq|exact tid].
        -- intros k v tracked. apply (none k v).
           rewrite lookup_insert_ne; [exact tracked|]. intros ->. congruence.
    + rewrite IH. split; intros (found & none); (split; [exact found|]); intros k v tracked.
      * destruct (decide (k = i)) as [->|neq].
        -- rewrite lookup_insert_eq in tracked. injection tracked as <-. congruence.
        -- rewrite lookup_insert_ne in tracked by congruence. exact (none _ _ tracked).
      * apply (none k v). rewrite lookup_insert_ne; [exact tracked|]. intros ->. congruence.
Qed.

Lemma expired_now (id : nat) (now : Z) (completed called : bool) (t : option nat)
    (final : option Verdict.t) :
  expired now (Visit.mk id now completed called t final) = false.
Proof. unfold expired. cbn [Visit.timestamp]. rewrite Z.sub_diag. reflexivity. Qed.

Lemma trackPageVisit_visits (ip : string) (now : Z) (st : state) (ip' : string) (v' : Visit.t) :
  pageVisits (trackPageVisit ip now st) !! ip' = Some v'
  <-> (ip' = ip /\ v' = Visit.mk (nextTimer st) now false false (Some (nextTimer st)) None)
      \/ (ip' <> ip /\ pageVisits st !! ip' = Some v' /\ expired now v' = false).
Proof.
  unfold trackPageVisit. cbn [pageVisits]. rewrite map_lookup_filter_Some. cbn [snd].
  destruct (decide (ip' = ip)) as [->|other].
  - rewrite lookup_insert_eq. split.
    + intros [[= <-] _]. left. split; reflexivity.
    + intros [[_ ->]|[neq _]]; [|congruence]. split; [reflexivity|apply expired_now].
  - rewrite lookup_insert_ne by congruence. split.
    + intros [found fresh]. right. repeat split; assumption.
    + intros [[same _]|(_ & found & fresh)]; [congruence|]. split; assumption.
Qed.

Lemma trackPageVisit_timers (ip : string) (now : Z) (st : state) (t : nat) (ip' : string) :
  timers (trackPageVisit ip now st) !! t = Some ip'
  <-> ((t = nextTimer st /\ ip' = ip)
       \/ (t <> nextTimer st /\ timers st !! t = Some ip'
           /\ forall v, pageVisits st !! ip = Some v -> Visit.timeoutId v <> Some t))
      /\ forall k v, k <> ip -> pageVisits st !! k = Some v -> expired now v = true ->
           Visit.timeoutId v <> Some t.
Proof.
  unfold trackPageVisit. cbn [timers]. rewrite sweep_kept.
  match goal with
  | |- ?A /\ ?B <-> ?C /\ ?D => cut ((A <-> C) /\ (B <-> D)); [tauto|split]
  end.
  - destruct (decide (t = nextTimer st)) as [->|other].
    + rewrite lookup_insert_eq. split.
      * intros [= <-]. left. split; reflexivity.
      * intros [[_ ->]|[neq _]]; [reflexivity|congruence].
    + rewrite lookup_insert_ne by congruence.
      destruct (pageVisits st !! ip) as [existing|].
      * unfold clearTimeout. destruct (Visit.timeoutId existing) as [t'|] eqn:tid.
        -- rewrite lookup_delete_Some. split.
           ++ intros [neq found]. right. split; [exact other|]. split; [exact found|].
              intros v [= <-]. congruence.
           ++ intros [[same _]|(_ & found & cleared)]; [congruence|]. split; [|exact found].
              intros ->. exact (cleared existing eq_refl tid).
        -- split.
           ++ intros found. right. split; [exact other|]. split; [exact found|].
              intros v [= <-]. congruence.
           ++ intros [[same _]|(_ & found & _)]; [congruence|exact found].
      * split.
        -- intros found. right. split; [exact other|]. split; [exact found|]. discriminate.
        -- intros [[same _]|(_ & found & _)]; [congruence|exact found].
  - split.
    + intros none k v other tracked old. apply (none k v).
      apply map_lookup_filter_Some. split; [|exact old].
      rewrite lookup_insert_ne by congruence. exact tracked.
    + intros none k v found. apply map_lookup_filter_Some in found as [found old].
      cbn [snd] in old. destruct (decide (k = ip)) as [->|other].
      * rewrite lookup_insert_eq in found. injection found as <-.
        rewrite expired_now in old. discriminate.
      * rewrite lookup_insert_ne in found by congruence. exact (none k v other found old).
Qed.

Lemma markBotApiCalled_timers (ip : string) (st : state) (t : nat) (ip' : string) :
  timers (markBotApiCalled ip st) !! t = Some ip'
  <-> timers st !! t = Some ip'
      /\ forall v, pageVisits st !! ip = Some v -> Visit.timeoutId v <> Some t.
Proof.
  unfold markBotApiCalled. destruct (pageVisits st !! ip) as [v|]; cbn [timers].
  - unfold clearTimeout. destruct (Visit.timeoutId v) as [t'|] eqn:tid.
    + rewrite lookup_delete_Some. split.
      * intros [neq found]. split; [exact found|]. intros v0 [= <-]. congruence.
      * intros [found cleared]. split; [|exact found]. intros ->. exact (cleared v eq_refl tid).
    + split; [|tauto]. intros found. split; [exact found|]. intros v0 [= <-]. congruence.
  - split; [|tauto]. intros found. split; [exact found|]. discriminate.
Qed.

Lemma markVisitComplete_timers (ip : string) (st : state) :
  timers (markVisitComplete ip st) = timers st.
Proof. unfold markVisitComplete. destruct (pageVisits st !! ip); reflexivity. Qed.

Lemma bot_handler_timers (analyze : value -> gmap string string -> completion Verdict.t)
    (req : request) (st : state) :
  timers (bot_handler analyze req st).2 = timers (markBotApiCalled (getClientIp req) st).
Proof.
  unfold bot_handler.
  destruct (hasEssentialData _) as [essential|]; [|reflexivity].
  destruct (negb essential || negb _); [reflexivity|].
  destruct (analyze _ _); [|reflexivity].
  cbn [snd print timers]. apply markVisitComplete_timers.
Qed.

Lemma bot_handler_other (analyze : value -> gmap string string -> completion Verdict.t)
    (req : request) (st : state) (ip : string) :
  ip <> getClientIp req ->
  pageVisits (bot_handler analyze req st).2 !! ip = pageVisits st !! ip.
Proof.
  intros other.
  assert (pageVisits (markBotApiCalled (getClientIp req) st) !! ip = pageVisits st !! ip)
    as marked.
  { unfold markBotApiCalled. destruct (pageVisits st !! getClientIp req); [|reflexivity].
    cbn [pageVisits]. apply lookup_insert_ne. congruence. }
  destruct (bot_handler_visits analyze req st) as [-> | ->]; [exact marked|].
  unfold markVisitComplete.
  destruct (pageVisits (markBotApiCalled (getClientIp req) st) !! getClientIp req);
    [|exact marked].
  cbn [set_visits pageVisits]. rewrite lookup_insert_ne by congruence. exact marked.
Qed.

Lemma onTimeout_timers (ip : string) (st : state) : timers (onTimeout ip st) = timers st.
Proof.
  unfold onTimeout, deliverBotVerdict. destruct (pageVisits st !! ip) as [v|]; [|reflexivity].
  destruct (negb (Visit.botApiCalled v)); [|reflexivity].
  destruct (Visit.completed v); reflexivity.
Qed.

Lemma fire_timers (timeoutId : nat) (st : state) :
  timers (fire timeoutId st) = delete timeoutId (timers st).
Proof.
  unfold fire. destruct (timers st !! timeoutId) eqn:pending.
  - rewrite onTimeout_timers. reflexivity.
  - symmetry. apply delete_id. exact pending.
Qed.

Lemma fire_other (timeoutId : nat) (st : state) (ip0 ip : string) :
  timers st !! timeoutId = Some ip0 -> ip <> ip0 ->
  pageVisits (fire timeoutId st) !! ip = pageVisits st !! ip.
Proof.
  intros pending other. unfold fire. rewrite pending. unfold onTimeout, deliverBotVerdict.
  cbn [pageVisits]. destruct (pageVisits st !! ip0) as [v|]; [|reflexivity].
  destruct (negb (Visit.botApiCalled v)); [|reflexivity].
  destruct (Visit.completed v); [reflexivity|].
  cbn [pageVisits]. apply lookup_insert_ne. congruence.
Qed.

Lemma fire_pending (timeoutId : nat) (st : state) (ip : string) (v : Visit.t) :
  timers st !! timeoutId = Some ip -> pageVisits st !! ip = Some v ->
  Visit.botApiCalled v = false -> Visit.completed v = false ->
  pageVisits (fire timeoutId st) !! ip = Some (timed_out v)
  /\ console (fire timeoutId st)
     = (console st
        ++ [BotVerdict ip
              "Fetched page but never called /api/bot within 5 seconds (no JS execution)"
              false false])%list.
Proof.
  intros pending tracked idle open. unfold fire. rewrite pending.
  unfold onTimeout, deliverBotVerdict. cbn [pageVisits]. rewrite tracked, idle. cbn [negb].
  rewrite open. cbn [pageVisits console]. rewrite lookup_insert_eq.
  split; reflexivity.
Qed.

Lemma quiet_step (st : state) (e : event) :
  match e with
  | Document _ _ | PostBot _ | Fire _ => False
  | _ => True
  end ->
  pageVisits (step st e) = pageVisits st /\ timers (step st e) = timers st.
Proof.
  destruct e as [req now|req now id a b op|req now|req|req now|req|req|t];
    intros quiet; try contradiction; cbn [step]; try (split; reflexivity).
  split; [apply post_verify_visits|].
  unfold post_verify.
  destruct (body req); try reflexivity;
    (destruct (find_challenge _ st); [|reflexivity]);
    match goal with |- context [match ?c with Normal _ => _ | Throw => _ end] => destruct c end;
    try reflexivity; unfold forget_challenge;
    match goal with |- context [match ?c with VStr _ => _ | _ => _ end] => destruct c end;
    reflexivity.
Qed.

Lemma wired_initial : wired initial.
Proof.
  unfold wired, own_timer, armed, watched. cbn [initial pageVisits timers].
  split; [|split]; intros *; rewrite lookup_empty; discriminate.
Qed.

Lemma wired_document (req : request) (now : Z) (st : state) :
  invariant st -> wired st -> wired (step st (Document req now)).
Proof.
  intros (below & unique & _) (own & pending & guard).
  cbn [step]. unfold document_request, wired, own_timer, armed, watched.
  cbn [print pageVisits timers]. set (ip := getClientIp req).
  split; [|split].
  - intros ip' v' found. apply trackPageVisit_visits in found as [[_ ->]|(_ & found & _)].
    + right. reflexivity.
    + exact (own _ _ found).
  - intros t ip' found.
    apply trackPageVisit_timers in found as [[[-> ->]|(other & found & kept)] swept].
    + eexists. split; [apply trackPageVisit_visits; left; split; reflexivity|].
      repeat split.
    + destruct (pending _ _ found) as (v & tracked & tid & facts).
      assert (ip' <> ip) as neq. { intros ->. exact (kept v tracked tid). }
      exists v. split; [|split; [exact tid|exact facts]].
      apply trackPageVisit_visits. right. split; [exact neq|]. split; [exact tracked|].
      destruct (expired now v) eqn:old; [|reflexivity].
      exfalso. exact (swept ip' v neq tracked old tid).
  - intros ip' v' found idle open.
    apply trackPageVisit_visits in found as [[-> ->]|(neq & found & young)].
    + cbn [Visit.id Visit.timeoutId]. split; [reflexivity|].
      apply trackPageVisit_timers. split; [left; split; reflexivity|].
      intros k v _ tracked _ tid. pose proof (below _ _ tracked) as small.
      destruct (own _ _ tracked) as [none|same]; [congruence|].
      rewrite same in tid. injection tid as tid. lia.
    + destruct (guard _ _ found idle open) as [tid waiting]. split; [exact tid|].
      apply trackPageVisit_timers. split.
      * right. split; [pose proof (below _ _ found); lia|]. split; [exact waiting|].
        intros v tracked same. destruct (own _ _ tracked) as [none|mine]; [congruence|].
        rewrite mine in same. injection same as same.
        apply neq. exact (unique _ _ _ _ found tracked (eq_sym same)).
      * intros k v other tracked old same.
        destruct (own _ _ tracked) as [none|mine]; [congruence|].
        rewrite mine in same. injection same as same.
        pose proof (unique _ _ _ _ found tracked (eq_sym same)) as <-.
        rewrite found in tracked. injection tracked as <-. congruence.
Qed.

Lemma wired_post_bot (req : request) (st : state) :
  invariant st -> wired st -> wired (step st (PostBot req)).
Proof.
  intros (below & unique & _) (own & pending & guard).
  unfold wired, own_timer, armed, watched. split; [|split].
  - intros ip v' found.
    destruct (step_written _ _ _ _ found)
      as [kept|? ? [=]|req0 v c [= <-] -> tracked _ ->|? ? [=]].
    + exact (own _ _ kept).
    + left. reflexivity.
  - intros t ip found. cbn [step] in *. unfold post_bot in *.
    rewrite bot_handler_timers in found. apply markBotApiCalled_timers in found as [found kept].
    destruct (pending _ _ found) as (v & tracked & tid & facts).
    exists v. split; [|split; [exact tid|exact facts]].
    rewrite bot_handler_other; [exact tracked|].
    intros ->. exact (kept v tracked tid).
  - intros ip v' found idle open.
    destruct (step_written _ _ _ _ found)
      as [kept|? ? [=]|req0 v c [= <-] -> tracked _ ->|? ? [=]]; [|discriminate idle].
    destruct (guard _ _ kept idle open) as [tid waiting]. split; [exact tid|].
    cbn [step] in *. unfold post_bot in *. rewrite bot_handler_timers.
    apply markBotApiCalled_timers. split; [exact waiting|].
    intros v tracked same. destruct (own _ _ tracked) as [none|mine]; [congruence|].
    rewrite mine in same. injection same as same.
    pose proof (unique _ _ _ _ kept tracked (eq_sym same)) as ->.
    rewrite kept in tracked. injection tracked as <-.
    exfalso.
    destruct (bot_handler_visits SignalEvaluator.analyzeBotSignals req st) as [same'|same'];
      rewrite same' in found; unfold markVisitComplete, markBotApiCalled in found;
      rewrite kept in found; cbn [pageVisits] in found;
      rewrite lookup_insert_eq in found; cbn [set_visits pageVisits] in found;
      rewrite ?lookup_insert_eq in found; injection found as found;
      rewrite <- found in idle; discriminate idle.
Qed.

Lemma wired_fire (timeoutId : nat) (st : state) :
  wired st -> wired (step st (Fire timeoutId)).
Proof.
  intros (own & pending & guard). cbn [step].
  destruct (timers st !! timeoutId) as [ip0|] eqn:due; cycle 1.
  { unfold fire. rewrite due. split; [|split]; assumption. }
  destruct (pending _ _ due) as (v0 & tracked0 & tid0 & idle0 & open0 & none0).
  destruct (fire_pending _ _ _ _ due tracked0 idle0 open0) as [frozen0 _].
  unfold wired, own_timer, armed, watched. rewrite fire_timers.
  split; [|split].
  - intros ip v' found. destruct (decide (ip = ip0)) as [->|other].
    + rewrite frozen0 in found. injection found as <-. cbn [timed_out Visit.timeoutId Visit.id].
      exact (own _ _ tracked0).
    + rewrite (fire_other _ _ _ _ due other) in found. exact (own _ _ found).
  - intros t ip found. apply lookup_delete_Some in found as [neq found].
    destruct (pending _ _ found) as (v & tracked & tid & facts).
    assert (ip <> ip0) as other.
    { intros ->. rewrite tracked0 in tracked. injection tracked as <-. congruence. }
    exists v. rewrite (fire_other _ _ _ _ due other). split; [exact tracked|].
    split; [exact tid|exact facts].
  - intros ip v' found idle open. destruct (decide (ip = ip0)) as [->|other].
    + rewrite frozen0 in found. injection found as <-. discriminate open.
    + rewrite (fire_other _ _ _ _ due other) in found.
      destruct (guard _ _ found idle open) as [tid waiting]. split; [exact tid|].
      apply lookup_delete_Some. split; [|exact waiting].
      intros ->. rewrite due in waiting. congruence.
Qed.

Lemma wired_step (st : state) (e : event) : invariant st -> wired st -> wired (step st e).
Proof.
  intros good tight.
  destruct e as [req now|req now id a b op|req now|req|req now|req|req|t].
  - apply wired_document; assumption.
  - destruct (quiet_step st (GetChallenge req now id a b op) I) as [visits pending].
    unfold wired, own_timer, armed, watched. rewrite visits, pending. exact tight.
  - destruct (quiet_step st (PostVerify req now) I) as [visits pending].
    unfold wired, own_timer, armed, watched. rewrite visits, pending. exact tight.
  - apply wired_post_bot; assumption.
  - destruct (quiet_step st (GetVisitStatus req now) I) as [visits pending].
    unfold wired, own_timer, armed, watched. rewrite visits, pending. exact tight.
  - destruct (quiet_step st (PostVisit req) I) as [visits pending].
    unfold wired, own_timer, armed, watched. rewrite visits, pending. exact tight.
  - destruct (quiet_step st (Other req) I) as [visits pending].
    unfold wired, own_timer, armed, watched. rewrite visits, pending. exact tight.
  - apply wired_fire; assumption.
Qed.

Lemma wired_reachable (st : state) : reachable st -> wired st.
Proof.
  intros [trace ->]. induction trace as [|e trace IH] using rev_ind; [exact wired_initial|].
  rewrite run_snoc. apply wired_step; [|exact IH].
  apply invariant_run, invariant_initial.
Qed.


(** X6.  In every reachable state the timers and the sessions agree.  A
    pending timer watches the session tracked under its address: the one
    that was opened with it, which has not called the analysis endpoint, is
    not complete and holds no final verdict.  And every session that has not
    called the analysis endpoint and holds no final verdict has its timer
    pending. *)
Theorem timers_watch_sessions (st : state) :
  reachable st ->
  (forall t ip, timers st !! t = Some ip ->
     exists v, pageVisits st !! ip = Some v /\ Visit.id v = t /\ Visit.timeoutId v = Some t
               /\ Visit.botApiCalled v = false /\ Visit.completed v = false
               /\ Visit.finalVerdict v = None)
  /\ (forall ip v, pageVisits st !! ip = Some v ->
        Visit.botApiCalled v = false -> Visit.finalVerdict v = None ->
        timers st !! Visit.id v = Some ip /\ Visit.completed v = false).
Proof.
  intros reached. destruct (wired_reachable st reached) as (own & pending & guard). split.
  - intros t ip due. destruct (pending _ _ due) as (v & tracked & tid & facts).
    exists v. split; [exact tracked|]. split; [|split; [exact tid|exact facts]].
    destruct (own _ _ tracked) as [none|mine]; congruence.
  - intros ip v tracked idle open. destruct (guard _ _ tracked idle open) as [_ due].
    split; [exact due|].
    destruct (pending _ _ due) as (v' & tracked' & _ & _ & incomplete & _). congruence.
Qed.

Lemma timers_watch_sessions_witness :
  exists v, pageVisits fetched_at_noon !! visitor = Some v /\ Visit.id v = 0%nat
            /\ Visit.botApiCalled v = false /\ Visit.completed v = false.
Proof.
  assert (reachable fetched_at_noon) as reached
    by (exists [Document navigation noon]; reflexivity).
  destruct (proj1 (timers_watch_sessions fetched_at_noon reached) 0%nat visitor eq_refl)
    as (v & tracked & first & _ & idle & open & _).
  exists v. repeat split; assumption.
Defined.

(** X7.  In a reachable state the callback of a pending timer always
    delivers: it prints the [[bot-verdict]] line for its address, marks the
    session complete with the timeout verdict, the timer is gone, and the
    status of the address is the timeout verdict from then on. *)
Theorem pending_timer_delivers (st : state) (timeoutId : nat) (ip : string) (now : Z) :
  reachable st ->
  timers st !! timeoutId = Some ip ->
  exists v,
    pageVisits st !! ip = Some v
    /\ pageVisits (step st (Fire timeoutId)) !! ip = Some (timed_out v)
    /\ console (step st (Fire timeoutId))
       = (console st
          ++ [BotVerdict ip
                "Fetched page but never called /api/bot within 5 seconds (no JS execution)"
                false false])%list
    /\ timers (step st (Fire timeoutId)) !! timeoutId = None
    /\ getVisitVerdict ip now (step st (Fire timeoutId)) = Final frozen.
Proof.
  intros reached due. destruct (wired_reachable st reached) as (_ & pending & _).
  destruct (pending _ _ due) as (v & tracked & _ & idle & open & _).
  destruct (fire_pending _ _ _ _ due tracked idle open) as [after printed_line].
  exists v. cbn [step]. split; [exact tracked|]. split; [exact after|].
  split; [exact printed_line|]. split.
  - rewrite fire_timers. apply lookup_delete_eq.
  - unfold getVisitVerdict. rewrite after. reflexivity.
Qed.

Lemma pending_timer_delivers_witness :
  getVisitVerdict visitor (noon + 5000) (step fetched_at_noon (Fire 0%nat)) = Final frozen.
Proof.
  assert (reachable fetched_at_noon) as reached
    by (exists [Document navigation noon]; reflexivity).
  destruct (pending_timer_delivers fetched_at_noon 0%nat visitor (noon + 5000) reached eq_refl)
    as (v & _ & _ & _ & _ & answer).
  exact answer.
Defined.

(** ** What each request leaves alone *)

Lemma markBotApiCalled_tracked (ip : string) (st : state) (ip' : string) :
  is_Some (pageVisits (markBotApiCalled ip st) !! ip') <-> is_Some (pageVisits st !! ip').
Proof.
  unfold markBotApiCalled. destruct (pageVisits st !! ip) as [v|] eqn:tracked; [|reflexivity].
  cbn [pageVisits]. destruct (decide (ip' = ip)) as [->|other].
  - rewrite lookup_insert_eq, tracked. split; eauto.
  - rewrite lookup_insert_ne by congruence. reflexivity.
Qed.

Lemma markVisitComplete_tracked (ip : string) (st : state) (ip' : string) :
  is_Some (pageVisits (markVisitComplete ip st) !! ip') <-> is_Some (pageVisits st !! ip').
Proof.
  unfold markVisitComplete. destruct (pageVisits st !! ip) as [v|] eqn:tracked; [|reflexivity].
  cbn [set_visits pageVisits]. destruct (decide (ip' = ip)) as [->|other].
  - rewrite lookup_insert_eq, tracked. split; eauto.
  - rewrite lookup_insert_ne by congruence. reflexivity.
Qed.

Lemma onTimeout_tracked (ip : string) (st : state) (ip' : string) :
  is_Some (pageVisits (onTimeout ip st) !! ip') <-> is_Some (pageVisits st !! ip').
Proof.
  unfold onTimeout, deliverBotVerdict.
  destruct (pageVisits st !! ip) as [v|] eqn:tracked; [|reflexivity].
  destruct (negb (Visit.botApiCalled v)); [|reflexivity].
  destruct (Visit.completed v); [reflexivity|].
  cbn [pageVisits]. destruct (decide (ip' = ip)) as [->|other].
  - rewrite lookup_insert_eq, tracked. split; eauto.
  - rewrite lookup_insert_ne by congruence. reflexivity.
Qed.

(** X8.  Only a page fetch opens or drops a session: after any other
    request, or a timer, the same addresses are tracked as before, no timer
    has been armed, and the pending timers are among those that were
    pending. *)
Theorem sessions_change_on_page_fetch_only (st : state) (e : event) :
  is_document e = false ->
  (forall ip, is_Some (pageVisits (step st e) !! ip) <-> is_Some (pageVisits st !! ip))
  /\ nextTimer (step st e) = nextTimer st
  /\ (forall t ip, timers (step st e) !! t = Some ip -> timers st !! t = Some ip).
Proof.
  intros other. split; [|split].
  - intros ip.
    destruct e as [req now|req now id a b op|req now|req|req now|req|req|t];
      try discriminate other; cbn [step]; try reflexivity.
    + rewrite post_verify_visits. reflexivity.
    + unfold post_bot.
      destruct (bot_handler_visits SignalEvaluator.analyzeBotSignals req st) as [-> | ->].
      * apply markBotApiCalled_tracked.
      * rewrite markVisitComplete_tracked. apply markBotApiCalled_tracked.
    + unfold fire. destruct (timers st !! t); [|reflexivity].
      rewrite onTimeout_tracked. reflexivity.
  - rewrite step_nextTimer. destruct e; try reflexivity. discriminate other.
  - intros t ip.
    destruct e as [req now|req now id a b op|req now|req|req now|req|req|t0];
      try discriminate other.
    + rewrite (proj2 (quiet_step st (GetChallenge req now id a b op) I)). tauto.
    + rewrite (proj2 (quiet_step st (PostVerify req now) I)). tauto.
    + cbn [step]. unfold post_bot. rewrite bot_handler_timers.
      intros found. apply markBotApiCalled_timers in found as [found _]. exact found.
    + rewrite (proj2 (quiet_step st (GetVisitStatus req now) I)). tauto.
    + rewrite (proj2 (quiet_step st (PostVisit req) I)). tauto.
    + rewrite (proj2 (quiet_step st (Other req) I)). tauto.
    + cbn [step]. rewrite fire_timers. intros found.
      apply lookup_delete_Some in found as [_ found]. exact found.
Qed.

Lemma sessions_change_on_page_fetch_only_witness :
  is_Some (pageVisits (step fetched_at_noon (PostBot (json (VObj [])))) !! "198.51.100.9")
  <-> is_Some (pageVisits fetched_at_noon !! "198.51.100.9").
Proof.
  exact (proj1 (sessions_change_on_page_fetch_only fetched_at_noon (PostBot (json (VObj [])))
                  eq_refl) "198.51.100.9").
Defined.

Lemma post_verify_frame (req : request) (now : Z) (st : state) :
  timers (post_verify req now st).2 = timers st
  /\ nextTimer (post_verify req now st).2 = nextTimer st
  /\ (console (post_verify req now st).2 = console st
      \/ exists l, console (post_verify req now st).2 = (console st ++ [l])%list).
Proof.
  unfold post_verify.
  destruct (body req); try (repeat split; left; reflexivity);
    (destruct (find_challenge _ st); [|repeat split; left; reflexivity]);
    match goal with |- context [match ?c with Normal _ => _ | Throw => _ end] => destruct c end;
    try (repeat split; left; reflexivity); unfold forget_challenge;
    match goal with |- context [match ?c with VStr _ => _ | _ => _ end] => destruct c end;
    (split; [reflexivity|split; [reflexivity|right; eexists; reflexivity]]).
Qed.

Lemma bot_handler_challenges (analyze : value -> gmap string string -> completion Verdict.t)
    (req : request) (st : state) :
  challenges (bot_handler analyze req st).2 = challenges st.
Proof.
  assert (challenges (markBotApiCalled (getClientIp req) st) = challenges st) as marked.
  { unfold markBotApiCalled. destruct (pageVisits st !! getClientIp req); reflexivity. }
  unfold bot_handler.
  destruct (hasEssentialData _) as [essential|]; [|exact marked].
  destruct (negb essential || negb _); [exact marked|].
  destruct (analyze _ _); [|exact marked].
  cbn [snd print challenges]. unfold markVisitComplete.
  destruct (pageVisits _ !! _); exact marked.
Qed.

Lemma bot_handler_console (analyze : value -> gmap string string -> completion Verdict.t)
    (req : request) (st : state) :
  console (bot_handler analyze req st).2 = console st
  \/ exists l, console (bot_handler analyze req st).2 = (console st ++ [l])%list.
Proof.
  unfold bot_handler.
  destruct (hasEssentialData _) as [essential|];
    [|left; apply markBotApiCalled_console].
  destruct (negb essential || negb _).
  - right. eexists. cbn [snd print console]. rewrite markBotApiCalled_console. reflexivity.
  - destruct (analyze _ _); [|left; apply markBotApiCalled_console].
    right. eexists. cbn [snd print console].
    rewrite markVisitComplete_console, markBotApiCalled_console. reflexivity.
Qed.

Lemma fire_challenges (timeoutId : nat) (st : state) :
  challenges (fire timeoutId st) = challenges st.
Proof.
  unfold fire. destruct (timers st !! timeoutId) as [ip|]; [|reflexivity].
  unfold onTimeout, deliverBotVerdict. cbn [pageVisits].
  destruct (pageVisits st !! ip) as [v|]; [|reflexivity].
  destruct (negb (Visit.botApiCalled v)); [|reflexivity].
  destruct (Visit.completed v); reflexivity.
Qed.

Lemma fire_console (timeoutId : nat) (st : state) :
  console (fire timeoutId st) = console st
  \/ exists l, console (fire timeoutId st) = (console st ++ [l])%list.
Proof.
  unfold fire. destruct (timers st !! timeoutId) as [ip|]; [|left; reflexivity].
  unfold onTimeout, deliverBotVerdict. cbn [pageVisits].
  destruct (pageVisits st !! ip) as [v|]; [|left; reflexivity].
  destruct (negb (Visit.botApiCalled v)); [|left; reflexivity].
  destruct (Visit.completed v); [left; reflexivity|].
  right. eexists. reflexivity.
Qed.

(** X9.  The challenge store and the visit tracker never write each
    other's state: the two challenge routes leave the sessions and the
    timers alone, every other request and every timer leaves the challenges
    alone.  The console only grows, by two lines at most. *)
Theorem step_frames (st : state) (e : event) :
  match e with
  | GetChallenge _ _ _ _ _ _ | PostVerify _ _ =>
      pageVisits (step st e) = pageVisits st /\ timers (step st e) = timers st
      /\ nextTimer (step st e) = nextTimer st
  | _ => challenges (step st e) = challenges st
  end
  /\ exists ls, console (step st e) = (console st ++ ls)%list /\ (List.length ls <= 2)%nat.
Proof.
  split.
  - destruct e as [req now|req now id a b op|req now|req|req now|req|req|t]; cbn [step];
      try reflexivity.
    + repeat split.
    + split; [apply post_verify_visits|]. destruct (post_verify_frame req now st) as (-> & -> & _).
      split; reflexivity.
    + apply bot_handler_challenges.
    + apply fire_challenges.
  - destruct e as [req now|req now id a b op|req now|req|req now|req|req|t]; cbn [step].
    + eexists [_]. split; [reflexivity|cbn; lia].
    + exists []. rewrite app_nil_r. split; [reflexivity|cbn; lia].
    + destruct (post_verify_frame req now st) as (_ & _ & [-> | [l ->]]).
      * exists []. rewrite app_nil_r. split; [reflexivity|cbn; lia].
      * exists [l]. split; [reflexivity|cbn; lia].
    + destruct (bot_handler_console SignalEvaluator.analyzeBotSignals req st) as [same | [l same]];
        unfold post_bot; rewrite same.
      * exists []. rewrite app_nil_r. split; [reflexivity|cbn; lia].
      * exists [l]. split; [reflexivity|cbn; lia].
    + eexists [_; _]. split; [|cbn; lia].
      cbn [get_visit_status snd print console log_header_analysis].
      rewrite <- app_assoc. reflexivity.
    + eexists [_; _]. split; [|cbn; lia].
      cbn [post_visit snd print console log_header_analysis].
      rewrite <- app_assoc. reflexivity.
    + eexists [_]. split; [reflexivity|cbn; lia].
    + destruct (fire_console t st) as [-> | [l ->]].
      * exists []. rewrite app_nil_r. split; [reflexivity|cbn; lia].
      * exists [l]. split; [reflexivity|cbn; lia].
Qed.

(** X10.  What [POST /api/bot] answers depends on the request alone:
    neither the sessions nor the stored challenges, solved or not, have any
    influence on it. *)
Theorem post_bot_verdict_stateless (req : request) (st st' : state) :
  (post_bot req st).1 = (post_bot req st').1.
Proof.
  unfold post_bot, bot_handler.
  destruct (hasEssentialData _) as [essential|]; [|reflexivity].
  destruct (negb essential || negb _); [reflexivity|].
  destruct (SignalEvaluator.analyzeBotSignals _ _); reflexivity.
Qed.

(** X11.  In a reachable state the only full verdict
    [GET /api/visit-status] ever answers is the timeout verdict (the verdict
    of an analysis is never stored); and the route writes nothing but its
    two log lines. *)
Theorem status_final_is_frozen (st : state) (req : request) (now : Z) (v : Verdict.t) :
  reachable st ->
  (get_visit_status req now st).1 = Final v ->
  v = frozen
  /\ pageVisits (get_visit_status req now st).2 = pageVisits st
  /\ timers (get_visit_status req now st).2 = timers st
  /\ challenges (get_visit_status req now st).2 = challenges st.
Proof.
  intros reached answer. split; [|repeat split].
  destruct (invariant_reachable st reached) as (_ & _ & good).
  revert answer. unfold get_visit_status, getVisitVerdict. cbn [fst].
  rewrite pageVisits_log_header_analysis.
  destruct (pageVisits st !! getClientIp req) as [visit|] eqn:tracked; [|discriminate].
  destruct (good _ _ tracked) as [[none|final] _].
  - rewrite none.
    repeat match goal with |- context [if ?c then _ else _] => destruct c end; discriminate.
  - rewrite final. intros [= <-]. reflexivity.
Qed.

Lemma status_final_is_frozen_witness :
  exists v,
    (get_visit_status navigation (noon + 6000) (step fetched_at_noon (Fire 0%nat))).1 = Final v
    /\ v = frozen.
Proof.
  assert (reachable (step fetched_at_noon (Fire 0%nat))) as reached
    by (exists [Document navigation noon; Fire 0%nat]; reflexivity).
  assert ((get_visit_status navigation (noon + 6000) (step fetched_at_noon (Fire 0%nat))).1
          = Final frozen) as answer by (vm_compute; reflexivity).
  exists frozen. split; [exact answer|].
  exact (proj1 (status_final_is_frozen _ _ _ _ reached answer)).
Defined.


(** ** The session after an analysis *)

(** X12.  When [POST /api/bot] answers with a verdict of the Signal
    Evaluator (a verdict without code), the session of the address is marked
    as having called the endpoint and complete, its timer is cancelled, and
    its status reads [pending-analysis] unless a timeout verdict had been
    frozen before. *)
Theorem analysis_completes_session (req : request) (st : state) (visit : Visit.t)
    (v : Verdict.t) (now : Z) :
  pageVisits st !! getClientIp req = Some visit ->
  (post_bot req st).1 = Normal v ->
  Verdict.code v = None ->
  SignalEvaluator.analyzeBotSignals (nullish (body req) (VObj [])) (headers req) = Normal v
  /\ pageVisits (post_bot req st).2 !! getClientIp req
     = Some (Visit.mk (Visit.id visit) (Visit.timestamp visit) true true None
               (Visit.finalVerdict visit))
  /\ (forall t, Visit.timeoutId visit = Some t -> timers (post_bot req st).2 !! t = None)
  /\ (Visit.finalVerdict visit = None ->
      getVisitVerdict (getClientIp req) now (post_bot req st).2
      = Short "pending-analysis" None (lit "Visit complete, awaiting full analysis")).
Proof.
  intros tracked answered evaluated.
  assert (SignalEvaluator.analyzeBotSignals (nullish (body req) (VObj [])) (headers req)
          = Normal v
          /\ pageVisits (post_bot req st).2
             = pageVisits (markVisitComplete (getClientIp req)
                             (markBotApiCalled (getClientIp req) st))) as [ran visits].
  { revert answered. unfold post_bot, bot_handler.
    destruct (hasEssentialData _) as [essential|]; [|discriminate].
    destruct (negb essential || negb _).
    - intros [= <-]. discriminate evaluated.
    - destruct (SignalEvaluator.analyzeBotSignals _ _) as [analysis|]; [|discriminate].
      intros [= <-]. split; reflexivity. }
  assert (pageVisits (post_bot req st).2 !! getClientIp req
          = Some (Visit.mk (Visit.id visit) (Visit.timestamp visit) true true None
                    (Visit.finalVerdict visit))) as after.
  { rewrite visits. unfold markVisitComplete, markBotApiCalled. rewrite tracked.
    cbn [pageVisits]. rewrite lookup_insert_eq. cbn [set_visits pageVisits].
    rewrite lookup_insert_eq. reflexivity. }
  split; [exact ran|]. split; [exact after|]. split.
  - intros t tid. unfold post_bot. rewrite bot_handler_timers.
    destruct (timers (markBotApiCalled (getClientIp req) st) !! t) as [ip|] eqn:pending;
      [|reflexivity].
    apply markBotApiCalled_timers in pending as [_ cleared].
    destruct (cleared visit tracked tid).
  - intros open. unfold getVisitVerdict. rewrite after. cbn. rewrite open. reflexivity.
Qed.

Lemma analysis_completes_session_witness :
  exists v,
    (post_bot (json (firefox solved)) fetched_at_noon).1 = Normal v
    /\ pageVisits (post_bot (json (firefox solved)) fetched_at_noon).2 !! visitor
       = Some (Visit.mk 0 noon true true None None).
Proof.
  destruct ((post_bot (json (firefox solved)) fetched_at_noon).1) as [v|] eqn:answered;
    [|vm_compute in answered; discriminate answered].
  exists v. split; [reflexivity|].
  assert (Verdict.code v = None) as evaluated.
  { vm_compute in answered. injection answered as <-. reflexivity. }
  exact (proj1 (proj2 (analysis_completes_session (json (firefox solved)) fetched_at_noon
                         (Visit.mk 0 noon false false (Some 0%nat) None) v noon
                         eq_refl answered evaluated))).
Defined.

(** ** The session a page fetch opens *)

(** X13.  A page fetch replaces the session of its address by a fresh one
    (no flag set, no final verdict, whatever was frozen before), arms the
    timer of that session, and sweeps: afterwards no session is older than
    60 seconds, and every other session that is not older is kept as it
    was. *)
Theorem page_fetch_opens_session (st : state) (req : request) (now : Z) :
  reachable st ->
  pageVisits (step st (Document req now)) !! getClientIp req
  = Some (Visit.mk (nextTimer st) now false false (Some (nextTimer st)) None)
  /\ timers (step st (Document req now)) !! nextTimer st = Some (getClientIp req)
  /\ (forall ip v, pageVisits (step st (Document req now)) !! ip = Some v ->
        now - Visit.timestamp v <= 60000)
  /\ (forall ip v, ip <> getClientIp req -> pageVisits st !! ip = Some v ->
        now - Visit.timestamp v <= 60000 ->
        pageVisits (step st (Document req now)) !! ip = Some v).
Proof.
  intros reached. destruct (invariant_reachable st reached) as (below & _ & _).
  destruct (wired_reachable st reached) as (own & _ & _).
  cbn [step]. unfold document_request. cbn [print pageVisits timers].
  split; [|split; [|split]].
  - apply trackPageVisit_visits. left. split; reflexivity.
  - apply trackPageVisit_timers. split; [left; split; reflexivity|].
    intros k v _ tracked _ tid. pose proof (below _ _ tracked) as small.
    destruct (own _ _ tracked) as [none|same]; [congruence|].
    rewrite same in tid. injection tid as tid. lia.
  - intros ip v found. apply trackPageVisit_visits in found as [[_ ->]|(_ & _ & young)].
    + cbn [Visit.timestamp]. lia.
    + unfold expired in young. apply Z.ltb_ge in young. exact young.
  - intros ip v other tracked young. apply trackPageVisit_visits. right.
    split; [exact other|]. split; [exact tracked|]. unfold expired. apply Z.ltb_ge. exact young.
Qed.

Lemma page_fetch_opens_session_witness :
  pageVisits (step (step fetched_at_noon (Fire 0%nat)) (Document navigation (noon + 7000)))
    !! visitor
  = Some (Visit.mk 1 (noon + 7000) false false (Some 1%nat) None).
Proof.
  assert (reachable (step fetched_at_noon (Fire 0%nat))) as reached
    by (exists [Document navigation noon; Fire 0%nat]; reflexivity).
  exact (proj1 (page_fetch_opens_session _ navigation (noon + 7000) reached)).
Defined.

(** ** The address of a request *)

Lemma before_absent (sep : ascii) (s rest : string) :
  includes s (String sep "") = false ->
  before sep s = s /\ before sep (s ++ String sep rest) = s.
Proof.
  induction s as [|c s IH]; simpl.
  - intros _. rewrite Ascii.eqb_refl. split; reflexivity.
  - intros absent. apply orb_false_iff in absent as [here later].
    destruct (ascii_dec sep c) as [->|other].
    + destruct s; discriminate here.
    + assert (Ascii.eqb c sep = false) as ->
        by (apply Ascii.eqb_neq; congruence).
      destruct (IH later) as [-> ->]. split; reflexivity.
Qed.

Lemma before_splits (sep : ascii) (s : string) :
  includes (before sep s) (String sep "") = false
  /\ (s = before sep s \/ exists rest, s = before sep s ++ String sep rest).
Proof.
  induction s as [|c s [absent split_s]]; simpl.
  - split; [reflexivity|left; reflexivity].
  - destruct (Ascii.eqb_spec c sep) as [->|other].
    + split; [reflexivity|]. right. exists s. reflexivity.
    + simpl. split.
      * rewrite absent.
        destruct (ascii_dec sep c) as [same|_];
          [exfalso; apply other; symmetry; exact same|reflexivity].
      * destruct split_s as [whole|[rest cut]].
        -- left. f_equal. exact whole.
        -- right. exists rest.
           change (String c s = String c (before sep s ++ String sep rest)).
           f_equal. exact cut.
Qed.

(** X14.  The address of a request is never the empty string.  With an
    [X-Forwarded-For] header it is the first entry (what stands before the
    first comma, or the whole value) without the white space around it,
    whatever the socket address; when that entry is blank, or without the
    header, it is the socket address, or [unknown] when there is none.
    Every header value has a first entry. *)
Theorem getClientIp_forwarded (req : request) :
  getClientIp req <> ""
  /\ (forall first rest,
        includes first "," = false ->
        headers req !! "x-forwarded-for" = Some first
        \/ headers req !! "x-forwarded-for" = Some (first ++ String "," rest) ->
        getClientIp req
        = if String.eqb (trim first) "" then socket_or_unknown req else trim first)
  /\ (forall forwardedFor,
        headers req !! "x-forwarded-for" = Some forwardedFor ->
        exists first,
          includes first "," = false
          /\ (forwardedFor = first \/ exists rest, forwardedFor = first ++ String "," rest))
  /\ (headers req !! "x-forwarded-for" = None -> getClientIp req = socket_or_unknown req)
  /\ socket_or_unknown req <> ""
  /\ (forall r, remoteAddress req = Some r -> r <> "" -> socket_or_unknown req = r)
  /\ (remoteAddress req = None \/ remoteAddress req = Some "" ->
      socket_or_unknown req = "unknown").
Proof.
  assert (socket_or_unknown req <> "") as remote.
  { unfold socket_or_unknown. destruct (remoteAddress req) as [r|]; [|discriminate].
    destruct (String.eqb_spec r ""); [discriminate|assumption]. }
  assert (forall first rest,
            includes first "," = false ->
            headers req !! "x-forwarded-for" = Some first
            \/ headers req !! "x-forwarded-for" = Some (first ++ String "," rest) ->
            getClientIp req
            = if String.eqb (trim first) "" then socket_or_unknown req else trim first)
    as forwarded.
  { intros first rest single sent. unfold getClientIp. fold (socket_or_unknown req).
    destruct (before_absent _ _ rest single) as [alone listed].
    destruct sent as [-> | ->]; cbv zeta; rewrite ?alone, ?listed; reflexivity. }
  assert (forall forwardedFor,
            headers req !! "x-forwarded-for" = Some forwardedFor ->
            exists first,
              includes first "," = false
              /\ (forwardedFor = first
                  \/ exists rest, forwardedFor = first ++ String "," rest)) as splits.
  { intros forwardedFor _. exists (before "," forwardedFor). apply before_splits. }
  split; [|split; [exact forwarded|split; [exact splits|split; [|split; [exact remote|split]]]]].
  - destruct (headers req !! "x-forwarded-for") as [forwardedFor|] eqn:sent.
    + destruct (splits forwardedFor eq_refl) as (first & single & [-> | [rest ->]]).
      * rewrite (forwarded first "" single (or_introl eq_refl)).
        destruct (String.eqb_spec (trim first) ""); [exact remote|assumption].
      * rewrite (forwarded first rest single (or_intror eq_refl)).
        destruct (String.eqb_spec (trim first) ""); [exact remote|assumption].
    + unfold getClientIp. rewrite sent. exact remote.
  - intros direct. unfold getClientIp. rewrite direct. reflexivity.
  - intros r socket inhabited. unfold socket_or_unknown. rewrite socket.
    destruct (String.eqb_spec r ""); [contradiction|reflexivity].
  - intros [none|empty]; unfold socket_or_unknown; rewrite ?none, ?empty; reflexivity.
Qed.

Lemma getClientIp_forwarded_witness :
  getClientIp
    (mkRequest {[ "x-forwarded-for" := " 203.0.113.7 , 10.0.0.1" ]} (Some "192.0.2.1") VUndef)
  = "203.0.113.7"
  /\ getClientIp
       (mkRequest {[ "x-forwarded-for" := " , 10.0.0.1" ]} (Some "192.0.2.1") VUndef)
     = "192.0.2.1".
Proof.
  split.
  - exact (proj1 (proj2 (getClientIp_forwarded
                           (mkRequest {[ "x-forwarded-for" := " 203.0.113.7 , 10.0.0.1" ]}
                              (Some "192.0.2.1") VUndef)))
             " 203.0.113.7 " " 10.0.0.1" eq_refl (or_intror eq_refl)).
  - exact (proj1 (proj2 (getClientIp_forwarded
                           (mkRequest {[ "x-forwarded-for" := " , 10.0.0.1" ]}
                              (Some "192.0.2.1") VUndef)))
             " " " 10.0.0.1" eq_refl (or_intror eq_refl)).
Defined.

(** ** Issuing and solving a challenge *)

Lemma get_challenge_stored (req : request) (now : Z) (id : string) (a b : Z)
    (op : operation) (st : state) :
  challenges (get_challenge req now id a b op st).2 !! id
  = Some (Challenge.mk (answer_of op a b) now (getClientIp req)).
Proof.
  unfold get_challenge. cbn [snd set_challenges challenges].
  apply map_lookup_filter_Some. split.
  - rewrite lookup_insert_eq. destruct op; reflexivity.
  - cbn [snd Challenge.timestamp]. rewrite Z.sub_diag. reflexivity.
Qed.

(** X15.  [GET /api/challenge] stores the challenge under its id, with the
    value of the expression, the time of the request and the address; it
    answers that id and that time; afterwards no stored challenge is older
    than 60 seconds, and every other challenge that is not older is kept. *)
Theorem challenge_issued (req : request) (now : Z) (id : string) (a b : Z) (op : operation)
    (st : state) :
  challenges (get_challenge req now id a b op st).2 !! id
  = Some (Challenge.mk (answer_of op a b) now (getClientIp req))
  /\ (forall id' c, challenges (get_challenge req now id a b op st).2 !! id' = Some c ->
        now - Challenge.timestamp c <= CHALLENGE_TTL)
  /\ (forall id' c, id' <> id ->
        challenges (get_challenge req now id a b op st).2 !! id' = Some c
        <-> challenges st !! id' = Some c /\ now - Challenge.timestamp c <= CHALLENGE_TTL)
  /\ challengeId (get_challenge req now id a b op st).1 = id
  /\ timingChallenge (get_challenge req now id a b op st).1 = now.
Proof.
  split; [apply get_challenge_stored|].
  unfold get_challenge. cbn [fst snd set_challenges challenges challengeId timingChallenge].
  split; [|split; [|split; reflexivity]].
  - intros id' c found. apply map_lookup_filter_Some in found as [_ young].
    cbn [snd] in young. apply Z.ltb_ge in young. exact young.
  - intros id' c other. rewrite map_lookup_filter_Some, lookup_insert_ne by congruence.
    cbn [snd]. rewrite Z.ltb_ge. reflexivity.
Qed.

Lemma evaluations_checked :
  forallb (fun a =>
    forallb (fun b =>
      forallb (fun op => PrimFloat.eqb (evaluate op a b) (of_Z (answer_of op a b)))
        [Plus; Times; Minus]) operands) operands = true.
Proof. vm_compute. reflexivity. Qed.

Lemma all_triples (f : Z -> Z -> operation -> bool) (l : list Z) :
  forallb (fun a => forallb (fun b => forallb (fun op => f a b op) [Plus; Times; Minus]) l) l
  = true ->
  forall a b op, In a l -> In b l -> f a b op = true.
Proof.
  intros all a b op in_a in_b.
  rewrite forallb_forall in all. specialize (all a in_a).
  rewrite forallb_forall in all. specialize (all b in_b).
  rewrite forallb_forall in all. apply all. destruct op; cbn; tauto.
Qed.

Lemma evaluate_expected (op : operation) (a b : Z) :
  0 <= a < 100 -> 0 <= b < 100 ->
  PrimFloat.eqb (evaluate op a b) (of_Z (answer_of op a b)) = true.
Proof.
  intros small_a small_b.
  assert (forall z, 0 <= z < 100 -> In z operands) as listed.
  { intros z small. unfold operands. apply in_map_iff. exists (Z.to_nat z).
    split; [lia|]. apply in_seq. lia. }
  exact (all_triples
           (fun a b op => PrimFloat.eqb (evaluate op a b) (of_Z (answer_of op a b)))
           operands evaluations_checked a b op (listed a small_a) (listed b small_b)).
Qed.

(** X16.  A client that evaluates the expression of the challenge it was
    just issued and posts the result is told the answer is valid, however
    late it posts; and the challenge is gone afterwards. *)
Theorem challenge_round_trip (req : request) (now : Z) (id : string) (a b : Z)
    (op : operation) (st : state) (solver : request) (later : Z)
    (fields : list (string * value)) :
  0 <= a < 100 -> 0 <= b < 100 ->
  body solver = VObj fields ->
  (body solver)?."challengeId" = VStr id ->
  (body solver)?."answer" = VNum (evaluate op a b) ->
  primitive (body solver)?."timingProof" = true ->
  primitive (body solver)?."executionTime" = true ->
  exists timingValid,
    (post_verify solver later (get_challenge req now id a b op st).2).1
    = Normal (Checked true timingValid (body solver)?."executionTime" (later - now))
    /\ challenges (post_verify solver later (get_challenge req now id a b op st).2).2 !! id
       = None.
Proof.
  intros small_a small_b shape same answer proof_ok time_ok.
  pose proof (get_challenge_stored req now id a b op st) as stored.
  destruct (verify_ignores_age solver later _ id fields _ shape same stored proof_ok time_ok)
    as (timingValid & answered).
  exists timingValid. split.
  - rewrite answered, answer. cbn [strict_eq Challenge.expectedAnswer Challenge.timestamp].
    rewrite (evaluate_expected op a b small_a small_b). reflexivity.
  - revert answered. unfold post_verify. rewrite shape in *. rewrite same.
    rewrite find_challenge_string, stored.
    match goal with |- context [match ?c with Normal _ => _ | Throw => _ end] => destruct c end;
      [|discriminate].
    intros _. cbn [snd forget_challenge print challenges set_challenges].
    apply lookup_delete_eq.
Qed.

Lemma challenge_round_trip_witness :
  exists timingValid,
    (post_verify
       (json (VObj [("challengeId", VStr "k3x9"); ("answer", VNum (evaluate Times 7 6))]))
       (noon + 40) (get_challenge navigation noon "k3x9" 7 6 Times initial).2).1
    = Normal (Checked true timingValid VUndef 40).
Proof.
  destruct (challenge_round_trip navigation noon "k3x9" 7 6 Times initial
              (json (VObj [("challengeId", VStr "k3x9"); ("answer", VNum (evaluate Times 7 6))]))
              (noon + 40) _ ltac:(lia) ltac:(lia) eq_refl eq_refl eq_refl eq_refl eq_refl)
    as (timingValid & answered & _).
  exists timingValid. replace 40 with (noon + 40 - noon) by lia. exact answered.
Defined.

(** X17.  [POST /api/challenge/verify] never adds or changes a challenge,
    removes at most the one whose id it was sent, and leaves the sessions
    and the timers alone. *)
Theorem verify_consumes_one_challenge (req : request) (now : Z) (st : state) (id : string) :
  (forall c, challenges (post_verify req now st).2 !! id = Some c ->
     challenges st !! id = Some c)
  /\ ((body req)?."challengeId" <> VStr id ->
      challenges (post_verify req now st).2 !! id = challenges st !! id)
  /\ pageVisits (post_verify req now st).2 = pageVisits st
  /\ timers (post_verify req now st).2 = timers st.
Proof.
  assert (challenges (post_verify req now st).2 = challenges st
          \/ exists id', (body req)?."challengeId" = VStr id'
                         /\ challenges (post_verify req now st).2 = delete id' (challenges st))
    as [same|(id' & sent & removed)].
  { unfold post_verify.
    destruct (body req) eqn:shape; try (left; reflexivity);
      (destruct (find_challenge _ st); [|left; reflexivity]);
      match goal with |- context [match ?c with Normal _ => _ | Throw => _ end] => destruct c end;
      try (left; reflexivity); unfold forget_challenge;
      (destruct (JS.get _ "challengeId") eqn:sent; try (left; reflexivity));
      right; eexists; (split; [reflexivity|reflexivity]). }
  - rewrite same. repeat split; try tauto.
    + apply post_verify_visits.
    + apply post_verify_frame.
  - rewrite removed. split; [|split; [|split]].
    + intros c found. apply lookup_delete_Some in found as [_ found]. exact found.
    + intros other. apply lookup_delete_ne. congruence.
    + apply post_verify_visits.
    + apply post_verify_frame.
Qed.


(** ** Requests the Header Evaluator decides on *)

Lemma header_addSignal_score (name : string) (detected : bool) (weight : Z)
    (passReason failReason : text) (a : acc) :
  score (HeaderEvaluator.addSignal name detected weight passReason failReason a)
  = score a + (if detected then weight else 0).
Proof. destruct detected; cbn [HeaderEvaluator.addSignal score]; lia. Qed.

Lemma header_addSignal_detected (name : string) (detected : bool) (weight : Z)
    (passReason failReason : text) (a : acc) :
  len (filter (fun s => Signal.detected s = true)
         (signals (HeaderEvaluator.addSignal name detected weight passReason failReason a)))
  = len (filter (fun s => Signal.detected s = true) (signals a))
    + (if detected then 1 else 0).
Proof.
  unfold len.
  destruct detected; cbn [HeaderEvaluator.addSignal signals]; rewrite filter_app, length_app;
    rewrite filter_cons, filter_nil; cbn [Signal.detected].
  - rewrite decide_True by reflexivity. cbn [List.length]. lia.
  - rewrite decide_False by discriminate. cbn [List.length]. lia.
Qed.

Ltac bound_conditionals :=
  repeat match goal with
         | |- context [if ?d then ?w else 0] =>
             let x := fresh "x" in
             let H := fresh "H" in
             assert (0 <= (if d then w else 0) <= w) as H by (destruct d; lia);
             set (x := if d then w else 0) in *; clearbody x
         end.

(** X18.  A request that carries no [Accept], [Accept-Language] or
    [Accept-Encoding] header and no [Sec-Fetch-*] header is a bot for the
    Header Evaluator, with high confidence, whatever its [User-Agent]. *)
Theorem bare_request_is_bot (headers : gmap string string) :
  bare headers ->
  Verdict.verdict (HeaderEvaluator.analyzeHeadersOnly headers) = "bot"
  /\ 50 <= Verdict.score (HeaderEvaluator.analyzeHeadersOnly headers)
  /\ Verdict.confidence (HeaderEvaluator.analyzeHeadersOnly headers) = "high".
Proof.
  intros (accept & language & encoding & dest & mode & site).
  assert (50 <= Z.min (score (HeaderEvaluator.rules headers acc0)) 100) as enough.
  { unfold HeaderEvaluator.rules. cbv zeta. rewrite !header_addSignal_score.
    rewrite accept, language, encoding, dest, mode, site. cbn [negb orb score acc0].
    bound_conditionals. lia. }
  cbn [HeaderEvaluator.analyzeHeadersOnly Verdict.verdict Verdict.score Verdict.confidence].
  apply Z.leb_le in enough as test. rewrite test. repeat split. exact enough.
Qed.

Lemma bare_request_is_bot_witness :
  bare {[ "user-agent" := "Mozilla/5.0 (X11; Linux x86_64) Gecko/20100101 Firefox/121.0" ]}
  /\ Verdict.verdict
       (HeaderEvaluator.analyzeHeadersOnly
          {[ "user-agent" := "Mozilla/5.0 (X11; Linux x86_64) Gecko/20100101 Firefox/121.0" ]})
     = "bot".
Proof.
  assert (bare {[ "user-agent" := "Mozilla/5.0 (X11; Linux x86_64) Gecko/20100101 Firefox/121.0" ]})
    as no_negotiation by (repeat split).
  split; [exact no_negotiation|].
  exact (proj1 (bare_request_is_bot _ no_negotiation)).
Defined.

(** X19.  A request with the headers of a browser navigation (a
    [User-Agent] of 20 characters or more that matches no bot pattern, an
    [Accept] header offering [text/html] or [*/*], [Accept-Language],
    [Accept-Encoding], a [Sec-Fetch-*] header, [Sec-CH-UA], [Connection] and
    [Upgrade-Insecure-Requests]) scores 0: the Header Evaluator calls it
    human and flags nothing. *)
Theorem browser_like_is_human (headers : gmap string string) :
  browser_like headers ->
  Verdict.verdict (HeaderEvaluator.analyzeHeadersOnly headers) = "human"
  /\ Verdict.score (HeaderEvaluator.analyzeHeadersOnly headers) = 0
  /\ Summary.flagged (Verdict.summary (HeaderEvaluator.analyzeHeadersOnly headers)) = 0.
Proof.
  intros (long & unlisted & head & accept & language & encoding & fetch & hints & connection
          & upgrade).
  assert (String.eqb (header headers "user-agent") "" = false) as present.
  { destruct (header headers "user-agent"); [cbn in long; lia|reflexivity]. }
  assert ((0 <? String.length (header headers "user-agent"))%nat
          && (String.length (header headers "user-agent") <? 20)%nat = false) as not_short.
  { apply andb_false_iff. right. apply Nat.ltb_ge. exact long. }
  assert (missing headers "accept" = false) as sent.
  { unfold missing. destruct accept as [some|some];
      destruct (header headers "accept"); try discriminate some; reflexivity. }
  assert (negb (String.eqb (header headers "accept") "")
          && negb (includes (header headers "accept") "text/html")
          && negb (includes (header headers "accept") "*/*") = false) as negotiates.
  { destruct accept as [-> | ->]; cbn [negb]; rewrite ?andb_false_r; reflexivity. }
  assert (negb (negb (missing headers "sec-fetch-dest") || negb (missing headers "sec-fetch-mode")
                || negb (missing headers "sec-fetch-site")) = false) as metadata.
  { destruct fetch as [-> | [-> | ->]]; cbn [negb orb]; rewrite ?orb_true_r; reflexivity. }
  assert (score (HeaderEvaluator.rules headers acc0) = 0
          /\ len (filter (fun s => Signal.detected s = true)
                    (signals (HeaderEvaluator.rules headers acc0))) = 0) as [nothing none].
  { unfold HeaderEvaluator.rules. cbv zeta.
    rewrite !header_addSignal_score, !header_addSignal_detected.
    rewrite present, not_short, unlisted, head, sent, negotiates, language, encoding, metadata,
      hints, connection, upgrade.
    rewrite bool_decide_eq_false_2 by (intros [p found]; discriminate found).
    split; reflexivity. }
  cbn [HeaderEvaluator.analyzeHeadersOnly Verdict.verdict Verdict.score Verdict.summary
       Summary.flagged].
  rewrite nothing, none. repeat split.
Qed.

Lemma browser_like_is_human_witness :
  Verdict.verdict (HeaderEvaluator.analyzeHeadersOnly chrome_headers) = "human".
Proof.
  apply (browser_like_is_human chrome_headers).
  unfold browser_like.
  split; [vm_compute; lia|].
  split; [vm_compute; reflexivity|].
  split; [vm_compute; reflexivity|].
  split; [left; vm_compute; reflexivity|].
  split; [vm_compute; reflexivity|].
  split; [vm_compute; reflexivity|].
  split; [left; vm_compute; reflexivity|].
  split; [vm_compute; reflexivity|].
  split; vm_compute; reflexivity.
Defined.


(** ** Bundles the Signal Evaluator decides on *)

Lemma analyzed_score (browserData : value) (headers : gmap string string) (v : Verdict.t) :
  SignalEvaluator.analyzeBotSignals browserData headers = Normal v ->
  exists userAgent platform a,
    SignalEvaluator.rules browserData headers userAgent platform acc0 = Normal (tt, a)
    /\ Verdict.allSignals v = signals a
    /\ Verdict.score v = Z.min (score a) 100
    /\ Verdict.verdict v = threshold_verdict (Z.min (score a) 100).
Proof.
  unfold SignalEvaluator.analyzeBotSignals.
  destruct (SignalEvaluator.string_receiver _) as [userAgent|]; cbn [cbind]; [|discriminate].
  destruct (SignalEvaluator.string_receiver _) as [platform|]; cbn [cbind]; [|discriminate].
  destruct (SignalEvaluator.rules _ _ _ _ acc0) as [[[] a]|] eqn:ran; cbn [cbind]; [|discriminate].
  intros [= <-]. exists userAgent, platform, a. repeat split. exact ran.
Qed.

Section Gains.

Import SignalEvaluator.

Lemma gains_ret {A} (a : A) : gains 0 (ret a).
Proof. intros s a' s' [= _ <-]. lia. Qed.

Lemma gains_lift {A} (c : completion A) : gains 0 (lift c).
Proof. intros s a s'. unfold lift. destruct c; cbn; [intros [= _ <-]; lia|discriminate]. Qed.

Lemma gains_bind {A B} (w1 w2 : Z) (m : M A) (k : A -> M B) :
  gains w1 m -> (forall a, gains w2 (k a)) -> gains (w1 + w2) (bind m k).
Proof.
  intros Hm Hk s b s'. unfold bind. destruct (m s) as [[a s1]|] eqn:first; cbn; [|discriminate].
  intros second. pose proof (Hm _ _ _ first). pose proof (Hk _ _ _ _ second). lia.
Qed.

Lemma gains_steady {A B} (m : M A) (k : A -> M B) :
  gains 0 m -> (forall a, gains 0 (k a)) -> gains 0 (bind m k).
Proof. intros Hm Hk. exact (gains_bind 0 0 m k Hm Hk). Qed.

Lemma gains_call_pure (name : string) (d : bool) (weight : Z)
    (passReason failReason : completion text) (category : string) :
  0 <= weight ->
  gains (if d then weight else 0) (call name (pure d) weight passReason failReason category).
Proof.
  intros positive s a s'. unfold call, pure. cbn [cbind].
  destruct passReason, failReason; cbn; try discriminate.
  intros [= _ <-]. destruct d; cbn [addSignal score]; lia.
Qed.

Lemma gains_call (name : string) (detected : completion bool) (weight : Z)
    (passReason failReason : completion text) (category : string) :
  0 <= weight -> gains 0 (call name detected weight passReason failReason category).
Proof.
  intros positive s a s'. unfold call.
  destruct detected as [d|], passReason, failReason; cbn; try discriminate.
  intros [= _ <-]. destruct d; cbn [addSignal score]; lia.
Qed.

Lemma gains_when (b : bool) (m : M unit) : gains 0 m -> gains 0 (when b m).
Proof. intros Hm. destruct b; [exact Hm|apply gains_ret]. Qed.

Lemma gains_weaken {A} (w w' : Z) (m : M A) : gains w m -> w' <= w -> gains w' m.
Proof. intros Hm less s a s' ran. pose proof (Hm _ _ _ ran). lia. Qed.

Ltac steady :=
  cbv zeta;
  repeat lazymatch goal with
    | |- gains _ (call _ _ _ _ _ _) => apply gains_call; lia
    | |- gains _ (ret _) => apply gains_ret
    | |- gains _ (lift _) => apply gains_lift
    | |- gains _ (when _ _) => apply gains_when
    | |- gains _ (bind _ _) => apply gains_steady; [|intro]
    | |- gains _ (let '(_, _) := ?p in _) => destruct p
    end.

Lemma gains_critical (browserData : value) :
  gains (critical_weight browserData) (critical browserData).
Proof.
  unfold critical. cbv zeta.
  eapply gains_weaken.
  - repeat (eapply gains_bind; [apply gains_call_pure; lia|intros ?]). steady.
  - unfold critical_weight. lia.
Qed.

Lemma gains_rules (browserData : value) (headers : gmap string string)
    (userAgent platform : string) :
  gains (critical_weight browserData) (rules browserData headers userAgent platform).
Proof.
  unfold rules. eapply gains_weaken.
  - eapply gains_bind; [apply gains_critical|intros ?].
    unfold essential, strong, medium, weak, header_based, consistency, timing, fingerprint,
      webgl2.
    steady.
  - lia.
Qed.

Lemma emits_call (name : string) (d : bool) (weight : Z)
    (passReason failReason : completion text) (category : string) :
  emits name d (call name (pure d) weight passReason failReason category).
Proof.
  intros s a s'. unfold call, pure. cbn [cbind].
  destruct passReason, failReason; cbn; try discriminate.
  intros [= _ <-]. destruct d; cbn [addSignal signals]; eexists;
    (split; [apply elem_of_app; right; apply list_elem_of_singleton; reflexivity|]);
    split; reflexivity.
Qed.

Lemma emits_first {A B} (name : string) (d : bool) (m : M A) (k : A -> M B) :
  emits name d m -> (forall a, respects extends (k a)) -> emits name d (bind m k).
Proof.
  intros Hm Hk s b s'. unfold bind. destruct (m s) as [[a s1]|] eqn:first; cbn; [|discriminate].
  intros second. destruct (Hm _ _ _ first) as (x & found & facts).
  exists x. split; [|exact facts]. eapply elem_of_extends; [exact (Hk _ _ _ _ second)|exact found].
Qed.

Lemma emits_later {A B} (name : string) (d : bool) (m : M A) (k : A -> M B) :
  (forall a, emits name d (k a)) -> emits name d (bind m k).
Proof.
  intros Hk s b s'. unfold bind. destruct (m s) as [[a s1]|] eqn:first; cbn; [|discriminate].
  intros second. exact (Hk _ _ _ _ second).
Qed.

Ltac extending :=
  cbv zeta;
  repeat lazymatch goal with
    | |- respects _ (call _ _ _ _ _ _) => apply respects_call; exact extends_addSignal
    | |- respects _ (ret _) => apply respects_ret; exact extends_refl
    | |- respects _ (lift _) => apply respects_lift; exact extends_refl
    | |- respects _ (when _ _) => apply respects_when; [exact extends_refl|]
    | |- respects _ (bind _ _) => apply respects_bind; [exact extends_trans| |intro]
    | |- respects _ (let '(_, _) := ?p in _) => destruct p
    end.

Lemma emits_jsChallengeFailed (browserData : value) (headers : gmap string string)
    (userAgent platform : string) :
  emits "jsChallengeFailed"
    (negb (strict_eq (jsChallenge browserData)?."valid" (VBool true)))
    (rules browserData headers userAgent platform).
Proof.
  unfold rules. apply emits_first.
  - unfold critical. cbv zeta. do 5 (apply emits_later; intros ?).
    apply emits_first; [apply emits_call|intros ?; extending].
  - intro.
    unfold essential, strong, medium, weak, header_based, consistency, timing, fingerprint,
      webgl2.
    extending.
Qed.

Lemma emits_noBrowserData (browserData : value) (headers : gmap string string)
    (userAgent platform : string) :
  emits "noBrowserData"
    (negb (ToBoolean browserData?."screen") && negb (ToBoolean browserData?."window")
     && negb (ToBoolean browserData?."navigator"))
    (rules browserData headers userAgent platform).
Proof.
  unfold rules. apply emits_later. intro. apply emits_first.
  - unfold essential. cbv zeta. do 2 (apply emits_later; intros ?).
    apply emits_first; [apply emits_call|intros ?; extending].
  - intro.
    unfold strong, medium, weak, header_based, consistency, timing, fingerprint, webgl2.
    extending.
Qed.

End Gains.

Lemma consistent_rules (browserData : value) (headers : gmap string string)
    (userAgent platform : string) (a : acc) :
  SignalEvaluator.rules browserData headers userAgent platform acc0 = Normal (tt, a) ->
  consistent a.
Proof.
  intros ran.
  apply (respects_rules (fun s s' => consistent s -> consistent s')) in ran;
    [apply ran, consistent_acc0|auto|auto|].
  intros. apply signal_addSignal_consistent. assumption.
Qed.

(** X20.  The critical rules put a floor under the score of the Signal
    Evaluator: the score is at least their weight (30 for each automation
    flag, 35 for a challenge that is not valid), capped at 100.  So one
    critical signal rules out the verdict [human], and two make the verdict
    [bot], whatever else the bundle and the headers hold. *)
Theorem critical_signals_floor (browserData : value) (headers : gmap string string)
    (v : Verdict.t) :
  SignalEvaluator.analyzeBotSignals browserData headers = Normal v ->
  Z.min (critical_weight browserData) 100 <= Verdict.score v
  /\ (0 < critical_weight browserData -> Verdict.verdict v <> "human")
  /\ (50 <= critical_weight browserData -> Verdict.verdict v = "bot").
Proof.
  intros ran.
  destruct (analyzed_score _ _ _ ran) as (userAgent & platform & a & body & _ & -> & ->).
  pose proof (gains_rules _ _ _ _ _ _ _ body) as floor. cbn [score acc0] in floor.
  split; [lia|]. unfold threshold_verdict. split.
  - intros some.
    assert (30 <= critical_weight browserData) as heavy.
    { revert some. unfold critical_weight.
      repeat match goal with |- context [if ?c then _ else _] => destruct c end; lia. }
    destruct (50 <=? Z.min (score a) 100); [discriminate|].
    destruct (25 <=? Z.min (score a) 100) eqn:test; [discriminate|].
    apply Z.leb_gt in test. lia.
  - intros heavy. destruct (50 <=? Z.min (score a) 100) eqn:test; [reflexivity|].
    apply Z.leb_gt in test. lia.
Qed.

Lemma critical_signals_floor_witness :
  exists v,
    SignalEvaluator.analyzeBotSignals (firefox (VObj [("valid", VBool false)])) httpie_headers
    = Normal v
    /\ Verdict.verdict v <> "human".
Proof.
  destruct (signal_evaluator_returns (firefox (VObj [("valid", VBool false)])) httpie_headers
              eq_refl eq_refl) as [v ran].
  exists v. split; [exact ran|].
  apply (proj1 (proj2 (critical_signals_floor _ _ _ ran))). vm_compute. reflexivity.
Defined.

Lemma named_once (l : list Signal.t) (x y : Signal.t) :
  NoDup (map Signal.name l) -> x ∈ l -> y ∈ l -> Signal.name x = Signal.name y -> x = y.
Proof.
  induction l as [|s l IH]; intros distinct in_x in_y same; [inversion in_x|].
  cbn [map] in distinct. apply NoDup_cons in distinct as [fresh distinct].
  apply elem_of_cons in in_x as [->|in_x]; apply elem_of_cons in in_y as [->|in_y].
  - reflexivity.
  - exfalso. apply fresh. rewrite same. apply (list_elem_of_fmap_2 Signal.name). exact in_y.
  - exfalso. apply fresh. rewrite <- same. apply (list_elem_of_fmap_2 Signal.name). exact in_x.
  - exact (IH distinct in_x in_y same).
Qed.


(** ** Rules the route never lets fire *)

(** X21.  On the route the rules [jsChallengeFailed] and [noBrowserData]
    never fire: when [POST /api/bot] answers with a verdict of the Signal
    Evaluator, both signals are in it as not detected (the handler has
    rejected every request that would trigger them). *)
Theorem route_never_flags_missing_data (req : request) (st : state) (v : Verdict.t)
    (s : Signal.t) :
  (post_bot req st).1 = Normal v ->
  Verdict.code v = None ->
  s ∈ Verdict.allSignals v ->
  Signal.name s = "jsChallengeFailed" \/ Signal.name s = "noBrowserData" ->
  Signal.detected s = false.
Proof.
  intros answered evaluated member which.
  set (browserData := nullish (body req) (VObj [])).
  assert (hasEssentialData browserData = Normal true
          /\ hasJsChallenge browserData = true
          /\ SignalEvaluator.analyzeBotSignals browserData (headers req) = Normal v)
    as (essential & solved_it & ran).
  { revert answered. unfold post_bot, bot_handler. fold browserData.
    destruct (hasEssentialData browserData) as [[|]|]; cbn [negb orb]; try discriminate.
    - destruct (hasJsChallenge browserData); cbn [negb].
      + destruct (SignalEvaluator.analyzeBotSignals _ _) as [analysis|]; [|discriminate].
        intros [= <-]. repeat split.
      + intros [= <-]. discriminate evaluated.
    - intros [= <-]. discriminate evaluated. }
  pose proof (pushed_distinct _ _ _ ran) as distinct.
  destruct (analyzed_score _ _ _ ran) as (userAgent & platform & a & body & all & _).
  rewrite all in *.
  destruct which as [name|name].
  - destruct (emits_jsChallengeFailed _ _ _ _ _ _ _ body) as (x & found & named_so & flag).
    rewrite <- named_so in name.
    rewrite (named_once _ _ _ distinct member found name), flag.
    unfold hasJsChallenge in solved_it. unfold SignalEvaluator.jsChallenge.
    rewrite solved_it. reflexivity.
  - destruct (emits_noBrowserData _ _ _ _ _ _ _ body) as (x & found & named_so & flag).
    rewrite <- named_so in name.
    rewrite (named_once _ _ _ distinct member found name), flag.
    unfold hasEssentialData in essential.
    destruct (gt_num _ _) as [wide|]; [|discriminate]. cbn [cbind] in essential.
    injection essential as essential. apply andb_true_iff in essential as [_ window].
    rewrite window. cbn [negb]. rewrite andb_false_r. reflexivity.
Qed.

Lemma route_never_flags_missing_data_witness :
  exists v,
    (post_bot (json (firefox solved)) fetched_at_noon).1 = Normal v
    /\ forall s, s ∈ Verdict.allSignals v -> Signal.name s = "noBrowserData" ->
         Signal.detected s = false.
Proof.
  destruct ((post_bot (json (firefox solved)) fetched_at_noon).1) as [v|] eqn:answered;
    [|vm_compute in answered; discriminate answered].
  exists v. split; [reflexivity|].
  assert (Verdict.code v = None) as evaluated.
  { vm_compute in answered. injection answered as <-. reflexivity. }
  intros s member name.
  exact (route_never_flags_missing_data (json (firefox solved)) fetched_at_noon v s
           answered evaluated member (or_intror name)).
Defined.

(** ** The timing proof of a challenge *)

Lemma finite_cases (x : float) :
  PrimFloat.is_finite x = true ->
  (exists s, Prim2SF x = S754_zero s) \/ (exists s m e, Prim2SF x = S754_finite s m e).
Proof.
  unfold PrimFloat.is_finite, PrimFloat.is_nan, PrimFloat.is_infinity.
  rewrite !FloatAxioms.eqb_spec, FloatAxioms.abs_spec. intros finite.
  destruct (Prim2SF x) as [s|s| |s m e] eqn:shape.
  - left. eauto.
  - exfalso. destruct s; vm_compute in finite; discriminate finite.
  - exfalso. vm_compute in finite. discriminate finite.
  - right. eauto.
Qed.

Lemma sub_self (x : float) :
  PrimFloat.is_finite x = true -> PrimFloat.sub x x = PrimFloat.zero.
Proof.
  intros finite. rewrite <- (FloatAxioms.SF2Prim_Prim2SF (PrimFloat.sub x x)), FloatAxioms.sub_spec.
  destruct (finite_cases x finite) as [[s ->]|(s & m & e & ->)].
  - destruct s; reflexivity.
  - unfold SF64sub, SFsub. cbv zeta.
    match goal with
    | |- context [binary_normalize _ _ (?a - ?b) _ _] =>
        replace (a - b) with 0 by (symmetry; apply Z.sub_diag)
    end.
    reflexivity.
Qed.

(** X22.  The timing check of [POST /api/challenge/verify] does not
    measure time: a solver that echoes [timingChallenge] as [timingProof]
    and reports an execution time between 0 and 5000 is answered
    [timingValid: true], however late it posts.  (The stored timestamp is
    assumed to convert to a finite Number other than zero, as every value of
    [Date.now()] does.) *)
Theorem echoed_timing_is_valid (req : request) (now : Z) (st : state) (id : string)
    (fields : list (string * value)) (stored : Challenge.t) (e : float) :
  body req = VObj fields ->
  (body req)?."challengeId" = VStr id ->
  challenges st !! id = Some stored ->
  (body req)?."timingProof" = VNum (of_Z (Challenge.timestamp stored)) ->
  PrimFloat.is_finite (of_Z (Challenge.timestamp stored)) = true ->
  PrimFloat.is_zero (of_Z (Challenge.timestamp stored)) = false ->
  (body req)?."executionTime" = VNum e ->
  PrimFloat.ltb PrimFloat.zero e = true ->
  PrimFloat.ltb e (of_Z 5000) = true ->
  (post_verify req now st).1
  = Normal (Checked (strict_eq (body req)?."answer"
                       (VNum (of_Z (Challenge.expectedAnswer stored))))
              (VBool true) (VNum e) (now - Challenge.timestamp stored)).
Proof.
  intros shape same found echoed finite nonzero reported positive quick.
  unfold post_verify. rewrite shape in *. rewrite same, find_challenge_string, found.
  rewrite echoed, reported. cbn [ToBoolean].
  assert (PrimFloat.is_nan (of_Z (Challenge.timestamp stored)) = false) as number.
  { unfold PrimFloat.is_finite in finite. apply negb_true_iff, orb_false_iff in finite.
    tauto. }
  rewrite nonzero, number. cbn [orb negb].
  unfold JS.sub, gt_num, lt_num. cbn [ToNumber cbind].
  rewrite (sub_self _ finite).
  replace (PrimFloat.ltb (PrimFloat.abs PrimFloat.zero) (of_Z 1000)) with true
    by (vm_compute; reflexivity).
  rewrite positive, quick. reflexivity.
Qed.

Lemma echoed_timing_is_valid_witness :
  (post_verify
     (json (VObj [("challengeId", VStr "k3x9"); ("answer", VNum (of_Z 42));
                  ("timingProof", VNum (of_Z noon)); ("executionTime", VNum (of_Z 15))]))
     (noon + 59000) (get_challenge navigation noon "k3x9" 7 6 Times initial).2).1
  = Normal (Checked true (VBool true) (VNum (of_Z 15)) 59000).
Proof.
  apply (echoed_timing_is_valid
           (json (VObj [("challengeId", VStr "k3x9"); ("answer", VNum (of_Z 42));
                        ("timingProof", VNum (of_Z noon)); ("executionTime", VNum (of_Z 15))]))
           (noon + 59000) (get_challenge navigation noon "k3x9" 7 6 Times initial).2 "k3x9"
           [("challengeId", VStr "k3x9"); ("answer", VNum (of_Z 42));
            ("timingProof", VNum (of_Z noon)); ("executionTime", VNum (of_Z 15))]
           (Challenge.mk 42 noon (getClientIp navigation)) (of_Z 15));
    vm_compute; reflexivity.
Defined.


(** ** What the middleware tracks *)

(** X23.  The middleware opens a session for document requests only: it
    does nothing at all for [/api/bot], it never touches the sessions or the
    timers for a path under [/api/] or a method other than [GET], it does one
    of three things in every case, and a [GET] for a path without extension
    outside [/api/] that announces [Sec-Fetch-Dest: document] is tracked. *)
Theorem middleware_tracks_documents_only (extname : string -> string) (method path : string)
    (req : request) (now : Z) (st : state) :
  middleware extname method "/api/bot" req now st = st
  /\ (String.prefix "/api/" path = true \/ method <> "GET" ->
      pageVisits (middleware extname method path req now st) = pageVisits st
      /\ timers (middleware extname method path req now st) = timers st
      /\ nextTimer (middleware extname method path req now st) = nextTimer st)
  /\ (middleware extname method path req now st = document_request req now st
      \/ middleware extname method path req now st = log_header_analysis req st
      \/ middleware extname method path req now st = st)
  /\ (extname path = "" -> String.prefix "/api/" path = false ->
      headers req !! "sec-fetch-dest" = Some "document" ->
      middleware extname "GET" path req now st = document_request req now st).
Proof.
  split; [|split; [|split]].
  - unfold middleware. cbn [String.prefix String.eqb]. cbv zeta.
    replace (String.prefix "/api/" "/api/bot") with true by reflexivity.
    replace (String.eqb "/api/bot" "/api/bot") with true by reflexivity.
    cbn [negb andb]. rewrite !andb_false_r. reflexivity.
  - intros quiet. unfold middleware. cbv zeta.
    assert (String.eqb method "GET" && negb (negb (String.eqb (extname path) "")
                                              && negb (endsWith path ".html"))
            && negb (String.prefix "/api/" path) = false) as ->.
    { destruct quiet as [-> | other].
      - cbn [negb]. apply andb_false_r.
      - destruct (String.eqb_spec method "GET"); [contradiction|reflexivity]. }
    cbn [andb]. destruct (negb _ && negb _); repeat split.
  - unfold middleware. cbv zeta.
    repeat match goal with |- context [if ?c then _ else _] => destruct c end; tauto.
  - intros plain page document. unfold middleware. cbv zeta.
    rewrite plain, page, document. cbn [String.eqb negb andb].
    rewrite bool_decide_eq_true_2 by reflexivity. reflexivity.
Qed.

Lemma middleware_tracks_documents_only_witness :
  pageVisits
    (middleware (fun _ => "") "GET" "/api/visit-status" navigation noon fetched_at_noon)
  = pageVisits fetched_at_noon.
Proof.
  apply (proj1 (proj2 (middleware_tracks_documents_only (fun _ => "") "GET"
                         "/api/visit-status" navigation noon fetched_at_noon))).
  left. reflexivity.
Defined.
